(** * The local-command and context core of the Perplexity assistant

    A shallow embedding of [ccos_mac/claude_code/agents/perplexity.py]
    (class [PerplexityAPI]) together with the library functions it calls
    ([str] methods, [re], [posixpath], [os]), and the properties of its
    command dispatch, directory snapshot, tree listing and context
    assembly.

    Modelling conventions.
    - A Python [str] is a [string]; non-ASCII text is held as its UTF-8
      bytes.  The character predicates ([isspace], [lower], the regex
      classes) follow Python on ASCII code points; a byte above 127 is
      never whitespace, has no case and is not a word character.
    - The filesystem is a finite map from paths to inodes.  Directories
      carry read, write and search permissions; dangling symbolic links
      are modelled, live ones are not.  Every [os] call acts on the
      filesystem as it is at the call (no concurrent change by other
      processes); [_handle_cd_env] lifts this for the [os.chdir] calls
      of [_handle_cd], whose outcome it takes from the environment.
    - A handler is a function from the object state to a result and the
      new state.  An [OSError] of an [os] call is the [Err] of a [res].
    - The awaited HTTP exchange of [process_query] is an oracle from the
      request payload to an [api_outcome].
    - The iteration order of a Python [set] of strings depends on the
      per-process string hash; it is a parameter [set_order]. *)

From Stdlib Require Import Ascii String List Bool Arith Lia Sorting.Sorted Permutation.
From stdpp Require Import base gmap strings list.

Import ListNotations.
Set Warnings "-register-all".
Local Open Scope string_scope.
Local Open Scope list_scope.
Local Open Scope nat_scope.

(* ===================================================================== *)
(** * Python [str] methods *)
(* ===================================================================== *)

Module PyStr.

(** [str.isspace] on one character: U+0009..U+000D, U+001C..U+001F, space. *)
Definition isspace (c : ascii) : bool :=
  let n := nat_of_ascii c in
  ((9 <=? n) && (n <=? 13)) || ((28 <=? n) && (n <=? 31)) || (n =? 32).

Definition isupper (c : ascii) : bool :=
  let n := nat_of_ascii c in (65 <=? n) && (n <=? 90).

Definition islower (c : ascii) : bool :=
  let n := nat_of_ascii c in (97 <=? n) && (n <=? 122).

Definition isdigit (c : ascii) : bool :=
  let n := nat_of_ascii c in (48 <=? n) && (n <=? 57).

Definition lower_char (c : ascii) : ascii :=
  if isupper c then ascii_of_nat (nat_of_ascii c + 32) else c.

(** [s.lower()] *)
Fixpoint lower (s : string) : string :=
  match s with
  | EmptyString => EmptyString
  | String c s' => String (lower_char c) (lower s')
  end.

(** [s.lstrip()] *)
Fixpoint lstrip (s : string) : string :=
  match s with
  | EmptyString => EmptyString
  | String c s' => if isspace c then lstrip s' else s
  end.

(** [s.rstrip()] *)
Fixpoint rstrip (s : string) : string :=
  match s with
  | EmptyString => EmptyString
  | String c s' =>
      match rstrip s' with
      | EmptyString => if isspace c then EmptyString else String c EmptyString
      | r => String c r
      end
  end.

(** [s.strip()] *)
Definition strip (s : string) : string := rstrip (lstrip s).

(** The first whitespace-delimited token of a string that starts with a
    non-space character, and what follows the token. *)
Fixpoint token (s : string) : string * string :=
  match s with
  | EmptyString => (EmptyString, EmptyString)
  | String c s' =>
      if isspace c then (EmptyString, s)
      else let '(t, r) := token s' in (String c t, r)
  end.

(** [s.split(maxsplit=1)]: leading whitespace is skipped; the first token
    is cut off; the remainder, after the whitespace that follows the
    token, is kept as it is (trailing whitespace included) when it is not
    empty. *)
Definition split1 (s : string) : list string :=
  match lstrip s with
  | EmptyString => []
  | s1 =>
      let '(t, r) := token s1 in
      match lstrip r with
      | EmptyString => [t]
      | r1 => [t; r1]
      end
  end.

(** [s.startswith(p)] *)
Definition startswith (p s : string) : bool := String.prefix p s.

(** [s.endswith(c)] for a one-character suffix *)
Fixpoint endswith_char (c : ascii) (s : string) : bool :=
  match s with
  | EmptyString => false
  | String x EmptyString => Ascii.eqb x c
  | String _ s' => endswith_char c s'
  end.

(** [sub in s] *)
Fixpoint contains (sub s : string) : bool :=
  String.prefix sub s ||
  match s with
  | EmptyString => false
  | String _ s' => contains sub s'
  end.

(** [s[:n]] *)
Fixpoint take (n : nat) (s : string) : string :=
  match n, s with
  | S n', String c s' => String c (take n' s')
  | _, _ => EmptyString
  end.

(** [s.rstrip(c)] for a one-character set *)
Fixpoint rstrip_char (x : ascii) (s : string) : string :=
  match s with
  | EmptyString => EmptyString
  | String c s' =>
      match rstrip_char x s' with
      | EmptyString => if Ascii.eqb c x then EmptyString else String c EmptyString
      | r => String c r
      end
  end.

(** [s.split(sep)] for a one-character separator: never empty. *)
Fixpoint split_on (sep : ascii) (s : string) : list string :=
  match s with
  | EmptyString => [EmptyString]
  | String c s' =>
      if Ascii.eqb c sep then EmptyString :: split_on sep s'
      else match split_on sep s' with
           | [] => [String c EmptyString]
           | w :: ws => String c w :: ws
           end
  end.

(** [sep.join(l)] *)
Definition join (sep : string) (l : list string) : string := String.concat sep l.

(** Insertion of a string into a list sorted by code points. *)
Fixpoint insert_sorted (x : string) (l : list string) : list string :=
  match l with
  | [] => [x]
  | y :: l' => if String.leb x y then x :: l else y :: insert_sorted x l'
  end.

(** [sorted(l)] for a list of strings. *)
Fixpoint sorted (l : list string) : list string :=
  match l with
  | [] => []
  | x :: l' => insert_sorted x (sorted l')
  end.

(** Truth value of a string: non-empty. *)
Definition truthy (s : string) : bool :=
  match s with EmptyString => false | _ => true end.

End PyStr.

(* ===================================================================== *)
(** * Python [re]: the fragment used by the command patterns *)
(* ===================================================================== *)

Module Re.

(** Abstract syntax of the patterns.  Every pattern of the source has at
    most one capturing group. *)
Inductive re : Type :=
| Eps                          (* empty pattern *)
| Chr (c : ascii)              (* a literal character *)
| Dot                          (* [.] under DOTALL *)
| Cls (p : ascii -> bool)      (* a character class *)
| Cat (r1 r2 : re)             (* concatenation *)
| Opt (r : re)                 (* [r?], greedy *)
| OptLazy (r : re)             (* [r??] *)
| Plus (r : re)                (* [r+], greedy *)
| StarLazy (r : re)            (* [r*?] *)
| Grp (r : re)                 (* [(r)], group 1 *)
| Eos.                         (* [$] without MULTILINE *)

(** [\w] *)
Definition word_char (c : ascii) : bool :=
  PyStr.isupper c || PyStr.islower c || PyStr.isdigit c || Ascii.eqb c "_".

(** [\s] *)
Definition space_char (c : ascii) : bool := PyStr.isspace c.

(** [[\w./-]] *)
Definition name_char (c : ascii) : bool :=
  word_char c || Ascii.eqb c "." || Ascii.eqb c "/" || Ascii.eqb c "-".

(** A literal string as a pattern. *)
Fixpoint lit (s : string) : re :=
  match s with
  | EmptyString => Eps
  | String c s' => Cat (Chr c) (lit s')
  end.

(** Concatenation of a list of patterns. *)
Fixpoint seq (l : list re) : re :=
  match l with
  | [] => Eps
  | r :: l' => Cat r (seq l')
  end.

Definition orelse {A} (x y : option A) : option A :=
  match x with Some _ => x | None => y end.

(** Backtracking matcher in continuation-passing style.  [ic] is
    IGNORECASE; [s] is the input not yet consumed, [g] the text of
    group 1 so far, [k] what has to match after [r].  Alternatives are
    tried in the priority order of a backtracking engine; the first
    success is the result.  A repetition body that consumes nothing ends
    the repetition. *)
Fixpoint m {A} (ic : bool) (r : re) (s : string) (g : option string)
    (k : string -> option string -> option A) {struct r} : option A :=
  match r with
  | Eps => k s g
  | Chr c =>
      match s with
      | String x s' =>
          if (if ic then Ascii.eqb (PyStr.lower_char x) (PyStr.lower_char c)
              else Ascii.eqb x c)
          then k s' g else None
      | EmptyString => None
      end
  | Dot =>
      match s with
      | String _ s' => k s' g
      | EmptyString => None
      end
  | Cls p =>
      match s with
      | String x s' => if p x then k s' g else None
      | EmptyString => None
      end
  | Cat r1 r2 => m ic r1 s g (fun s1 g1 => m ic r2 s1 g1 k)
  | Opt r1 => orelse (m ic r1 s g k) (k s g)
  | OptLazy r1 => orelse (k s g) (m ic r1 s g k)
  | Plus r1 =>
      (fix loop (fuel : nat) (s0 : string) (g0 : option string) : option A :=
         match fuel with
         | O => None
         | S fuel' =>
             m ic r1 s0 g0 (fun s1 g1 =>
               orelse
                 (if String.length s1 <? String.length s0
                  then loop fuel' s1 g1 else None)
                 (k s1 g1))
         end) (S (String.length s)) s g
  | StarLazy r1 =>
      (fix loop (fuel : nat) (s0 : string) (g0 : option string) : option A :=
         orelse (k s0 g0)
           match fuel with
           | O => None
           | S fuel' =>
               m ic r1 s0 g0 (fun s1 g1 =>
                 if String.length s1 <? String.length s0
                 then loop fuel' s1 g1 else None)
           end) (String.length s) s g
  | Grp r1 =>
      m ic r1 s g (fun s1 _ =>
        k s1 (Some (PyStr.take (String.length s - String.length s1) s)))
  | Eos =>
      match s with
      | EmptyString => k s g
      | String c EmptyString => if Ascii.eqb c "010" then k s g else None
      | _ => None
      end
  end.

(** [re.fullmatch(r, s, flags)]: [None] when there is no match, else
    [Some g] with [g] the text of group 1 ([None] when the pattern has
    no group). *)
Definition fullmatch (ic : bool) (r : re) (s : string) : option (option string) :=
  m ic r s None (fun rest g =>
    match rest with EmptyString => Some g | _ => None end).

(** A match of [r] at the start of [s]: the input left after it and
    group 1. *)
Definition match_here (ic : bool) (r : re) (s : string)
  : option (string * option string) :=
  m ic r s None (fun rest g => Some (rest, g)).

(** [re.findall(r, s)] for a pattern with one group: the texts of
    group 1 of the successive non-overlapping matches, left to right. *)
Fixpoint findall_from (fuel : nat) (ic : bool) (r : re) (s : string) : list string :=
  match fuel with
  | O => []
  | S fuel' =>
      match match_here ic r s with
      | Some (rest, g) =>
          let found := match g with Some t => t | None => EmptyString end in
          if String.length rest <? String.length s
          then found :: findall_from fuel' ic r rest
          else match s with
               | EmptyString => [found]
               | String _ s' => found :: findall_from fuel' ic r s'
               end
      | None =>
          match s with
          | EmptyString => []
          | String _ s' => findall_from fuel' ic r s'
          end
      end
  end.

Definition findall (r : re) (s : string) : list string :=
  findall_from (S (String.length s)) false r s.

End Re.

(* ===================================================================== *)
(** * [posixpath] *)
(* ===================================================================== *)

Module PosixPath.

(** [os.path.isabs] *)
Definition isabs (p : string) : bool := PyStr.startswith "/" p.

(** [os.path.join(a, b)] *)
Definition join (a b : string) : string :=
  if PyStr.startswith "/" b then b
  else if negb (PyStr.truthy a) || PyStr.endswith_char "/" a then a +:+ b
  else a +:+ "/" +:+ b.

(** [(p[:i], p[i:])] for [i = p.rfind('/') + 1]. *)
Fixpoint rsplit_slash (p : string) : string * string :=
  match p with
  | EmptyString => (EmptyString, EmptyString)
  | String c p' =>
      let '(h, t) := rsplit_slash p' in
      match h with
      | EmptyString =>
          if Ascii.eqb c "/" then (String c EmptyString, p')
          else (EmptyString, String c t)
      | _ => (String c h, t)
      end
  end.

(** [head != '/' * len(head)] is false *)
Fixpoint all_slashes (s : string) : bool :=
  match s with
  | EmptyString => true
  | String c s' => Ascii.eqb c "/" && all_slashes s'
  end.

(** [os.path.dirname] *)
Definition dirname (p : string) : string :=
  let head := fst (rsplit_slash p) in
  if PyStr.truthy head && negb (all_slashes head)
  then PyStr.rstrip_char "/" head
  else head.

(** [os.path.basename] *)
Definition basename (p : string) : string := snd (rsplit_slash p).

(** The loop of [normpath] over the components; [acc] is [new_comps]
    reversed (its head is [new_comps[-1]]). *)
Fixpoint norm_comps (initial_slashes : bool) (comps : list string)
    (acc : list string) : list string :=
  match comps with
  | [] => rev acc
  | comp :: rest =>
      if String.eqb comp "" || String.eqb comp "." then
        norm_comps initial_slashes rest acc
      else if negb (String.eqb comp "..")
              || (negb initial_slashes && match acc with [] => true | _ => false end)
              || match acc with last :: _ => String.eqb last ".." | [] => false end
      then norm_comps initial_slashes rest (comp :: acc)
      else match acc with
           | _ :: acc' => norm_comps initial_slashes rest acc'
           | [] => norm_comps initial_slashes rest acc
           end
  end.

(** The number of initial slashes [normpath] keeps: 0, 1 or 2. *)
Definition initial_slashes (path : string) : nat :=
  if PyStr.startswith "/" path then
    if PyStr.startswith "//" path && negb (PyStr.startswith "///" path)
    then 2 else 1
  else 0.

Fixpoint slashes (n : nat) : string :=
  match n with
  | O => EmptyString
  | S n' => String "/" (slashes n')
  end.

(** [os.path.normpath] *)
Definition normpath (path : string) : string :=
  match path with
  | EmptyString => "."
  | _ =>
      let n := initial_slashes path in
      let comps := norm_comps (0 <? n) (PyStr.split_on "/" path) [] in
      let p := slashes n +:+ PyStr.join "/" comps in
      match p with EmptyString => "." | _ => p end
  end.

(** [os.path.expanduser("~")]: the value of HOME without its trailing
    slashes, or the root when that is empty; the argument itself when no
    home directory is known. *)
Definition expanduser_tilde (home : option string) : string :=
  match home with
  | None => "~"
  | Some h =>
      match PyStr.rstrip_char "/" h with
      | EmptyString => "/"
      | u => u
      end
  end.

End PosixPath.

(* ===================================================================== *)
(** * The [os] layer: a filesystem and the calls the agent makes *)
(* ===================================================================== *)

Module OS.

Inductive errno : Type :=
| EPERM | ENOENT | EACCES | EBUSY | EEXIST | ENOTDIR | EISDIR | ENOTEMPTY.

(** [e.errno] (macOS numbering) *)
Definition errno_code (e : errno) : nat :=
  match e with
  | EPERM => 1 | ENOENT => 2 | EACCES => 13 | EBUSY => 16 | EEXIST => 17
  | ENOTDIR => 20 | EISDIR => 21 | ENOTEMPTY => 66
  end.

Definition errno_digits (e : errno) : string :=
  match e with
  | EPERM => "1" | ENOENT => "2" | EACCES => "13" | EBUSY => "16"
  | EEXIST => "17" | ENOTDIR => "20" | EISDIR => "21" | ENOTEMPTY => "66"
  end.

(** [e.strerror] *)
Definition strerror (e : errno) : string :=
  match e with
  | EPERM => "Operation not permitted"
  | ENOENT => "No such file or directory"
  | EACCES => "Permission denied"
  | EBUSY => "Resource busy"
  | EEXIST => "File exists"
  | ENOTDIR => "Not a directory"
  | EISDIR => "Is a directory"
  | ENOTEMPTY => "Directory not empty"
  end.

(** An [OSError]: its errno and the path it is about. *)
Record oserror : Type := OSError { err_no : errno; err_path : string }.

(** [str(e)] *)
Definition str_oserror (e : oserror) : string :=
  "[Errno " +:+ errno_digits (err_no e) +:+ "] " +:+ strerror (err_no e)
  +:+ ": '" +:+ err_path e +:+ "'".

(** The result of a call that may raise [OSError]. *)
Inductive res (A : Type) : Type :=
| Ok (a : A)
| Err (e : oserror).
Arguments Ok {A} a.
Arguments Err {A} e.

(** What a path names.  The content of a file is [None] when reading it
    as UTF-8 text fails.  A [BrokenLink] is a symbolic link whose target,
    and the directory of its target, do not exist. *)
Inductive inode : Type :=
| File (content : option string)
| Dir (r w x : bool)
| BrokenLink
| Special.

(** The filesystem: the inode at each path, a path being the list of
    the component names from the root; the root is at [[]]. *)
Abbreviation fsmap := (gmap (list string) inode).

(** [Some rest] when [k = p ++ rest] *)
Fixpoint strip_prefix (p k : list string) : option (list string) :=
  match p, k with
  | [], _ => Some k
  | a :: p', b :: k' => if String.eqb a b then strip_prefix p' k' else None
  | _ :: _, [] => None
  end.

(** [Some c] when [k = p ++ [c]] *)
Definition child_of (p k : list string) : option string :=
  match strip_prefix p k with
  | Some [c] => Some c
  | _ => None
  end.

(** The names in the directory at [p], in the order of the directory. *)
Definition children (root : fsmap) (p : list string) : list string :=
  omap (fun kv : list string * inode => child_of p (fst kv)) (map_to_list root).

(** Path resolution, component by component, from the directory [cur]:
    every directory walked through must be searchable; [..] at the root
    is the root.  Nothing is followed: the result is the path of the
    node named, which may be a dangling link. *)
Fixpoint namei (root : fsmap) (cur : list string) (comps : list string)
  : errno + list string :=
  match comps with
  | [] => inr cur
  | c :: rest =>
      match root !! cur with
      | Some (Dir _ _ x) =>
          if negb x then inl EACCES
          else if String.eqb c "" || String.eqb c "." then namei root cur rest
          else if String.eqb c ".." then namei root (removelast cur) rest
          else match root !! (cur ++ [c]) with
               | Some _ => namei root (cur ++ [c]) rest
               | None => inl ENOENT
               end
      | Some (File _) | Some Special => inl ENOTDIR
      | Some BrokenLink | None => inl ENOENT
      end
  end.

(** Where the resolution of a path string starts: the root for an
    absolute path, the working directory of the process otherwise. *)
Definition start (cwd : list string) (path : string) : list string :=
  if PosixPath.isabs path then [] else cwd.

(** [lstat]: the path of the node, nothing followed at the end. *)
Definition lresolve (root : fsmap) (cwd : list string) (path : string)
  : errno + list string :=
  match path with
  | EmptyString => inl ENOENT
  | _ => namei root (start cwd path) (PyStr.split_on "/" path)
  end.

(** [stat]: the node named, a dangling link being [ENOENT]. *)
Definition stat (root : fsmap) (cwd : list string) (path : string)
  : errno + (list string * inode) :=
  match lresolve root cwd path with
  | inl e => inl e
  | inr p =>
      match root !! p with
      | Some BrokenLink | None => inl ENOENT
      | Some n => inr (p, n)
      end
  end.

(** [os.path.exists] *)
Definition path_exists (root : fsmap) (cwd : list string) (path : string) : bool :=
  match stat root cwd path with inr _ => true | inl _ => false end.

(** [os.path.lexists] *)
Definition path_lexists (root : fsmap) (cwd : list string) (path : string) : bool :=
  match lresolve root cwd path with
  | inr p => match root !! p with Some _ => true | None => false end
  | inl _ => false
  end.

(** [os.path.isdir] *)
Definition path_isdir (root : fsmap) (cwd : list string) (path : string) : bool :=
  match stat root cwd path with inr (_, Dir _ _ _) => true | _ => false end.

(** [os.path.isfile] *)
Definition path_isfile (root : fsmap) (cwd : list string) (path : string) : bool :=
  match stat root cwd path with inr (_, File _) => true | _ => false end.

(** [os.path.islink] *)
Definition path_islink (root : fsmap) (cwd : list string) (path : string) : bool :=
  match lresolve root cwd path with
  | inr p => match root !! p with Some BrokenLink => true | _ => false end
  | inl _ => false
  end.

(** [os.access(path, mode)] for [mode] made of [R_OK] and [X_OK]; files
    and special files are readable and not executable. *)
Definition access (root : fsmap) (cwd : list string) (path : string)
    (r_ok x_ok : bool) : bool :=
  match stat root cwd path with
  | inr (_, Dir r _ x) => (negb r_ok || r) && (negb x_ok || x)
  | inr (_, _) => negb x_ok
  | inl _ => false
  end.

(** [os.listdir] *)
Definition listdir (root : fsmap) (cwd : list string) (path : string)
  : res (list string) :=
  match stat root cwd path with
  | inr (p, Dir r _ _) =>
      if r then Ok (children root p) else Err (OSError EACCES path)
  | inr (_, _) => Err (OSError ENOTDIR path)
  | inl e => Err (OSError e path)
  end.

(** [os.chdir]: the new working directory of the process. *)
Definition chdir (root : fsmap) (cwd : list string) (path : string)
  : res (list string) :=
  match stat root cwd path with
  | inr (p, Dir _ _ x) => if x then Ok p else Err (OSError EACCES path)
  | inr (_, _) => Err (OSError ENOTDIR path)
  | inl e => Err (OSError e path)
  end.

(** May an entry be added to or removed from the directory at [p]? *)
Definition writable_dir (root : fsmap) (p : list string) : option errno :=
  match root !! p with
  | Some (Dir _ w x) => if w && x then None else Some EACCES
  | Some _ => Some ENOTDIR
  | None => Some ENOENT
  end.

(** The directory part and the last component of a path string, as the
    kernel splits it for a call that creates an entry. *)
Definition parent_comps (path : string) : list string :=
  removelast (PyStr.split_on "/" path).
Definition last_comp (path : string) : string :=
  List.last (PyStr.split_on "/" path) "".

Definition proper_name (c : string) : bool :=
  negb (String.eqb c "" || String.eqb c "." || String.eqb c "..").

(** [Path(path).touch()]: an existing node is left as it is; a dangling
    link cannot be written through; otherwise an empty file is created
    in the parent directory. *)
Definition touch (root : fsmap) (cwd : list string) (path : string) : res fsmap :=
  match lresolve root cwd path with
  | inr p =>
      match root !! p with
      | Some BrokenLink | None => Err (OSError ENOENT path)
      | Some _ => Ok root
      end
  | inl ENOENT =>
      match path with
      | EmptyString => Err (OSError ENOENT path)
      | _ =>
          match namei root (start cwd path) (parent_comps path) with
          | inr pp =>
              match writable_dir root pp with
              | None =>
                  if proper_name (last_comp path) then
                    Ok (<[pp ++ [last_comp path] := File (Some "")]> root)
                  else Err (OSError ENOENT path)
              | Some e => Err (OSError e path)
              end
          | inl e => Err (OSError e path)
          end
      end
  | inl e => Err (OSError e path)
  end.

(** [os.makedirs] on the components left to walk: missing directories
    are created on the way; the last one must be created by the call. *)
Fixpoint mkdirs (root : fsmap) (cur : list string) (comps : list string)
    (path : string) : res fsmap :=
  match comps with
  | [] => Err (OSError EEXIST path)
  | c :: rest =>
      match root !! cur with
      | Some (Dir _ w x) =>
          if negb x then Err (OSError EACCES path)
          else if String.eqb c "" || String.eqb c "." then
            mkdirs root cur rest path
          else if String.eqb c ".." then mkdirs root (removelast cur) rest path
          else match root !! (cur ++ [c]) with
               | Some _ => mkdirs root (cur ++ [c]) rest path
               | None =>
                   if w then
                     let root' := <[cur ++ [c] := Dir true true true]> root in
                     match rest with
                     | [] => Ok root'
                     | _ => match mkdirs root' (cur ++ [c]) rest path with
                            | Err (OSError EEXIST _) => Ok root'
                            | r => r
                            end
                     end
                   else Err (OSError EACCES path)
               end
      | Some (File _) | Some Special => Err (OSError ENOTDIR path)
      | Some BrokenLink | None => Err (OSError ENOENT path)
      end
  end.

Definition makedirs (root : fsmap) (cwd : list string) (path : string) : res fsmap :=
  match path with
  | EmptyString => Err (OSError ENOENT path)
  | _ => mkdirs root (start cwd path) (PyStr.split_on "/" path) path
  end.

(** [os.remove] *)
Definition remove (root : fsmap) (cwd : list string) (path : string) : res fsmap :=
  match lresolve root cwd path with
  | inr p =>
      match root !! p with
      | Some (Dir _ _ _) => Err (OSError EPERM path)
      | Some _ =>
          match writable_dir root (removelast p) with
          | None => Ok (delete p root)
          | Some e => Err (OSError e path)
          end
      | None => Err (OSError ENOENT path)
      end
  | inl e => Err (OSError e path)
  end.

(** [os.rmdir] *)
Definition rmdir (root : fsmap) (cwd : list string) (path : string) : res fsmap :=
  match stat root cwd path with
  | inr (p, Dir _ _ _) =>
      match p, children root p with
      | [], _ => Err (OSError EBUSY path)
      | _, _ :: _ => Err (OSError ENOTEMPTY path)
      | _, [] =>
          match writable_dir root (removelast p) with
          | None => Ok (delete p root)
          | Some e => Err (OSError e path)
          end
      end
  | inr (_, _) => Err (OSError ENOTDIR path)
  | inl e => Err (OSError e path)
  end.

(** [Path(path).read_text(encoding='utf-8')]; [None] when it raises. *)
Definition read_text (root : fsmap) (cwd : list string) (path : string)
  : option string :=
  match stat root cwd path with
  | inr (_, File c) => c
  | _ => None
  end.

End OS.

(* ===================================================================== *)
(** * [PerplexityAPI]: state, handlers and dispatch *)
(* ===================================================================== *)

Module Agent.

Import OS.

(** ** Constants for tree display *)
Definition TREE_SPACE : string := "    ".
Definition TREE_BRANCH : string := "│   ".
Definition TREE_TEE : string := "├── ".
Definition TREE_LAST : string := "└── ".

(** ** The object state *)

(** A value of [_file_cache]: the dict with keys ['is_dir'], ['content']
    and, sometimes, ['error']. *)
Record entry : Type := Entry {
  is_dir : bool;
  content : option string;
  error : option string
}.

(** The fields of [self] that the handlers use, and the part of the
    process environment they act on: the filesystem, the working
    directory of the process ([os.chdir]) and HOME. *)
Record state : Type := State {
  fs : fsmap;
  cwd : list string;
  home : option string;
  current_dir : string;
  _file_cache : gmap string entry;
  is_processing_api : bool
}.

Definition set_fs (v : fsmap) (st : state) : state :=
  State v (cwd st) (home st) (current_dir st) (_file_cache st) (is_processing_api st).
Definition set_cwd (v : list string) (st : state) : state :=
  State (fs st) v (home st) (current_dir st) (_file_cache st) (is_processing_api st).
Definition set_current_dir (v : string) (st : state) : state :=
  State (fs st) (cwd st) (home st) v (_file_cache st) (is_processing_api st).
Definition set_file_cache (v : gmap string entry) (st : state) : state :=
  State (fs st) (cwd st) (home st) (current_dir st) v (is_processing_api st).
Definition set_is_processing_api (v : bool) (st : state) : state :=
  State (fs st) (cwd st) (home st) (current_dir st) (_file_cache st) v.

(** What a handler returns: [(response_string, is_command_result)]. *)
Definition reply : Type := (string * bool)%type.

(** ** [_update_file_cache] *)

(** The entry recorded for a listed item.  [os.path.isdir] does not
    raise, so the inner [except OSError] of the source is never taken. *)
Definition listed_entry (st : state) (item : string) : entry :=
  let full_path := PosixPath.join (current_dir st) item in
  Entry (path_isdir (fs st) (cwd st) full_path) None None.

Definition _update_file_cache (st : state) : state :=
  let cleared : gmap string entry := ∅ in
  match listdir (fs st) (cwd st) (current_dir st) with
  | Ok items =>
      set_file_cache
        (fold_left (fun c item => <[item := listed_entry st item]> c) items cleared)
        st
  | Err e =>
      set_file_cache
        (<[".error" := Entry false (Some ("Cannot list directory: " +:+ str_oserror e)) None]>
           cleared)
        st
  end.

(** [__init__], after the client and the tables are set up: the current
    directory is that of the process. *)
Definition init (root : fsmap) (getcwd : string) (cwd0 : list string)
    (home0 : option string) : state :=
  _update_file_cache (State root cwd0 home0 getcwd ∅ false).

(** ** [_handle_help], [_handle_exit] *)

Definition help_text : string :=
"Available Mac Commands:
• help                     - Show this help message
• exit/quit                - Exit the application
• ls                       - List files in current directory
• tree                     - Show directory structure in tree format
• cd <dir>                 - Change directory (supports '..', '~', absolute paths)
• pwd                      - Print working directory
• touch <filename>         - Create an empty file
• mkdir <dirname>          - Create a directory
• rm <name>               - Remove a file or empty directory

Natural Language:
• Use phrases like:
  - 'list files'
  - 'show directory tree'
  - 'go to ~/Documents'
  - 'create file test.py'
  - 'make directory src'
  - 'delete file.txt'

For AI queries:
• Ask about code ('explain cli.py'), request explanations, analysis, or generation.".

Definition _handle_help (st : state) : reply * state := ((help_text, true), st).

Definition _handle_exit (st : state) : reply * state := (("exit", true), st).

(** ** [_build_tree] *)

(** [enumerate(items)] *)
Fixpoint enumerate_from {A} (i : nat) (l : list A) : list (nat * A) :=
  match l with
  | [] => []
  | x :: l' => (i, x) :: enumerate_from (S i) l'
  end.

Definition hidden (item : string) : bool := PyStr.startswith "." item.

(** The items a directory listing shows: hidden ones dropped, sorted. *)
Definition visible_items (l : list string) : list string :=
  PyStr.sorted (filter (fun item => negb (hidden item)) l).

(** The recursion of [_build_tree] is bounded by [level < 3]; [fuel]
    bounds it for the termination checker.  [os.path.isdir] does not
    raise, so [item] is never given the permission-error suffix. *)
Fixpoint build_tree_fuel (fuel : nat) (root : fsmap) (wd : list string)
    (dir_path prefix : string) (level : nat) : list string :=
  match fuel with
  | O => []
  | S fuel' =>
      match listdir root wd dir_path with
      | Err _ => [prefix +:+ TREE_LAST +:+ "[Error reading directory]"]
      | Ok l =>
          let items := visible_items l in
          let count := length items in
          flat_map (fun '(i, item) =>
            let connector := if i =? count - 1 then TREE_LAST else TREE_TEE in
            let item_path := PosixPath.join dir_path item in
            let is_dir := path_isdir root wd item_path in
            (prefix +:+ connector +:+ item +:+ (if is_dir then "/" else ""))
            :: (if is_dir && (level <? 3) then
                  let extension := if i =? count - 1 then TREE_SPACE else TREE_BRANCH in
                  build_tree_fuel fuel' root wd item_path (prefix +:+ extension) (level + 1)
                else []))
            (enumerate_from 0 items)
      end
  end.

(** [self._build_tree(dir_path, prefix, level)]: a call at [level]
    recurses at most [3 - level] times more. *)
Definition _build_tree (st : state) (dir_path prefix : string) (level : nat)
  : list string :=
  build_tree_fuel (S (3 - level)) (fs st) (cwd st) dir_path prefix level.

(** ** [_handle_ls] *)
Definition _handle_ls (st : state) : reply * state :=
  let tree_lines := _build_tree st (current_dir st) "" 0 in
  match tree_lines with
  | [] =>
      if negb (path_exists (fs st) (cwd st) (current_dir st)) then
        (("Error: Current directory '" +:+ current_dir st +:+ "' not found.", true), st)
      else if negb (access (fs st) (cwd st) (current_dir st) true false) then
        (("Error: Permission denied for '" +:+ current_dir st +:+ "'", true), st)
      else ((current_dir st +:+ " (empty)", true), st)
  | _ =>
      let output := current_dir st +:+ "
" +:+ PyStr.join "
" tree_lines in
      ((output, true), st)
  end.

(** ** [_handle_cd] *)

(** The path [_handle_cd] resolves a non-empty argument to. *)
Definition cd_target (st : state) (path : string) : string :=
  if String.eqb path ".." then PosixPath.dirname (current_dir st)
  else if String.eqb path "~" || String.eqb path "$HOME" then
    PosixPath.expanduser_tilde (home st)
  else
    let temp_path :=
      if negb (PosixPath.isabs path) then PosixPath.join (current_dir st) path
      else path in
    PosixPath.normpath temp_path.

Definition _handle_cd (path : string) (st : state) : reply * state :=
  let original_dir := current_dir st in
  if negb (PyStr.truthy path) then (("Usage: cd <directory>", true), st)
  else
    let new_dir := cd_target st path in
    if negb (path_exists (fs st) (cwd st) new_dir) then
      (("Directory not found: " +:+ path +:+ " (resolved to " +:+ new_dir +:+ ")", true), st)
    else if negb (path_isdir (fs st) (cwd st) new_dir) then
      (("Not a directory: " +:+ path +:+ " (resolved to " +:+ new_dir +:+ ")", true), st)
    else if negb (access (fs st) (cwd st) new_dir true true) then
      (("Permission denied: " +:+ new_dir, true), st)
    else
      let st1 := set_current_dir new_dir st in
      match chdir (fs st1) (cwd st1) new_dir with
      | Ok wd => (("", true), _update_file_cache (set_cwd wd st1))
      | Err e =>
          (* except Exception as e *)
          let st2 :=
            if negb (String.eqb (current_dir st1) original_dir) then
              match chdir (fs st1) (cwd st1) original_dir with
              | Ok wd => set_current_dir original_dir (set_cwd wd st1)
              | Err _ => st1
              end
            else st1 in
          (("Error changing directory: " +:+ str_oserror e, true), st2)
      end.

(** [_handle_cd] with what [os.chdir] comes to given by the environment.
    The three checks and the two [os.chdir] calls are separate system
    calls: between them another process can remove a directory or change
    its permissions, so a call can raise although the checks passed, and
    the attempt to change back can raise as well.  [os_chdir p] is the
    outcome of [os.chdir(p)]: the new working directory or the error.
    [_handle_cd] is [_handle_cd_env] at the [chdir] of the filesystem the
    checks saw. *)
Definition _handle_cd_env (os_chdir : string -> res (list string))
    (path : string) (st : state) : reply * state :=
  let original_dir := current_dir st in
  if negb (PyStr.truthy path) then (("Usage: cd <directory>", true), st)
  else
    let new_dir := cd_target st path in
    if negb (path_exists (fs st) (cwd st) new_dir) then
      (("Directory not found: " +:+ path +:+ " (resolved to " +:+ new_dir +:+ ")", true), st)
    else if negb (path_isdir (fs st) (cwd st) new_dir) then
      (("Not a directory: " +:+ path +:+ " (resolved to " +:+ new_dir +:+ ")", true), st)
    else if negb (access (fs st) (cwd st) new_dir true true) then
      (("Permission denied: " +:+ new_dir, true), st)
    else
      let st1 := set_current_dir new_dir st in
      match os_chdir new_dir with
      | Ok wd => (("", true), _update_file_cache (set_cwd wd st1))
      | Err e =>
          (* except Exception as e *)
          let st2 :=
            if negb (String.eqb (current_dir st1) original_dir) then
              (* Attempt to change back safely *)
              match os_chdir original_dir with
              | Ok wd => set_current_dir original_dir (set_cwd wd st1)
              | Err _ => st1 (* Ignore error if we can't revert *)
              end
            else st1 in
          (("Error changing directory: " +:+ str_oserror e, true), st2)
      end.

(** ** [_handle_pwd] *)
Definition _handle_pwd (st : state) : reply * state :=
  ((current_dir st, true), st).

(** ** [_handle_create_file] *)

(** [".." in name or "/" in name or "\\" in name] *)
Definition unsafe_name (name : string) : bool :=
  PyStr.contains ".." name || PyStr.contains "/" name || PyStr.contains "\" name.

Definition _handle_create_file (filename : string) (st : state) : reply * state :=
  if negb (PyStr.truthy filename) then (("Usage: create <filename>", true), st)
  else if unsafe_name filename then
    (("Invalid characters or path components in filename: " +:+ filename, true), st)
  else
    let filepath := PosixPath.join (current_dir st) filename in
    if path_exists (fs st) (cwd st) filepath then
      (("File or directory already exists: " +:+ filename, true), st)
    else
      match touch (fs st) (cwd st) filepath with
      | Ok root' =>
          let st1 := set_fs root' st in
          let st2 :=
            set_file_cache (<[filename := Entry false (Some "") None]> (_file_cache st1)) st1 in
          (("File created: " +:+ filename, true), st2)
      | Err e =>
          (("Error creating file '" +:+ filename +:+ "': " +:+ strerror (err_no e), true), st)
      end.

(** ** [_handle_mkdir] *)
Definition _handle_mkdir (dirname : string) (st : state) : reply * state :=
  if negb (PyStr.truthy dirname) then (("Usage: mkdir <dirname>", true), st)
  else if unsafe_name dirname then
    (("Invalid characters or path components in dirname: " +:+ dirname, true), st)
  else
    let dirpath := PosixPath.join (current_dir st) dirname in
    if path_exists (fs st) (cwd st) dirpath then
      (("File or directory already exists: " +:+ dirname, true), st)
    else
      match makedirs (fs st) (cwd st) dirpath with
      | Ok root' =>
          let st1 := set_fs root' st in
          let st2 :=
            set_file_cache (<[dirname := Entry true None None]> (_file_cache st1)) st1 in
          (("Directory created: " +:+ dirname, true), st2)
      | Err e =>
          if errno_code (err_no e) =? 17 then
            (("File or directory already exists: " +:+ dirname, true), st)
          else
            (("Error creating directory '" +:+ dirname +:+ "': " +:+ strerror (err_no e), true), st)
      end.

(** ** [_handle_rm] *)

(** [if name in self._file_cache: del self._file_cache[name]] *)
Definition forget (name : string) (st : state) : state :=
  set_file_cache (delete name (_file_cache st)) st.

Definition rm_error (name : string) (e : oserror) : string :=
  "Error removing '" +:+ name +:+ "': " +:+ strerror (err_no e).

Definition _handle_rm (name : string) (st : state) : reply * state :=
  if negb (PyStr.truthy name) then (("Usage: rm <file_or_empty_dir_name>", true), st)
  else if PyStr.contains ".." name || String.eqb name "." || PyStr.contains "/" name
          || PyStr.contains "\" name then
    (("Invalid characters or path components in name: " +:+ name
      +:+ ". Cannot delete relative paths.", true), st)
  else
    let targetpath := PosixPath.join (current_dir st) name in
    if negb (path_exists (fs st) (cwd st) targetpath) then
      if path_lexists (fs st) (cwd st) targetpath then
        match remove (fs st) (cwd st) targetpath with
        | Ok root' =>
            (("Removed broken symbolic link: " +:+ name, true), forget name (set_fs root' st))
        | Err e => ((rm_error name e, true), st)
        end
      else (("File or directory not found: " +:+ name, true), st)
    else if path_isfile (fs st) (cwd st) targetpath
            || path_islink (fs st) (cwd st) targetpath then
      match remove (fs st) (cwd st) targetpath with
      | Ok root' => (("Removed file: " +:+ name, true), forget name (set_fs root' st))
      | Err e => ((rm_error name e, true), st)
      end
    else if path_isdir (fs st) (cwd st) targetpath then
      match listdir (fs st) (cwd st) targetpath with
      | Ok [] =>
          match rmdir (fs st) (cwd st) targetpath with
          | Ok root' =>
              (("Removed empty directory: " +:+ name, true), forget name (set_fs root' st))
          | Err e => ((rm_error name e, true), st)
          end
      | Ok (_ :: _) =>
          (("Directory not empty: " +:+ name
            +:+ ". Use specific tool for recursive removal.", true), st)
      | Err e => ((rm_error name e, true), st)
      end
    else (("Cannot remove '" +:+ name +:+ "': Not a file or directory.", true), st).

(** ** [_get_file_content] *)

Definition opt_truthy (o : option string) : bool :=
  match o with Some s => PyStr.truthy s | None => false end.

Definition _get_file_content (filename : string) (st : state)
  : option string * state :=
  match _file_cache st !! filename with
  | None => (None, st)
  | Some e =>
      if is_dir e || opt_truthy (error e) then (None, st)
      else
        match content e with
        | Some c => (Some c, st)
        | None =>
            let full_path := PosixPath.join (current_dir st) filename in
            if path_exists (fs st) (cwd st) full_path
               && path_isfile (fs st) (cwd st) full_path then
              match read_text (fs st) (cwd st) full_path with
              | Some text =>
                  (Some text,
                   set_file_cache
                     (<[filename := Entry (is_dir e) (Some text) (error e)]> (_file_cache st)) st)
              | None =>
                  (* except Exception *)
                  (None,
                   set_file_cache
                     (<[filename := Entry (is_dir e) None (error e)]> (_file_cache st)) st)
              end
            else (None, st)
        end
  end.

(** ** [_find_file_references] *)

(** [([\w./-]+\.\w+)] *)
Definition file_pattern : Re.re :=
  Re.Grp (Re.seq [Re.Plus (Re.Cls Re.name_char); Re.Chr ".";
                  Re.Plus (Re.Cls Re.word_char)]).

(** [cache[name].get('is_dir')] for a name in the cache *)
Definition cached_is_dir (c : gmap string entry) (name : string) : bool :=
  match c !! name with Some e => is_dir e | None => false end.

(** [name in self._file_cache] *)
Definition in_cache (c : gmap string entry) (name : string) : bool :=
  match c !! name with Some _ => true | None => false end.

(** One turn of the loop over [potential_files]: the state and
    [found_files] after it. *)
Definition ref_step (acc : state * list string) (potential_file : string)
  : state * list string :=
  let '(st, found_files) := acc in
  if in_cache (_file_cache st) potential_file
     && negb (cached_is_dir (_file_cache st) potential_file)
  then (st, found_files ++ [potential_file])
  else
    let rel_path_check := PosixPath.join (current_dir st) potential_file in
    if path_isfile (fs st) (cwd st) rel_path_check then
      let st1 :=
        if negb (in_cache (_file_cache st) potential_file) then
          set_file_cache
            (<[potential_file := Entry false None None]> (_file_cache st)) st
        else st in
      if negb (cached_is_dir (_file_cache st1) potential_file)
      then (st1, found_files ++ [potential_file])
      else (st1, found_files)
    else (st, found_files).

(** [found_files] at the end of the loop, before [list(set(...))]. *)
Definition found_files (query : string) (st : state) : state * list string :=
  fold_left ref_step (Re.findall file_pattern query) (st, []).

(** [list(set(found_files))].  The iteration order of the set is decided
    by the string hash of the process: [set_order] gives, for a list,
    its elements, each once, in that order. *)
Definition _find_file_references (set_order : list string -> list string)
    (query : string) (st : state) : list string * state :=
  let '(st1, found) := found_files query st in
  (set_order found, st1).

(** ** [_get_context] *)

Definition model_name : string := "sonar-reasoning-pro".

(** [f"{x}"] for an optional string *)
Definition fmt_opt (o : option string) : string :=
  match o with Some s => s | None => "None" end.

(** [sorted(self._file_cache.keys())] *)
Definition sorted_keys (c : gmap string entry) : list string :=
  PyStr.sorted (map fst (map_to_list c)).

Definition context_items (c : gmap string entry) : list string :=
  match c !! ".error" with
  | Some e => ["- Error accessing directory: " +:+ fmt_opt (content e)]
  | None =>
      if decide (c = ∅) then ["- (empty)"]
      else
        map (fun f => "- " +:+ f +:+ (if cached_is_dir c f then "/" else ""))
          (filter (fun f => negb (String.eqb f ".error") && negb (hidden f))
             (sorted_keys c))
  end.

(** The block appended for one included file. *)
Definition file_block (file : string) (acc : list string * state)
  : list string * state :=
  let '(parts, st) := acc in
  let '(content, st1) := _get_file_content file st in
  if opt_truthy content then
    let text := fmt_opt content in
    let max_len := 1500 in
    let truncated_content :=
      PyStr.take max_len text
      +:+ (if max_len <? String.length text then "..." else "") in
    (parts ++ ["
--- " +:+ file +:+ " ---
" +:+ truncated_content +:+ "
--- End " +:+ file +:+ " ---"], st1)
  else
    (parts ++ ["
(Could not read content of " +:+ file +:+ ")"], st1).

(** [files[:2]] *)
Definition files_to_include (files : list string) : list string := firstn 2 files.

Definition _get_context (set_order : list string -> list string)
    (query : string) (st : state) : (string * string) * state :=
  let model := model_name in
  let '(files, st1) := _find_file_references set_order query st in
  let items := context_items (_file_cache st1) in
  let context_parts :=
    ["Current Directory: " +:+ current_dir st1;
     "Available files/dirs in current directory (excluding hidden):"] ++ items in
  let '(context_parts', st2) :=
    match files_to_include files with
    | [] => (context_parts, st1)
    | incl =>
        fold_left (fun acc file => file_block file acc) incl
          (context_parts ++ ["
Relevant File Content:"], st1)
    end in
  ((model, PyStr.join "
" context_parts'), st2).

(** ** The remote exchange *)

(** The request body: [{"model": model, "messages": [system, user]}]. *)
Record payload : Type := Payload {
  p_model : string;
  p_system : string;
  p_user : string
}.

(** What [await self.client.post(...)], [raise_for_status()], [json()]
    and the reading of the first choice come to. *)
Inductive api_outcome : Type :=
| Responded (choices : option (list string))
    (* a 2xx JSON body; [None]: no ['choices'] key; else the contents of
       the choices *)
| HTTPStatusError (status_code : string) (text : string)
| TimeoutException
| RequestError (msg : string)
| OtherException (msg : string) (traceback : string).

(** ** [process_query] *)

Inductive exn : Type := IndexError | TypeError.

Inductive pyresult (A : Type) : Type :=
| Return (a : A)
| Raise (e : exn).
Arguments Return {A} a.
Arguments Raise {A} e.

(** The bound methods stored in [self.commands]. *)
Inductive handler : Type :=
| H_help | H_exit | H_ls | H_cd | H_pwd | H_create_file | H_mkdir | H_rm.

(** [self.commands] *)
Definition commands : list (string * handler) :=
  [("help", H_help); ("exit", H_exit); ("quit", H_exit); ("ls", H_ls);
   ("tree", H_ls); ("cd", H_cd); ("pwd", H_pwd); ("create", H_create_file);
   ("touch", H_create_file); ("mkdir", H_mkdir); ("rm", H_rm);
   ("delete", H_rm); ("remove", H_rm)].

(** [d.get(key)] for a dict given as its items *)
Fixpoint dict_get {A} (key : string) (d : list (string * A)) : option A :=
  match d with
  | [] => None
  | (k, v) :: d' => if String.eqb k key then Some v else dict_get key d'
  end.

(** [key in l] for a list of strings *)
Definition str_in (key : string) (l : list string) : bool :=
  existsb (String.eqb key) l.

(** [handler()]; a handler that wants an argument raises [TypeError]. *)
Definition call0 (h : handler) (st : state) : pyresult reply * state :=
  match h with
  | H_help => let '(r, st') := _handle_help st in (Return r, st')
  | H_exit => let '(r, st') := _handle_exit st in (Return r, st')
  | H_ls => let '(r, st') := _handle_ls st in (Return r, st')
  | H_pwd => let '(r, st') := _handle_pwd st in (Return r, st')
  | H_cd | H_create_file | H_mkdir | H_rm => (Raise TypeError, st)
  end.

(** [handler(arg)] *)
Definition call1 (h : handler) (arg : string) (st : state) : pyresult reply * state :=
  match h with
  | H_cd => let '(r, st') := _handle_cd arg st in (Return r, st')
  | H_create_file => let '(r, st') := _handle_create_file arg st in (Return r, st')
  | H_mkdir => let '(r, st') := _handle_mkdir arg st in (Return r, st')
  | H_rm => let '(r, st') := _handle_rm arg st in (Return r, st')
  | H_help | H_exit | H_ls | H_pwd => (Raise TypeError, st)
  end.

(** [self.natural_commands], in the order of the dict.  The fifth
    pattern is written [\\??] in a raw string: an optional backslash. *)
Definition sp : Re.re := Re.Plus (Re.Cls Re.space_char).
Definition name_group : Re.re := Re.Grp (Re.Plus (Re.Cls Re.name_char)).
Definition rest_group : Re.re := Re.Grp (Re.StarLazy Re.Dot).

Definition natural_commands : list (Re.re * string) :=
  [ (Re.seq [Re.lit "list"; Re.Opt (Re.Cat (Re.lit " file") (Re.Opt (Re.Chr "s")));
             Re.Opt (Re.seq [Re.lit " in"; Re.Opt (Re.lit " current"); Re.lit " directory"])],
     "ls");
    (Re.seq [Re.lit "show"; Re.Opt (Re.lit " directory"); Re.lit " tree"], "tree");
    (Re.seq [Re.lit "change"; Re.Opt (Re.lit " directory"); Re.lit " to "; rest_group; Re.Eos],
     "cd");
    (Re.seq [Re.lit "go to "; rest_group; Re.Eos], "cd");
    (Re.seq [Re.lit "what is the current directory"; Re.OptLazy (Re.Chr "\")], "pwd");
    (Re.seq [Re.lit "show"; Re.Opt (Re.lit " the"); Re.lit " current directory"], "pwd");
    (Re.seq [Re.lit "create"; Re.Opt (Re.lit " a"); Re.Opt (Re.lit " new"); Re.lit " file";
             Re.Opt (Re.lit " named"); sp; name_group; Re.Eos], "create");
    (Re.seq [Re.lit "touch"; sp; name_group; Re.Eos], "create");
    (Re.seq [Re.lit "create"; Re.Opt (Re.lit " a"); Re.Opt (Re.lit " new");
             Re.lit " directory"; Re.Opt (Re.lit " named"); sp; name_group; Re.Eos], "mkdir");
    (Re.seq [Re.lit "make directory"; sp; name_group; Re.Eos], "mkdir");
    (Re.seq [Re.lit "mkdir"; sp; name_group; Re.Eos], "mkdir");
    (Re.seq [Re.lit "delete"; sp; name_group; Re.Eos], "rm");
    (Re.seq [Re.lit "remove"; sp; name_group; Re.Eos], "rm");
    (Re.seq [Re.lit "rm"; sp; name_group; Re.Eos], "rm") ].

(** The loop over [self.natural_commands.items()]: the call made for
    the first pattern that matches the whole query and whose key has a
    handler; [None] when the loop ends without a [return]. *)
Fixpoint natural_loop (pats : list (Re.re * string)) (query : string) (st : state)
  : option (pyresult reply * state) :=
  match pats with
  | [] => None
  | (pattern, command_key) :: pats' =>
      match Re.fullmatch true pattern query with
      | Some groups =>
          match dict_get command_key commands with
          | Some h =>
              if str_in command_key ["cd"; "create"; "mkdir"; "rm"] then
                let arg := match groups with
                           | Some g1 => PyStr.strip g1
                           | None => ""
                           end in
                Some (call1 h arg st)
              else Some (call0 h st)
          | None => natural_loop pats' query st
          end
      | None => natural_loop pats' query st
      end
  end.

(** Step 3 of [process_query]: the query goes to the model. *)
Definition ask_model (set_order : list string -> list string)
    (http : payload -> api_outcome) (query : string) (st : state)
  : pyresult reply * state :=
  let st0 := set_is_processing_api true st in
  let '((model, context), st1) := _get_context set_order query st0 in
  let r :=
    match http (Payload model context query) with
    | Responded (Some (c :: _)) => (c, false)
    | Responded _ => ("No response received from the model.", false)
    | HTTPStatusError status_code text =>
        ("API error: " +:+ status_code +:+ " - " +:+ text, true)
    | TimeoutException =>
        ("Request timed out. The Perplexity API might be slow or unreachable.", true)
    | RequestError msg =>
        ("Network error: Could not connect to Perplexity API. " +:+ msg, true)
    | OtherException msg traceback =>
        ("Unexpected error during API call: " +:+ msg +:+ "
" +:+ traceback, true)
    end in
  (* finally *)
  (Return r, set_is_processing_api false st1).

Definition process_query (set_order : list string -> list string)
    (http : payload -> api_outcome) (query : string) (st : state)
  : pyresult reply * state :=
  let query_lower := PyStr.strip (PyStr.lower query) in
  (* 1. exact commands *)
  let cmd_parts := PyStr.split1 query in
  match cmd_parts with
  | [] => (Raise IndexError, st)            (* cmd_parts[0] *)
  | part0 :: _ =>
      let exact_cmd := PyStr.lower part0 in
      match dict_get exact_cmd commands with
      | Some h =>
          if str_in exact_cmd ["cd"; "create"; "touch"; "mkdir"; "rm"; "delete"; "remove"]
          then
            let arg := match cmd_parts with
                       | _ :: part1 :: _ => PyStr.strip part1
                       | _ => ""
                       end in
            call1 h arg st
          else call0 h st
      | None =>
          (* 2. natural language commands *)
          match natural_loop natural_commands query st with
          | Some r => r
          | None =>
              (* 3. the model *)
              ask_model set_order http query st
          end
      end
  end.

End Agent.

(* ===================================================================== *)
(** * Specification-level views of the code *)
(* ===================================================================== *)

Module Spec.

Import OS Agent.

(** ** The command router as a classifier

    [process_query] classifies and dispatches in one pass.  [classify]
    is the classification alone; [process_query_classify] shows that
    [process_query] is [classify] followed by [dispatch]. *)
Inductive parsed : Type :=
| LocalCommand (h : handler) (argument : option string)
| RemoteQuery (text : string).

Fixpoint natural_match (pats : list (Re.re * string)) (query : string)
  : option parsed :=
  match pats with
  | [] => None
  | (pattern, command_key) :: pats' =>
      match Re.fullmatch true pattern query with
      | Some groups =>
          match dict_get command_key commands with
          | Some h =>
              if str_in command_key ["cd"; "create"; "mkdir"; "rm"] then
                Some (LocalCommand h
                        (Some match groups with
                              | Some g1 => PyStr.strip g1
                              | None => ""
                              end))
              else Some (LocalCommand h None)
          | None => natural_match pats' query
          end
      | None => natural_match pats' query
      end
  end.

Definition classify (query : string) : pyresult parsed :=
  match PyStr.split1 query with
  | [] => Raise IndexError
  | part0 :: more =>
      let exact_cmd := PyStr.lower part0 in
      match dict_get exact_cmd commands with
      | Some h =>
          if str_in exact_cmd ["cd"; "create"; "touch"; "mkdir"; "rm"; "delete"; "remove"]
          then Return (LocalCommand h
                         (Some match more with
                               | part1 :: _ => PyStr.strip part1
                               | [] => ""
                               end))
          else Return (LocalCommand h None)
      | None =>
          match natural_match natural_commands query with
          | Some p => Return p
          | None => Return (RemoteQuery query)
          end
      end
  end.

Definition dispatch (set_order : list string -> list string)
    (http : payload -> api_outcome) (c : pyresult parsed) (st : state)
  : pyresult reply * state :=
  match c with
  | Raise e => (Raise e, st)
  | Return (LocalCommand h None) => call0 h st
  | Return (LocalCommand h (Some arg)) => call1 h arg st
  | Return (RemoteQuery text) => ask_model set_order http text st
  end.

(** The aliases of the commands that take no argument. *)
Definition bare_aliases : list string :=
  ["ls"; "tree"; "pwd"; "help"; "exit"; "quit"].

(** The text returned when the request times out. *)
Definition timeout_text : string :=
  "Request timed out. The Perplexity API might be slow or unreachable.".

(** The request [ask_model] sends for a query. *)
Definition request_of (set_order : list string -> list string) (query : string)
    (st : state) : payload :=
  let '((model, context), _) :=
    _get_context set_order query (set_is_processing_api true st) in
  Payload model context query.

(** ** Navigation *)

(** [_handle_cd] returns the empty text on success only. *)
Definition cd_succeeded (r : reply) : bool := negb (PyStr.truthy (fst r)).

(** The checks [_handle_cd] makes before it changes directory. *)
Definition cd_checks (st : state) (path : string) : bool :=
  PyStr.truthy path
  && path_exists (fs st) (cwd st) (cd_target st path)
  && path_isdir (fs st) (cwd st) (cd_target st path)
  && access (fs st) (cwd st) (cd_target st path) true true.

(** ** Context assembly *)

(** What is known of [list(set(l))]: the elements of [l], each once. *)
Definition set_order_ok (set_order : list string -> list string) : Prop :=
  forall l, NoDup (set_order l) /\ forall x, x ∈ set_order l <-> x ∈ l.

(** The distinct elements of a list in first-seen order. *)
Fixpoint first_seen (l : list string) : list string :=
  match l with
  | [] => []
  | x :: l' => x :: filter (fun y => negb (String.eqb x y)) (first_seen l')
  end.


(** ** The tree listing

    [_build_tree] returns lines.  [tree_shape] is the tree the lines
    draw: one [TItem] for each entry line, with the items drawn below
    it, and [TError] for an error marker line.  [render_forest] draws
    it; [build_tree_render] shows that the lines of [_build_tree] are
    the drawing of [tree_shape]. *)
Inductive tnode : Type :=
| TItem (name : string) (isdir : bool) (below : list tnode)
| TError.

Fixpoint tree_shape (fuel : nat) (root : fsmap) (wd : list string)
    (dir_path : string) (level : nat) : list tnode :=
  match fuel with
  | O => []
  | S fuel' =>
      match listdir root wd dir_path with
      | Err _ => [TError]
      | Ok l =>
          map (fun item =>
                 let item_path := PosixPath.join dir_path item in
                 let is_dir := path_isdir root wd item_path in
                 TItem item is_dir
                   (if is_dir && (level <? 3)
                    then tree_shape fuel' root wd item_path (level + 1)
                    else []))
            (visible_items l)
      end
  end.

Fixpoint render_node (prefix : string) (last : bool) (t : tnode) : list string :=
  match t with
  | TError => [prefix +:+ TREE_LAST +:+ "[Error reading directory]"]
  | TItem name isdir below =>
      (prefix +:+ (if last then TREE_LAST else TREE_TEE) +:+ name
       +:+ (if isdir then "/" else ""))
      :: (fix go (l : list tnode) : list string :=
            match l with
            | [] => []
            | c :: l' =>
                render_node (prefix +:+ (if last then TREE_SPACE else TREE_BRANCH))
                  (match l' with [] => true | _ => false end) c
                ++ go l'
            end) below
  end.

Fixpoint render_forest (prefix : string) (f : list tnode) : list string :=
  match f with
  | [] => []
  | c :: f' =>
      render_node prefix (match f' with [] => true | _ => false end) c
      ++ render_forest prefix f'
  end.

(** The names of the items of a forest, in order. *)
Definition item_names (f : list tnode) : list string :=
  omap (fun t => match t with TItem n _ _ => Some n | TError => None end) f.

(** Order of strings by code points. *)
Definition str_le (a b : string) : Prop := String.leb a b = true.

(** A forest drawn for the directory [dir_path] with at most [d] levels
    of items: either the single error marker of a directory that cannot
    be listed, or one item for each visible name of the listing, in
    sorted order, none hidden; below a directory the forest of that
    directory with one level less, below anything else nothing. *)
Fixpoint forest_ok (root : fsmap) (wd : list string) (d : nat)
    (dir_path : string) (f : list tnode) : Prop :=
  match d with
  | O => f = []
  | S d' =>
      (exists e, listdir root wd dir_path = Err e /\ f = [TError])
      \/ (exists l,
            listdir root wd dir_path = Ok l
            /\ item_names f = visible_items l
            /\ length f = length (item_names f)
            /\ StronglySorted str_le (item_names f)
            /\ Forall (fun n => hidden n = false /\ n ∈ l) (item_names f)
            /\ Forall (fun t =>
                         match t with
                         | TItem n isdir below =>
                             isdir = path_isdir root wd (PosixPath.join dir_path n)
                             /\ if isdir
                                then forest_ok root wd d' (PosixPath.join dir_path n) below
                                else below = []
                         | TError => False
                         end) f)
  end.

(** The number of levels of items of a forest. *)
Fixpoint node_depth (t : tnode) : nat :=
  match t with
  | TError => 1
  | TItem _ _ below => S (fold_right Nat.max 0 (map node_depth below))
  end.
Definition forest_depth (f : list tnode) : nat :=
  fold_right Nat.max 0 (map node_depth f).

(** ** Paths *)

(** No path separator in a string. *)
Definition sep_free (s : string) : bool := negb (PyStr.contains "/" s).


(** A component of a normalised path. *)
Definition good_comp (c : string) : bool :=
  sep_free c && proper_name c.

(** A normalised absolute path: one or two slashes, then components
    that are neither empty nor [.] nor [..], joined by slashes. *)
Definition normal_abs (p : string) : Prop :=
  exists n comps,
    (n = 1 \/ n = 2)
    /\ Forall (fun c => good_comp c = true) comps
    /\ p = PosixPath.slashes n +:+ PyStr.join "/" comps.

(** The same, decided by [normpath]. *)
Definition abs_normal (p : string) : bool :=
  PosixPath.isabs p && String.eqb (PosixPath.normpath p) p.

(** A directory [navigate] accepts. *)
Definition accessible_dir (st : state) (p : string) : bool :=
  path_exists (fs st) (cwd st) p
  && path_isdir (fs st) (cwd st) p
  && access (fs st) (cwd st) p true true.

(** The arguments [navigate] takes for the home directory. *)
Definition home_alias (c : string) : bool :=
  String.eqb c "~" || String.eqb c "$HOME".

(** ** The snapshot *)

(** The key of the entry recorded when the directory cannot be listed. *)
Definition sentinel : string := ".error".

(** [k] names an entry of the directory [currentPath] resolves to. *)
Definition is_child (st : state) (k : string) : Prop :=
  exists p,
    lresolve (fs st) (cwd st) (current_dir st) = inr p
    /\ is_Some (fs st !! (p ++ [k])).

(** Every key with the property [P] is the sentinel or an immediate
    child. *)
Definition entries_in (P : string -> Prop) (st : state) : Prop :=
  forall k, is_Some (_file_cache st !! k) -> P k -> k = sentinel \/ is_child st k.

(** Every key is the sentinel or an immediate child. *)
Definition keys_are_children (st : state) : Prop :=
  entries_in (fun _ => True) st.


(** [currentPath] is a normalised absolute path that resolves, and so
    is the home directory. *)
Definition anchored (st : state) : Prop :=
  abs_normal (current_dir st) = true
  /\ (exists p, lresolve (fs st) (cwd st) (current_dir st) = inr p)
  /\ abs_normal (PosixPath.expanduser_tilde (home st)) = true.








(** ** Name-safety rejections *)
Definition name_rejection_prefix : string :=
  "Invalid characters or path components in ".

(** A reply of the usage-error class of the name-safety guard. *)
Definition is_name_rejection (r : reply) : bool :=
  PyStr.startswith name_rejection_prefix (fst r) && snd r.

End Spec.

(* ===================================================================== *)
(** * Example filesystems and states *)
(* ===================================================================== *)

Module Examples.

Import OS Agent.

Definition rwx : inode := Dir true true true.

(** A home directory with a project in it. *)
Definition fs_home : fsmap := list_to_map
  [([], rwx); (["home"], rwx); (["home"; "u"], rwx);
   (["home"; "u"; "proj"], rwx);
   (["home"; "u"; "proj"; "a.py"], File (Some "print(1)"));
   (["home"; "u"; "proj"; "b.py"], File (Some "print(2)"));
   (["home"; "u"; "proj"; "c.py"], File (Some "print(3)"));
   (["home"; "u"; "proj"; ".git"], rwx);
   (["home"; "u"; "proj"; "sub"], rwx);
   (["home"; "u"; "proj"; "sub"; "b.txt"], File (Some "hello"));
   (["tmp"], rwx);
   (["tmp"; "~"], rwx)].

(** A chain of directories, four deep below [/r]. *)
Definition fs_deep : fsmap := list_to_map
  [([], rwx); (["r"], rwx); (["r"; "a"], rwx); (["r"; "a"; "b"], rwx);
   (["r"; "a"; "b"; "c"], rwx);
   (["r"; "a"; "b"; "c"; "d"], rwx);
   (["r"; "a"; "b"; "c"; "d"; "e"], File (Some ""))].

Definition st_deep : state := init fs_deep "/r" ["r"] (Some "/r").

Definition st_proj : state :=
  init fs_home "/home/u/proj" ["home"; "u"; "proj"] (Some "/home/u").

(** The session is in a directory named [~]. *)
Definition st_tilde : state :=
  init fs_home "/tmp/~" ["tmp"; "~"] (Some "/home/u").

(** A directory that can be entered and written to, but not listed. *)
Definition fs_dark : fsmap := list_to_map
  [([], rwx); (["r"], rwx); (["r"; "x"], Dir false true true)].

Definition st_dark : state := init fs_dark "/r/x" ["r"; "x"] (Some "/r").

(** The project directory is removed by another process after the checks
    of [_handle_cd]: every [os.chdir] raises. *)
Definition chdir_gone (p : string) : res (list string) :=
  Err (OSError ENOENT p).

(** Only [/home/u/proj] can still be entered. *)
Definition chdir_proj_only (p : string) : res (list string) :=
  if String.eqb p "/home/u/proj" then Ok ["home"; "u"; "proj"]
  else Err (OSError EACCES p).

(** The request always times out. *)
Definition http_timeout : payload -> api_outcome := fun _ => TimeoutException.

(** Two set orders: first-seen order, and its reverse. *)
Definition first_seen : list string -> list string := Spec.first_seen.

End Examples.
(* ===================================================================== *)
(** * The interaction loop ([cli.py], [ui/terminal.py]) *)
(* ===================================================================== *)

Module Terminal.

Import OS Agent.

(** The two objects of [cli.main]: [api], and the field of [ui] that the
    loop reads and writes. *)
Record app : Type := App {
  api : state;
  ui_current_dir : string
}.

(** [main], once [api] and [ui] are built: both take their current
    directory from [os.getcwd()]. *)
Definition start_app (root : fsmap) (getcwd : string) (cwd0 : list string)
    (home0 : option string) : app :=
  App (init root getcwd cwd0 home0) getcwd.

(** [handle_query] of [cli.main]: the query is processed, then
    [ui.update_current_dir(api.current_dir)]; when [process_query]
    raises, the update is not reached. *)
Definition handle_query (set_order : list string -> list string)
    (http : payload -> api_outcome) (query : string) (a : app)
  : pyresult reply * app :=
  let '(r, st') := process_query set_order http query (api a) in
  match r with
  | Return rep => (Return rep, App st' (current_dir st'))
  | Raise e => (Raise e, App st' (ui_current_dir a))
  end.

(** What [input()] comes to at the prompt. *)
Inductive input_event : Type :=
| Line (text : string)
| EOF                      (* EOFError *)
| Interrupt.               (* KeyboardInterrupt *)

(** The calls the loop makes to show something. *)
Inductive ui_call : Type :=
| InputCancelled                                   (* get_input, on Ctrl+C *)
| ShowSuccess (message : string)
| ShowOutput (output : string) (is_command_result : bool) (timed : bool)
| ShowError (e : exn).     (* "Unexpected error in main loop: ..." *)

(** [get_input] *)
Definition get_input (ev : input_event) : string * list ui_call :=
  match ev with
  | Line text => (text, [])
  | EOF => ("exit", [])
  | Interrupt => ("", [InputCancelled])
  end.

Definition local_prefixes : list string :=
  ["ls"; "tree"; "cd"; "pwd"; "create"; "touch"; "mkdir"; "rm"; "delete";
   "remove"; "help"].

Inductive control : Type := Continue | Break.

(** One turn of the [while True] of [interactive_prompt] on the line
    [command], when the awaited call is not interrupted.  A duration is
    passed to [show_output] on the timed branch when the reply is not a
    command result (the two clock readings are not zero). *)
Definition turn (set_order : list string -> list string)
    (http : payload -> api_outcome) (command : string) (a : app)
  : control * list ui_call * app :=
  if negb (PyStr.truthy command) then (Continue, [], a)
  else if str_in (PyStr.strip (PyStr.lower command)) ["exit"; "quit"] then
    (Break, [ShowSuccess "Goodbye!"], a)
  else
    match PyStr.split1 (PyStr.strip (PyStr.lower command)) with
    | [] => (Continue, [ShowError IndexError], a)     (* [...][0]; except Exception *)
    | cmd_check :: _ =>
        let is_likely_local := str_in cmd_check local_prefixes in
        match handle_query set_order http command a with
        | (Return (response, is_command), a') =>
            if is_likely_local then
              (Continue, [ShowOutput response true false], a')
            else
              (Continue, [ShowOutput response is_command (negb is_command)], a')
        | (Raise e, a') => (Continue, [ShowError e], a')
        end
    end.

(** The loop over the successive inputs: what is shown, and the objects
    when the loop is left or the inputs are used up. *)
Fixpoint interactive_prompt (set_order : list string -> list string)
    (http : payload -> api_outcome) (inputs : list input_event) (a : app)
  : list ui_call * app :=
  match inputs with
  | [] => ([], a)
  | ev :: inputs' =>
      let '(command, shown0) := get_input ev in
      match turn set_order http command a with
      | (Break, shown, a') => (shown0 ++ shown, a')
      | (Continue, shown, a') =>
          let '(shown', a'') := interactive_prompt set_order http inputs' a' in
          (shown0 ++ shown ++ shown', a'')
      end
  end.

(** [ui.current_dir] is [api.current_dir]. *)
Definition in_step (a : app) : Prop := ui_current_dir a = current_dir (api a).

End Terminal.
(* ===================================================================== *)
(** * Properties of the command router *)
(* ===================================================================== *)

Module RouterFacts.

Import OS Agent Spec.

Lemma natural_loop_match pats query st :
  natural_loop pats query st =
  match natural_match pats query with
  | Some (LocalCommand h None) => Some (call0 h st)
  | Some (LocalCommand h (Some arg)) => Some (call1 h arg st)
  | Some (RemoteQuery _) => None
  | None => None
  end.
Proof.
  induction pats as [|[pattern key] pats IH];
    cbn [natural_loop natural_match]; [reflexivity|].
  destruct (Re.fullmatch true pattern query) as [groups|]; [|exact IH].
  destruct (dict_get key commands) as [h|]; [|exact IH].
  destruct (str_in key ["cd"; "create"; "mkdir"; "rm"]); reflexivity.
Qed.

Lemma natural_match_local pats query p :
  natural_match pats query = Some p -> exists h a, p = LocalCommand h a.
Proof.
  induction pats as [|[pattern key] pats IH];
    cbn [natural_match]; [discriminate|].
  destruct (Re.fullmatch true pattern query); [|exact IH].
  destruct (dict_get key commands) as [h|]; [|exact IH].
  destruct (str_in key _); intros [= <-]; eauto.
Qed.

(** [process_query] is the classifier followed by the dispatch. *)
Lemma process_query_classify set_order http query st :
  process_query set_order http query st
  = dispatch set_order http (classify query) st.
Proof.
  unfold process_query, classify.
  destruct (PyStr.split1 query) as [|part0 more]; [reflexivity|].
  destruct (dict_get (PyStr.lower part0) commands) as [h|].
  - destruct (str_in (PyStr.lower part0) _); [|reflexivity].
    destruct more; reflexivity.
  - rewrite natural_loop_match.
    destruct (natural_match natural_commands query) as [p|] eqn:E; [|reflexivity].
    destruct (natural_match_local _ _ _ E) as (h & a & ->).
    destruct a; reflexivity.
Qed.

(** A remote query carries the raw input. *)
Lemma classify_remote_raw query text :
  classify query = Return (RemoteQuery text) -> text = query.
Proof.
  unfold classify.
  destruct (PyStr.split1 query); [discriminate|].
  destruct (dict_get _ commands).
  - destruct (str_in _ _); discriminate.
  - destruct (natural_match natural_commands query) as [p|] eqn:E.
    + destruct (natural_match_local _ _ _ E) as (h & a & ->). discriminate.
    + intros [= <-]. reflexivity.
Qed.

(** An input with a first token is always classified; when no exact
    command and no pattern matches, it is a remote query. *)
Lemma classify_fallback query part0 more :
  PyStr.split1 query = part0 :: more ->
  dict_get (PyStr.lower part0) commands = None ->
  natural_match natural_commands query = None ->
  classify query = Return (RemoteQuery query).
Proof. intros H1 H2 H3. unfold classify. rewrite H1, H2, H3. reflexivity. Qed.

Lemma classify_returns query part0 more :
  PyStr.split1 query = part0 :: more -> exists p, classify query = Return p.
Proof.
  intros H. unfold classify. rewrite H.
  destruct (dict_get _ commands).
  - destruct (str_in _ _); eauto.
  - destruct (natural_match natural_commands query); eauto.
Qed.

(** The three inputs of the router scenario. *)
Example classify_ls : classify "ls" = Return (LocalCommand H_ls None).
Proof. vm_compute. reflexivity. Qed.

Example classify_list_files : classify "list files" = Return (LocalCommand H_ls None).
Proof. vm_compute. reflexivity. Qed.

Example classify_quantum :
  classify "please tell me about quantum computing"
  = Return (RemoteQuery "please tell me about quantum computing").
Proof. vm_compute. reflexivity. Qed.

(** An input without a token has no [cmd_parts[0]]. *)
Lemma split1_blank s : PyStr.lstrip s = "" -> PyStr.split1 s = [].
Proof. intros H. unfold PyStr.split1. rewrite H. reflexivity. Qed.

Lemma process_query_blank set_order http query st :
  PyStr.lstrip query = "" ->
  process_query set_order http query st = (Raise IndexError, st).
Proof. intros H. unfold process_query. rewrite (split1_blank _ H). reflexivity. Qed.

(** C7 (the code departs from the claim): on an input made of white
    space only, and on the empty input, [process_query] raises
    [IndexError] at [cmd_parts[0]]: the input is not classified, and no
    remote query is made of it. *)
Theorem process_query_blank_raises set_order http st :
  process_query set_order http " " st = (Raise IndexError, st)
  /\ process_query set_order http "" st = (Raise IndexError, st)
  /\ classify " " = Raise IndexError.
Proof.
  split; [|split].
  - apply process_query_blank. reflexivity.
  - apply process_query_blank. reflexivity.
  - reflexivity.
Qed.

Lemma ask_model_timeout set_order http query st :
  http (request_of set_order query st) = TimeoutException ->
  ask_model set_order http query st
  = (Return (timeout_text, true),
     set_is_processing_api false
       (snd (_get_context set_order query (set_is_processing_api true st)))).
Proof.
  unfold ask_model, request_of.
  destruct (_get_context set_order query (set_is_processing_api true st))
    as [[model context] st1].
  intros ->. reflexivity.
Qed.

(** C1 (amended): when the request of a remote query times out,
    [process_query] returns the time-out text and raises nothing; the
    second component of the pair is [True], as for a local message, and
    the [finally] clause has reset [is_processing_api]. *)
Theorem process_query_timeout set_order http query st :
  classify query = Return (RemoteQuery query) ->
  http (request_of set_order query st) = TimeoutException ->
  fst (process_query set_order http query st) = Return (timeout_text, true)
  /\ is_processing_api (snd (process_query set_order http query st)) = false.
Proof.
  intros Hc Ht. rewrite process_query_classify, Hc. simpl.
  rewrite (ask_model_timeout _ _ _ _ Ht). split; reflexivity.
Qed.

Lemma process_query_timeout_witness :
  fst (process_query Examples.first_seen Examples.http_timeout
         "please tell me about quantum computing" Examples.st_proj)
  = Return (timeout_text, true)
  /\ is_processing_api
       (snd (process_query Examples.first_seen Examples.http_timeout
               "please tell me about quantum computing" Examples.st_proj))
     = false.
Proof.
  apply process_query_timeout.
  - vm_compute. reflexivity.
  - reflexivity.
Defined.

(** C1 as stated fails: for a remote query that times out, the flag of
    the returned pair is [True]. *)
Lemma timeout_reply_flag_counterexample :
  exists text,
    fst (process_query Examples.first_seen Examples.http_timeout
           "please tell me about quantum computing" Examples.st_proj)
    = Return (text, true).
Proof. eexists. vm_compute. reflexivity. Qed.

(** Every failure branch of the remote path sets the flag; only an
    answer of the model, or its absence in a 2xx body, clears it. *)
Lemma ask_model_flag set_order http query st :
  match http (request_of set_order query st) with
  | Responded _ => exists text, fst (ask_model set_order http query st) = Return (text, false)
  | _ => exists text, fst (ask_model set_order http query st) = Return (text, true)
  end.
Proof.
  unfold ask_model, request_of.
  destruct (_get_context set_order query (set_is_processing_api true st))
    as [[model context] st1].
  destruct (http _) as [[[|c l]|] | | | |]; simpl; eauto.
Qed.

Lemma bare_alias_self a :
  In a bare_aliases ->
  PyStr.split1 a = [a] /\ PyStr.lower a = a
  /\ exists h, dict_get a commands = Some h
     /\ str_in a ["cd"; "create"; "touch"; "mkdir"; "rm"; "delete"; "remove"] = false.
Proof.
  unfold bare_aliases. simpl.
  intros [<-|[<-|[<-|[<-|[<-|[<-|[]]]]]]];
    (split; [reflexivity|split; [reflexivity|eexists; split; reflexivity]]).
Qed.

(** C10: when the first token of the line is, in lower case, one of
    [ls], [tree], [pwd], [help], [exit], [quit], the rest of the line is
    ignored: the reply and the state are those of the bare command. *)
Theorem bare_command_ignores_rest set_order http query st tok rest :
  PyStr.split1 query = tok :: rest ->
  In (PyStr.lower tok) bare_aliases ->
  process_query set_order http query st
  = process_query set_order http (PyStr.lower tok) st.
Proof.
  intros Hs Hin.
  destruct (bare_alias_self _ Hin) as (Hs' & Hl & h & Hg & Hn).
  unfold process_query. rewrite Hs, Hs', Hl, Hg, Hn. reflexivity.
Qed.

Lemma bare_command_ignores_rest_witness :
  process_query Examples.first_seen Examples.http_timeout "ls /tmp" Examples.st_proj
  = process_query Examples.first_seen Examples.http_timeout "ls" Examples.st_proj.
Proof.
  apply (bare_command_ignores_rest _ _ "ls /tmp" _ "ls" ["/tmp"]).
  - reflexivity.
  - simpl. auto.
Defined.

End RouterFacts.

(* ===================================================================== *)
(** * Properties of the handlers that need no filesystem reasoning *)
(* ===================================================================== *)

Module HandlerFacts.

Import OS Agent Spec.

(** The name-safety guard, for any rejected name. *)
Lemma create_file_rejects name st :
  PyStr.truthy name = true -> unsafe_name name = true ->
  _handle_create_file name st
  = ((name_rejection_prefix +:+ "filename: " +:+ name, true), st).
Proof. intros H1 H2. unfold _handle_create_file. rewrite H1, H2. reflexivity. Qed.

Lemma mkdir_rejects name st :
  PyStr.truthy name = true -> unsafe_name name = true ->
  _handle_mkdir name st
  = ((name_rejection_prefix +:+ "dirname: " +:+ name, true), st).
Proof. intros H1 H2. unfold _handle_mkdir. rewrite H1, H2. reflexivity. Qed.

Lemma rm_rejects name st :
  PyStr.truthy name = true -> unsafe_name name = true ->
  _handle_rm name st
  = ((name_rejection_prefix +:+ "name: " +:+ name
      +:+ ". Cannot delete relative paths.", true), st).
Proof.
  intros H1 H2. unfold _handle_rm. rewrite H1. unfold unsafe_name in H2.
  destruct (PyStr.contains ".." name); simpl in *; [reflexivity|].
  destruct (PyStr.contains "/" name); simpl in *.
  - rewrite orb_true_r. reflexivity.
  - rewrite H2, orb_true_r. reflexivity.
Qed.

(** C5: [createFile("../x")], [createFile("a/b")] and [remove("..")]
    are each answered by a message of the name-safety guard, and leave
    the filesystem and the snapshot (the whole state) as they were. *)
Theorem name_safety_rejections st :
  (snd (_handle_create_file "../x" st) = st
   /\ snd (_handle_create_file "a/b" st) = st
   /\ snd (_handle_rm ".." st) = st)
  /\ (is_name_rejection (fst (_handle_create_file "../x" st)) = true
      /\ is_name_rejection (fst (_handle_create_file "a/b" st)) = true
      /\ is_name_rejection (fst (_handle_rm ".." st)) = true).
Proof. repeat split. Qed.

(** A directory that passes the three checks of [_handle_cd] can be
    entered. *)
Lemma chdir_after_checks root wd path :
  path_isdir root wd path = true ->
  access root wd path true true = true ->
  exists p, chdir root wd path = Ok p.
Proof.
  unfold path_isdir, access, chdir.
  destruct (stat root wd path) as [e|[p [c|r w x| |]]]; try discriminate.
  simpl. intros _ H. apply andb_true_iff in H as [_ ->]. eauto.
Qed.

(** [_handle_cd] when the checks pass, and when one fails. *)
Lemma handle_cd_success path st :
  cd_checks st path = true ->
  exists wd,
    chdir (fs st) (cwd st) (cd_target st path) = Ok wd
    /\ _handle_cd path st
       = (("", true),
          _update_file_cache (set_cwd wd (set_current_dir (cd_target st path) st))).
Proof.
  unfold cd_checks. intros H.
  apply andb_true_iff in H as [H E4]. apply andb_true_iff in H as [H E3].
  apply andb_true_iff in H as [E1 E2].
  destruct (chdir_after_checks _ _ _ E3 E4) as [p Hp]. exists p.
  split; [exact Hp|]. unfold _handle_cd. rewrite E1, E2, E3, E4. simpl.
  rewrite Hp. reflexivity.
Qed.

Lemma handle_cd_failure path st :
  cd_checks st path = false ->
  snd (_handle_cd path st) = st /\ cd_succeeded (fst (_handle_cd path st)) = false.
Proof.
  unfold cd_checks, _handle_cd, cd_succeeded.
  destruct (PyStr.truthy path); [|simpl; auto].
  destruct (path_exists _ _ _); [|simpl; auto].
  destruct (path_isdir _ _ _); [|simpl; auto].
  destruct (access _ _ _ _ _); [discriminate|simpl; auto].
Qed.

(** A refresh changes the entries only. *)
Lemma update_file_cache_fields st :
  fs (_update_file_cache st) = fs st
  /\ cwd (_update_file_cache st) = cwd st
  /\ home (_update_file_cache st) = home st
  /\ current_dir (_update_file_cache st) = current_dir st.
Proof. unfold _update_file_cache. destruct (listdir _ _ _); repeat split. Qed.

Lemma append_truthy a b : PyStr.truthy a = true -> PyStr.truthy (a +:+ b) = true.
Proof. destruct a; [discriminate|reflexivity]. Qed.

(** When no other process changes the filesystem between the checks and
    [os.chdir], [_handle_cd] succeeds exactly when the argument is not
    empty and the resolved path exists, is a directory and is readable
    and searchable; a failed call leaves the state as it was. *)
Lemma handle_cd_quiet path st :
  let r := fst (_handle_cd path st) in
  let st' := snd (_handle_cd path st) in
  cd_succeeded r = cd_checks st path
  /\ if cd_succeeded r
     then current_dir st' = cd_target st path
          /\ exists wd,
               chdir (fs st) (cwd st) (cd_target st path) = Ok wd
               /\ st' = _update_file_cache
                          (set_cwd wd (set_current_dir (cd_target st path) st))
     else st' = st /\ current_dir st' = current_dir st.
Proof.
  cbv zeta. destruct (cd_checks st path) eqn:E.
  - destruct (handle_cd_success _ _ E) as (wd & Hwd & ->). cbn [fst snd].
    split; [reflexivity|]. cbn [cd_succeeded fst PyStr.truthy negb]. split.
    + apply update_file_cache_fields.
    + exists wd. split; [exact Hwd|reflexivity].
  - destruct (handle_cd_failure _ _ E) as [-> ->]. auto.
Qed.

(** [_handle_cd] is [_handle_cd_env] at the [chdir] of the filesystem the
    checks saw. *)
Lemma handle_cd_env_chdir path st :
  _handle_cd path st = _handle_cd_env (chdir (fs st) (cwd st)) path st.
Proof. reflexivity. Qed.

Lemma set_current_dir_same st d :
  String.eqb d (current_dir st) = true -> set_current_dir d st = st.
Proof.
  intros H. apply String.eqb_eq in H. subst d. destruct st. reflexivity.
Qed.

Lemma error_reply_truthy e :
  PyStr.truthy ("Error changing directory: " +:+ str_oserror e) = true.
Proof. reflexivity. Qed.

(** C4 (amended): [navigate], whatever [os.chdir] comes to.  If one of
    the checks fails (empty argument, not found, not a directory,
    permission denied) the call fails and the state, [currentPath]
    included, is the one before the call.  If the checks pass and
    [os.chdir] succeeds, [currentPath] is the resolved path and the
    entries are those of a full refresh at that path.  If the checks
    pass and [os.chdir] raises, the call fails with the error's text and
    the entries are kept; [currentPath] is rolled back when the resolved
    path is the current one or [os.chdir] back to the prior directory
    succeeds, and otherwise stays at the resolved path: the change is
    not rolled back. *)
Theorem handle_cd_env_outcome os_chdir path st :
  let r := fst (_handle_cd_env os_chdir path st) in
  let st' := snd (_handle_cd_env os_chdir path st) in
  let target := cd_target st path in
  if cd_checks st path then
    match os_chdir target with
    | Ok wd =>
        r = ("", true)
        /\ current_dir st' = target
        /\ st' = _update_file_cache (set_cwd wd (set_current_dir target st))
    | Err e =>
        r = ("Error changing directory: " +:+ str_oserror e, true)
        /\ cd_succeeded r = false
        /\ _file_cache st' = _file_cache st
        /\ if String.eqb target (current_dir st) then st' = st
           else match os_chdir (current_dir st) with
                | Ok wd' =>
                    st' = set_cwd wd' st
                    /\ current_dir st' = current_dir st
                | Err _ =>
                    st' = set_current_dir target st
                    /\ current_dir st' = target
                    /\ current_dir st' <> current_dir st
                end
    end
  else cd_succeeded r = false /\ st' = st /\ current_dir st' = current_dir st.
Proof.
  cbv zeta. unfold cd_checks, _handle_cd_env.
  destruct (PyStr.truthy path); [|cbn; auto].
  destruct (path_exists _ _ _); [|cbn; auto].
  destruct (path_isdir _ _ _); [|cbn; auto].
  destruct (access _ _ _ _ _); [|cbn; auto].
  cbn [andb negb current_dir set_current_dir].
  destruct (os_chdir (cd_target st path)) as [wd|e].
  - cbn [fst snd]. split; [reflexivity|]. split; [|reflexivity].
    apply update_file_cache_fields.
  - cbn [fst snd]. split; [reflexivity|].
    split; [unfold cd_succeeded; cbn [fst]; rewrite error_reply_truthy; reflexivity|].
    destruct (String.eqb (cd_target st path) (current_dir st)) eqn:E;
      cbn [negb].
    + split; [reflexivity|].
      change (set_current_dir (cd_target st path) st = st).
      apply set_current_dir_same, E.
    + destruct (os_chdir (current_dir st)) as [wd'|e'].
      * repeat split.
      * repeat split. cbn [current_dir]. intros H.
        apply String.eqb_neq in E. exact (E H).
Qed.

Lemma handle_cd_env_outcome_witness :
  let os_chdir := Examples.chdir_proj_only in
  let st := Examples.st_proj in
  let r := fst (_handle_cd_env os_chdir "sub" st) in
  let st' := snd (_handle_cd_env os_chdir "sub" st) in
  let target := cd_target st "sub" in
  if cd_checks st "sub" then
    match os_chdir target with
    | Ok wd =>
        r = ("", true)
        /\ current_dir st' = target
        /\ st' = _update_file_cache (set_cwd wd (set_current_dir target st))
    | Err e =>
        r = ("Error changing directory: " +:+ str_oserror e, true)
        /\ cd_succeeded r = false
        /\ _file_cache st' = _file_cache st
        /\ if String.eqb target (current_dir st) then st' = st
           else match os_chdir (current_dir st) with
                | Ok wd' =>
                    st' = set_cwd wd' st
                    /\ current_dir st' = current_dir st
                | Err _ =>
                    st' = set_current_dir target st
                    /\ current_dir st' = target
                    /\ current_dir st' <> current_dir st
                end
    end
  else cd_succeeded r = false /\ st' = st /\ current_dir st' = current_dir st.
Proof.
  exact (handle_cd_env_outcome Examples.chdir_proj_only "sub" Examples.st_proj).
Defined.

(** C4, counterexample: the session is in [/home/u/proj] and [cd sub]
    passes the checks; the project directory is then removed, so
    [os.chdir] raises for [sub] and for the way back.  The call fails,
    and [currentPath] is [/home/u/proj/sub], not the path before the
    call. *)
Lemma handle_cd_not_rolled_back :
  let st := Examples.st_proj in
  let r := fst (_handle_cd_env Examples.chdir_gone "sub" st) in
  let st' := snd (_handle_cd_env Examples.chdir_gone "sub" st) in
  cd_checks st "sub" = true
  /\ r = ("Error changing directory: [Errno 2] No such file or directory: '/home/u/proj/sub'", true)
  /\ cd_succeeded r = false
  /\ current_dir st = "/home/u/proj"
  /\ current_dir st' = "/home/u/proj/sub"
  /\ current_dir st' <> current_dir st.
Proof.
  cbv zeta. repeat split; try (vm_compute; reflexivity).
  vm_compute. discriminate.
Qed.

End HandlerFacts.

(* ===================================================================== *)
(** * File references in a query *)
(* ===================================================================== *)

Module ContextFacts.

Import OS Agent Spec.

Lemma first_seen_elem l x : x ∈ first_seen l <-> x ∈ l.
Proof.
  induction l as [|y l IH]; simpl; [reflexivity|].
  rewrite !elem_of_cons, list_elem_of_filter, IH.
  destruct (String.eqb_spec y x) as [->|Hne]; simpl.
  - split; auto.
  - split; [intros [->|[_ H]]; auto|].
    intros [->|H]; [auto|]. right. split; [exact I|exact H].
Qed.

Lemma first_seen_NoDup l : NoDup (first_seen l).
Proof.
  induction l as [|y l IH]; simpl; constructor.
  - rewrite list_elem_of_filter. intros [H _].
    rewrite String.eqb_refl in H. exact H.
  - apply NoDup_filter, IH.
Qed.

Lemma first_seen_ok : set_order_ok first_seen.
Proof. intros l. split; [apply first_seen_NoDup|apply first_seen_elem]. Qed.












End ContextFacts.

(* ===================================================================== *)
(** * Sorting *)
(* ===================================================================== *)

Module SortFacts.

Import Spec.

Lemma ascii_compare_lt a b :
  Ascii.compare a b = Lt <-> (N_of_ascii a < N_of_ascii b)%N.
Proof. unfold Ascii.compare. apply N.compare_lt_iff. Qed.

Lemma ascii_compare_eq a b :
  Ascii.compare a b = Eq <-> N_of_ascii a = N_of_ascii b.
Proof. unfold Ascii.compare. apply N.compare_eq_iff. Qed.

Lemma ascii_compare_gt a b :
  Ascii.compare a b = Gt <-> (N_of_ascii b < N_of_ascii a)%N.
Proof. unfold Ascii.compare. apply N.compare_gt_iff. Qed.

Lemma str_le_refl a : str_le a a.
Proof. destruct (String.leb_total a a); assumption. Qed.

Lemma str_le_trans a b c : str_le a b -> str_le b c -> str_le a c.
Proof.
  unfold str_le, String.leb. revert b c.
  induction a as [|x a IH]; intros [|y b] [|z c]; simpl; try congruence.
  destruct (Ascii.compare x y) eqn:Exy; try discriminate;
    destruct (Ascii.compare y z) eqn:Eyz; try discriminate;
    destruct (Ascii.compare x z) eqn:Exz; try congruence;
    try (intros H1 H2; exact (IH _ _ H1 H2)); intros _ _;
    repeat match goal with
    | H : Ascii.compare ?u ?v = Eq |- _ => apply (proj1 (ascii_compare_eq u v)) in H
    | H : Ascii.compare ?u ?v = Lt |- _ => apply (proj1 (ascii_compare_lt u v)) in H
    | H : Ascii.compare ?u ?v = Gt |- _ => apply (proj1 (ascii_compare_gt u v)) in H
    end; exfalso; lia.
Qed.

Lemma insert_sorted_perm x l : Permutation (PyStr.insert_sorted x l) (x :: l).
Proof.
  induction l as [|y l IH]; simpl; [reflexivity|].
  destruct (String.leb x y); [reflexivity|].
  rewrite IH. apply perm_swap.
Qed.

Lemma sorted_perm l : Permutation (PyStr.sorted l) l.
Proof.
  induction l as [|x l IH]; simpl; [reflexivity|].
  rewrite insert_sorted_perm, IH. reflexivity.
Qed.

Lemma insert_sorted_sorted x l :
  StronglySorted str_le l -> StronglySorted str_le (PyStr.insert_sorted x l).
Proof.
  induction 1 as [|y l Hs IH Hall]; simpl.
  - repeat constructor.
  - destruct (String.leb x y) eqn:E.
    + constructor; [constructor; assumption|].
      constructor; [exact E|].
      eapply List.Forall_impl; [|exact Hall]. intros z Hz.
      exact (str_le_trans _ _ _ E Hz).
    + constructor; [exact IH|].
      eapply Permutation_Forall; [symmetry; apply insert_sorted_perm|].
      constructor; [|exact Hall].
      destruct (String.leb_total x y) as [H|H]; [congruence|exact H].
Qed.

(** [sorted] sorts, and keeps the elements. *)
Lemma sorted_sorted l : StronglySorted str_le (PyStr.sorted l).
Proof.
  induction l as [|x l IH]; simpl; [constructor|].
  apply insert_sorted_sorted, IH.
Qed.

Lemma sorted_elem l x : x ∈ PyStr.sorted l <-> x ∈ l.
Proof. rewrite (sorted_perm l). reflexivity. Qed.

End SortFacts.

(* ===================================================================== *)
(** * The tree listing *)
(* ===================================================================== *)

Module TreeFacts.

Import OS Agent Spec SortFacts.

Lemma visible_items_elem l n :
  n ∈ visible_items l <-> hidden n = false /\ n ∈ l.
Proof.
  unfold visible_items. rewrite sorted_elem, list_elem_of_filter.
  destruct (hidden n); simpl; intuition discriminate.
Qed.

Lemma visible_items_sorted l : StronglySorted str_le (visible_items l).
Proof. apply sorted_sorted. Qed.

Lemma render_node_item prefix last name isdir below :
  render_node prefix last (TItem name isdir below)
  = (prefix +:+ (if last then TREE_LAST else TREE_TEE) +:+ name
     +:+ (if isdir then "/" else ""))
    :: render_forest (prefix +:+ (if last then TREE_SPACE else TREE_BRANCH)) below.
Proof.
  cbn [render_node]. f_equal.
  induction below as [|c l IH]; [reflexivity|].
  cbn [render_forest]. rewrite <- IH. reflexivity.
Qed.

(** The loop of [_build_tree] over the items draws one node for each. *)
Lemma items_render (sub_lines : string -> string -> list string)
    (sub_shape : string -> list tnode) root wd dir_path prefix level count :
  (forall item_path p, sub_lines item_path p = render_forest p (sub_shape item_path)) ->
  forall items i,
  count = i + length items ->
  flat_map (fun '(i, item) =>
      let connector := if i =? count - 1 then TREE_LAST else TREE_TEE in
      let item_path := PosixPath.join dir_path item in
      let is_dir := path_isdir root wd item_path in
      (prefix +:+ connector +:+ item +:+ (if is_dir then "/" else ""))
      :: (if is_dir && (level <? 3) then
            let extension := if i =? count - 1 then TREE_SPACE else TREE_BRANCH in
            sub_lines item_path (prefix +:+ extension)
          else []))
    (enumerate_from i items)
  = render_forest prefix
      (map (fun item =>
              let item_path := PosixPath.join dir_path item in
              let is_dir := path_isdir root wd item_path in
              TItem item is_dir
                (if is_dir && (level <? 3) then sub_shape item_path else []))
         items).
Proof.
  intros Hsub. cbv zeta.
  induction items as [|item items IH]; intros i Hc; [reflexivity|].
  cbn [enumerate_from flat_map map render_forest].
  rewrite (IH (S i)) by (simpl in Hc; lia).
  rewrite render_node_item. simpl in Hc.
  destruct items as [|item2 items].
  - replace (i =? count - 1) with true by (symmetry; apply Nat.eqb_eq; simpl in Hc; lia).
    simpl. rewrite ?app_nil_r. f_equal.
    destruct (path_isdir _ _ _ && _); [rewrite Hsub|]; rewrite ?app_nil_r; reflexivity.
  - replace (i =? count - 1) with false
      by (symmetry; apply Nat.eqb_neq; simpl in Hc; lia).
    cbn [map]. cbn [app]. f_equal. f_equal.
    destruct (path_isdir _ _ _ && _); [apply Hsub|reflexivity].
Qed.

(** The lines of [_build_tree] are the drawing of [tree_shape]. *)
Lemma build_tree_render fuel root wd dir_path prefix level :
  build_tree_fuel fuel root wd dir_path prefix level
  = render_forest prefix (tree_shape fuel root wd dir_path level).
Proof.
  revert dir_path prefix level.
  induction fuel as [|fuel IH]; intros dir_path prefix level; [reflexivity|].
  cbn [build_tree_fuel tree_shape].
  destruct (listdir root wd dir_path) as [l|e]; [|reflexivity].
  cbv zeta.
  apply (items_render
           (fun item_path p => build_tree_fuel fuel root wd item_path p (level + 1))
           (fun item_path => tree_shape fuel root wd item_path (level + 1))).
  - intros. apply IH.
  - reflexivity.
Qed.

(** More fuel than the levels left changes nothing: the recursion is
    stopped by [level < 3], not by the fuel. *)
Lemma build_tree_fuel_enough root wd n m :
  forall dir_path prefix level,
  3 - level < n -> 3 - level < m ->
  build_tree_fuel n root wd dir_path prefix level
  = build_tree_fuel m root wd dir_path prefix level.
Proof.
  revert m. induction n as [|n IH]; intros [|m] dir_path prefix level Hn Hm;
    try lia.
  cbn [build_tree_fuel].
  destruct (listdir root wd dir_path) as [l|e]; [|reflexivity].
  cbv zeta. apply flat_map_ext. intros [i item].
  f_equal. destruct (path_isdir _ _ _); [|reflexivity].
  destruct (level <? 3) eqn:E; [|reflexivity].
  apply Nat.ltb_lt in E. simpl. apply IH; lia.
Qed.

Lemma item_names_map (g : string -> bool) (h : string -> list tnode) items :
  item_names (map (fun item => TItem item (g item) (h item)) items) = items.
Proof.
  unfold item_names. induction items as [|x l IH]; simpl; [reflexivity|].
  f_equal. exact IH.
Qed.

(** The shape of the tree at [level], with the levels left as depth. *)
Lemma tree_shape_ok root wd d :
  forall dir_path level,
  d + level = 4 ->
  forest_ok root wd d dir_path (tree_shape d root wd dir_path level).
Proof.
  induction d as [|d IH]; intros dir_path level Hd; [reflexivity|].
  cbn [forest_ok tree_shape].
  destruct (listdir root wd dir_path) as [l|e] eqn:El; [right|left; eauto].
  exists l. split; [reflexivity|]. cbv zeta.
  pose proof (item_names_map
                (fun item => path_isdir root wd (PosixPath.join dir_path item))
                (fun item =>
                   if path_isdir root wd (PosixPath.join dir_path item) && (level <? 3)
                   then tree_shape d root wd (PosixPath.join dir_path item) (level + 1)
                   else [])
                (visible_items l)) as Hn.
  cbv beta in Hn. rewrite Hn.
  split; [reflexivity|]. split; [rewrite length_map; reflexivity|].
  split; [apply visible_items_sorted|]. split.
  - apply Forall_forall. intros n Hn'. apply visible_items_elem, Hn'.
  - apply Forall_forall. intros t Ht. apply list_elem_of_fmap in Ht as (n & -> & _).
    split; [reflexivity|].
    destruct (path_isdir _ _ _); simpl; [|reflexivity].
    destruct (level <? 3) eqn:E.
    + apply IH. apply Nat.ltb_lt in E. lia.
    + apply Nat.ltb_ge in E. assert (d = 0) as -> by lia. reflexivity.
Qed.

(** A forest that is [forest_ok] for [d] levels has at most [d] levels. *)
Lemma forest_ok_depth root wd d :
  forall dir_path f, forest_ok root wd d dir_path f -> forest_depth f <= d.
Proof.
  induction d as [|d IH]; intros dir_path f; cbn [forest_ok].
  - intros ->. reflexivity.
  - intros [(e & _ & ->)|(l & _ & _ & _ & _ & _ & Hall)];
      [unfold forest_depth; simpl; lia|].
    unfold forest_depth. induction Hall as [|t f Ht Hall IHf]; simpl; [lia|].
    apply Nat.max_lub; [|exact IHf].
    destruct t as [n isd below|]; [|contradiction]. destruct Ht as [_ Ht].
    simpl. apply le_n_S. destruct isd.
    + exact (IH _ _ Ht).
    + subst below. simpl. lia.
Qed.

(** C6 (amended): the lines of [listTree] draw a tree of the entries
    under [currentPath] in which no entry is more than four levels below
    the root (a call at level 3 still lists its directory; it does not
    descend further, whatever the fuel).  At every level the items are
    the visible names of the directory listing: none starts with the
    hidden-entry marker, and siblings are sorted by code points.  A
    directory that cannot be listed is drawn as the single error marker
    line, with nothing below it. *)
Theorem build_tree_spec st dir_path :
  let shape := tree_shape 4 (fs st) (cwd st) dir_path 0 in
  _build_tree st dir_path "" 0 = render_forest "" shape
  /\ forest_ok (fs st) (cwd st) 4 dir_path shape
  /\ forest_depth shape <= 4
  /\ forall fuel, 4 <= fuel ->
       build_tree_fuel fuel (fs st) (cwd st) dir_path "" 0
       = _build_tree st dir_path "" 0.
Proof.
  cbv zeta. split; [apply build_tree_render|].
  split; [apply tree_shape_ok; reflexivity|].
  split; [eapply forest_ok_depth, tree_shape_ok; reflexivity|].
  intros fuel Hf. apply build_tree_fuel_enough; simpl; lia.
Qed.

(** C6 as stated fails: in a chain of directories [/r/a/b/c/d], the
    entry [d], four levels below [/r], is listed. *)
Lemma tree_depth_counterexample :
  _build_tree Examples.st_deep "/r" "" 0
  = ["└── a/"; "    └── b/"; "        └── c/"; "            └── d/"]
  /\ path_isdir (fs Examples.st_deep) (cwd Examples.st_deep) "/r/a/b/c/d" = true
  /\ forest_depth (tree_shape 4 (fs Examples.st_deep) (cwd Examples.st_deep) "/r" 0) = 4.
Proof. repeat split; vm_compute; reflexivity. Qed.

End TreeFacts.

(* ===================================================================== *)
(** * Strings and paths *)
(* ===================================================================== *)

Module StrFacts.

Import OS Agent Spec.

Lemma app_cons c s t : String c s +:+ t = String c (s +:+ t).
Proof. reflexivity. Qed.

Lemma app_nil_l t : "" +:+ t = t.
Proof. reflexivity. Qed.

Lemma app_nil_r s : s +:+ "" = s.
Proof.
  induction s as [|c s IH]; [reflexivity|]. rewrite app_cons, IH. reflexivity.
Qed.

Lemma app_assoc a b c : (a +:+ b) +:+ c = a +:+ (b +:+ c).
Proof.
  induction a as [|x a IH]; [reflexivity|]. rewrite !app_cons, IH. reflexivity.
Qed.

Lemma prefix_empty s : String.prefix "" s = true.
Proof. destruct s; reflexivity. Qed.

Lemma prefix_one c x s : String.prefix (String c "") (String x s) = Ascii.eqb x c.
Proof.
  simpl. destruct (ascii_dec c x) as [->|Hne].
  - rewrite prefix_empty, Ascii.eqb_refl. reflexivity.
  - symmetry. apply Ascii.eqb_neq. congruence.
Qed.

Lemma contains_slash_cons c s :
  PyStr.contains "/" (String c s) = Ascii.eqb c "/" || PyStr.contains "/" s.
Proof. cbn [PyStr.contains]. rewrite prefix_one. reflexivity. Qed.

Lemma sep_free_cons c s :
  sep_free (String c s) = negb (Ascii.eqb c "/") && sep_free s.
Proof. unfold sep_free. rewrite contains_slash_cons, negb_orb. reflexivity. Qed.

Lemma sep_free_app a b : sep_free (a +:+ b) = sep_free a && sep_free b.
Proof.
  induction a as [|c a IH]; [reflexivity|].
  rewrite ?app_cons, ?app_nil_l. rewrite !sep_free_cons, IH, andb_assoc. reflexivity.
Qed.

Lemma split_on_nonempty sep s : PyStr.split_on sep s <> [].
Proof.
  destruct s as [|c s]; simpl; [discriminate|].
  destruct (Ascii.eqb c sep); [discriminate|].
  destruct (PyStr.split_on sep s); discriminate.
Qed.

Lemma split_on_cons_sep sep s :
  PyStr.split_on sep (String sep s) = "" :: PyStr.split_on sep s.
Proof. simpl. rewrite Ascii.eqb_refl. reflexivity. Qed.

Lemma split_on_cons_other sep c s :
  Ascii.eqb c sep = false ->
  PyStr.split_on sep (String c s)
  = String c (hd "" (PyStr.split_on sep s)) :: tl (PyStr.split_on sep s).
Proof.
  intros H. simpl. rewrite H.
  destruct (PyStr.split_on sep s) eqn:E; [|reflexivity].
  destruct (split_on_nonempty _ _ E).
Qed.

(** A string without separator is one component. *)
Lemma split_on_sep_free s : sep_free s = true -> PyStr.split_on "/" s = [s].
Proof.
  induction s as [|c s IH]; [reflexivity|].
  rewrite sep_free_cons. intros H. apply andb_true_iff in H as [H1 H2].
  apply negb_true_iff in H1.
  rewrite (split_on_cons_other _ _ _ H1), (IH H2). reflexivity.
Qed.

(** Splitting at a separator splits the list of components. *)
Lemma split_on_app_sep a b :
  PyStr.split_on "/" (a +:+ String "/" b)
  = PyStr.split_on "/" a ++ PyStr.split_on "/" b.
Proof.
  induction a as [|c a IH]; rewrite ?app_cons, ?app_nil_l.
  - rewrite split_on_cons_sep. reflexivity.
  - destruct (Ascii.eqb c "/") eqn:E.
    + apply Ascii.eqb_eq in E as ->. rewrite !split_on_cons_sep, IH. reflexivity.
    + rewrite !(split_on_cons_other _ _ _ E), IH.
      destruct (PyStr.split_on "/" a) eqn:Ea; [destruct (split_on_nonempty _ _ Ea)|].
      reflexivity.
Qed.

(** Appending a string without separator extends the last component. *)
Lemma split_on_app_free a b :
  sep_free b = true ->
  PyStr.split_on "/" (a +:+ b)
  = removelast (PyStr.split_on "/" a) ++ [List.last (PyStr.split_on "/" a) "" +:+ b].
Proof.
  intros Hb. induction a as [|c a IH]; rewrite ?app_cons, ?app_nil_l.
  - simpl. apply split_on_sep_free, Hb.
  - destruct (Ascii.eqb c "/") eqn:E.
    + apply Ascii.eqb_eq in E as ->. rewrite !split_on_cons_sep, IH.
      destruct (PyStr.split_on "/" a) eqn:Ea; [destruct (split_on_nonempty _ _ Ea)|].
      reflexivity.
    + rewrite !(split_on_cons_other _ _ _ E), IH.
      destruct (PyStr.split_on "/" a) as [|w ws] eqn:Ea;
        [destruct (split_on_nonempty _ _ Ea)|].
      destruct ws as [|w2 ws]; reflexivity.
Qed.

(** The components of a split have no separator. *)
Lemma split_on_sep_free_all s : Forall (fun c => sep_free c = true) (PyStr.split_on "/" s).
Proof.
  induction s as [|c s IH]; [repeat constructor|].
  destruct (Ascii.eqb c "/") eqn:E.
  - apply Ascii.eqb_eq in E as ->. rewrite split_on_cons_sep.
    constructor; [reflexivity|exact IH].
  - rewrite (split_on_cons_other _ _ _ E).
    destruct (PyStr.split_on "/" s) as [|w ws]; inversion IH; subst; simpl.
    + repeat constructor. rewrite sep_free_cons, E. reflexivity.
    + constructor; [|assumption]. rewrite sep_free_cons, E. simpl. assumption.
Qed.

Lemma join_cons2 x y l :
  PyStr.join "/" (x :: y :: l) = x +:+ String "/" (PyStr.join "/" (y :: l)).
Proof. reflexivity. Qed.

(** Splitting a join gives the components back. *)
Lemma split_on_join comps :
  comps <> [] -> Forall (fun c => sep_free c = true) comps ->
  PyStr.split_on "/" (PyStr.join "/" comps) = comps.
Proof.
  induction comps as [|x comps IH]; [congruence|]. intros _ Hall.
  inversion Hall as [|? ? Hx Hrest]; subst.
  destruct comps as [|y comps].
  - simpl. apply split_on_sep_free, Hx.
  - rewrite join_cons2, split_on_app_sep, (split_on_sep_free _ Hx), IH;
      [reflexivity|discriminate|assumption].
Qed.

Lemma join_snoc comps c :
  comps <> [] ->
  PyStr.join "/" (comps ++ [c]) = PyStr.join "/" comps +:+ String "/" c.
Proof.
  induction comps as [|x comps IH]; [congruence|]. intros _.
  destruct comps as [|y comps]; [reflexivity|].
  change ((x :: y :: comps) ++ [c]) with (x :: (y :: comps) ++ [c]).
  simpl app. rewrite join_cons2.
  change (y :: comps ++ [c]) with ((y :: comps) ++ [c]).
  rewrite IH by discriminate. rewrite join_cons2.
  rewrite app_assoc. reflexivity.
Qed.

Lemma endswith_char_app_one a c : PyStr.endswith_char c (a +:+ String c "") = true.
Proof.
  induction a as [|x a IH]; simpl; [apply Ascii.eqb_refl|].
  destruct (a +:+ String c "") eqn:E; [destruct a; discriminate|exact IH].
Qed.

Lemma endswith_char_inv c a :
  PyStr.endswith_char c a = true -> exists a', a = a' +:+ String c "".
Proof.
  induction a as [|x a IH]; [discriminate|].
  destruct a as [|y a].
  - simpl. intros H. apply Ascii.eqb_eq in H as ->. exists "". reflexivity.
  - intros H. change (PyStr.endswith_char c (String y a) = true) in H.
    destruct (IH H) as [a' Ha]. exists (String x a'). rewrite Ha. reflexivity.
Qed.

Lemma split_on_trailing_sep a :
  PyStr.split_on "/" (a +:+ "/") = PyStr.split_on "/" a ++ [""].
Proof. apply (split_on_app_sep a ""). Qed.

(** Appending a name to a path that ends with the separator. *)
Lemma split_on_after_sep a name :
  sep_free name = true ->
  PyStr.split_on "/" ((a +:+ "/") +:+ name) = PyStr.split_on "/" a ++ [name].
Proof.
  intros H. rewrite app_assoc. change ("/" +:+ name) with (String "/" name).
  rewrite split_on_app_sep, (split_on_sep_free _ H). reflexivity.
Qed.

Lemma sep_free_not_abs name : sep_free name = true -> PyStr.startswith "/" name = false.
Proof.
  destruct name as [|c name]; [reflexivity|].
  rewrite sep_free_cons. intros H. apply andb_true_iff in H as [H _].
  apply negb_true_iff in H. unfold PyStr.startswith. rewrite prefix_one. exact H.
Qed.

Lemma truthy_nonempty s : PyStr.truthy s = true <-> s <> "".
Proof. destruct s; simpl; split; congruence. Qed.

(** [os.path.join] of a non-empty path and a name: the components are
    those of the path, a trailing empty one dropped, and the name. *)
Lemma join_split cd name :
  cd <> "" -> sep_free name = true ->
  PosixPath.isabs (PosixPath.join cd name) = PosixPath.isabs cd
  /\ PosixPath.join cd name <> ""
  /\ exists xs,
       (PyStr.split_on "/" cd = xs \/ PyStr.split_on "/" cd = xs ++ [""])
       /\ PyStr.split_on "/" (PosixPath.join cd name) = xs ++ [name].
Proof.
  intros Hcd Hn. unfold PosixPath.join.
  rewrite (sep_free_not_abs _ Hn).
  destruct cd as [|c cd]; [congruence|]. cbn [PyStr.truthy negb orb].
  destruct (PyStr.endswith_char "/" (String c cd)) eqn:E.
  - split; [unfold PosixPath.isabs, PyStr.startswith;
             rewrite ?app_cons, !prefix_one; reflexivity|].
    split; [discriminate|].
    destruct (endswith_char_inv _ _ E) as [a Ha]. rewrite Ha.
    exists (PyStr.split_on "/" a). split.
    + right. apply split_on_trailing_sep.
    + apply split_on_after_sep, Hn.
  - split; [unfold PosixPath.isabs, PyStr.startswith;
             rewrite ?app_cons, !prefix_one; reflexivity|].
    split; [discriminate|].
    exists (PyStr.split_on "/" (String c cd)). split; [left; reflexivity|].
    change ("/" +:+ name) with (String "/" name).
    rewrite split_on_app_sep, (split_on_sep_free _ Hn). reflexivity.
Qed.

Lemma contains_dotdot_self : PyStr.contains ".." ".." = true.
Proof. reflexivity. Qed.


End StrFacts.

(* ===================================================================== *)
(** * The filesystem calls *)
(* ===================================================================== *)

Module FsFacts.

Import OS Agent Spec StrFacts.

(** Resolution of a path in two parts. *)
Lemma namei_app root xs :
  forall cur ys,
  namei root cur (xs ++ ys)
  = match namei root cur xs with
    | inr p => namei root p ys
    | inl e => inl e
    end.
Proof.
  induction xs as [|c xs IH]; intros cur ys; [reflexivity|].
  cbn [app namei].
  destruct (root !! cur) as [[?|r w x| |]|]; try reflexivity.
  destruct (negb x); [reflexivity|].
  destruct (String.eqb c "" || String.eqb c "."); [apply IH|].
  destruct (String.eqb c ".."); [apply IH|].
  destruct (root !! (cur ++ [c])); [apply IH|reflexivity].
Qed.

(** An empty component before a name changes nothing. *)
Lemma namei_empty_then root p ys :
  ys <> [] ->
  match namei root p [""] with
  | inr q => namei root q ys
  | inl e => inl e
  end = namei root p ys.
Proof.
  destruct ys as [|c ys]; [congruence|]. intros _. cbn [namei].
  destruct (root !! p) as [[?|r w x| |]|] eqn:E; try reflexivity.
  destruct (negb x) eqn:Ex; [reflexivity|].
  cbn [String.eqb orb]. rewrite E, Ex. reflexivity.
Qed.

(** Resolution of one proper name in the directory at [p]. *)
Lemma namei_one root p name :
  proper_name name = true ->
  namei root p [name]
  = match root !! p with
    | Some (Dir _ _ x) =>
        if negb x then inl EACCES
        else match root !! (p ++ [name]) with
             | Some _ => inr (p ++ [name])
             | None => inl ENOENT
             end
    | Some (File _) | Some Special => inl ENOTDIR
    | Some BrokenLink | None => inl ENOENT
    end.
Proof.
  unfold proper_name. intros H. apply negb_true_iff in H.
  apply orb_false_iff in H as [H1 H2]. cbn [namei].
  rewrite H1, H2; destruct (root !! p) as [[?|r w x| |]|]; try reflexivity;
    destruct (negb x); try reflexivity;
    destruct (root !! (p ++ [name])); reflexivity.
Qed.

Lemma lresolve_nonempty root wd path :
  path <> "" ->
  lresolve root wd path = namei root (start wd path) (PyStr.split_on "/" path).
Proof. destruct path; [congruence|reflexivity]. Qed.

(** The components of [join(cd, name)] end with the name. *)
Lemma join_split_last cd name :
  name <> "" -> sep_free name = true ->
  PosixPath.join cd name <> ""
  /\ exists xs, PyStr.split_on "/" (PosixPath.join cd name) = xs ++ [name].
Proof.
  intros Hne Hs. destruct (String.eqb_spec cd "") as [->|Hcd].
  - unfold PosixPath.join. rewrite (sep_free_not_abs _ Hs). cbn.
    split; [exact Hne|]. exists []. apply split_on_sep_free, Hs.
  - destruct (join_split cd name Hcd Hs) as (_ & H1 & xs & _ & H2). eauto.
Qed.

(** [join(cd, name)] resolves as [cd], then [name]. *)
Lemma lresolve_join root wd cd name :
  cd <> "" -> sep_free name = true ->
  lresolve root wd (PosixPath.join cd name)
  = match lresolve root wd cd with
    | inr p => namei root p [name]
    | inl e => inl e
    end.
Proof.
  intros Hcd Hs.
  destruct (join_split cd name Hcd Hs) as (Habs & Hne & xs & Hxs & Hsplit).
  rewrite (lresolve_nonempty _ _ _ Hne), (lresolve_nonempty _ _ _ Hcd).
  unfold start. rewrite Habs, Hsplit, namei_app.
  destruct Hxs as [-> | ->]; [reflexivity|].
  rewrite namei_app.
  destruct (namei root _ xs) as [e|p1]; [reflexivity|].
  symmetry. apply namei_empty_then. discriminate.
Qed.

(** An absolute path resolves the same from every working directory. *)
Lemma lresolve_abs root wd wd' path :
  PosixPath.isabs path = true -> lresolve root wd path = lresolve root wd' path.
Proof. intros H. unfold lresolve, start. rewrite H. reflexivity. Qed.

Lemma stat_abs root wd wd' path :
  PosixPath.isabs path = true -> stat root wd path = stat root wd' path.
Proof. intros H. unfold stat. rewrite (lresolve_abs _ wd wd' _ H). reflexivity. Qed.

(** Adding entries keeps every resolution that succeeded. *)
Lemma namei_mono (root root' : fsmap) comps :
  root ⊆ root' ->
  forall cur p, namei root cur comps = inr p -> namei root' cur comps = inr p.
Proof.
  intros Hsub. induction comps as [|c comps IH]; intros cur p; [auto|].
  cbn [namei].
  destruct (root !! cur) as [[?|r w x| |]|] eqn:E; try discriminate.
  rewrite (lookup_weaken _ _ _ _ E Hsub).
  destruct (negb x); [discriminate|].
  destruct (String.eqb c "" || String.eqb c "."); [apply IH|].
  destruct (String.eqb c ".."); [apply IH|].
  destruct (root !! (cur ++ [c])) eqn:E2; [|discriminate].
  rewrite (lookup_weaken _ _ _ _ E2 Hsub). apply IH.
Qed.



(** ** Directory listings *)

Lemma strip_prefix_spec p k rest : strip_prefix p k = Some rest <-> k = p ++ rest.
Proof.
  revert k. induction p as [|a p IH]; intros k; cbn [strip_prefix app].
  - split; [intros [= ->]|intros ->]; reflexivity.
  - destruct k as [|b k]; [split; discriminate|].
    destruct (String.eqb_spec a b) as [->|Hne].
    + rewrite IH. split; [intros ->; reflexivity|intros [= ->]; reflexivity].
    + split; [discriminate|intros [= -> _]; congruence].
Qed.

Lemma child_of_spec p k c : child_of p k = Some c <-> k = p ++ [c].
Proof.
  unfold child_of. destruct (strip_prefix p k) as [rest|] eqn:E.
  - apply strip_prefix_spec in E as ->.
    destruct rest as [|c' [|c'' rest]];
      (split; [intros [= <-] || discriminate; reflexivity|]);
      intros H; apply app_inv_head in H; inversion H; reflexivity.
  - split; [discriminate|]. intros ->.
    assert (strip_prefix p (p ++ [c]) = Some [c]) by (apply strip_prefix_spec; reflexivity).
    congruence.
Qed.

(** The listing of a directory: the names of its entries. *)
Lemma elem_of_children (root : fsmap) p c :
  c ∈ children root p <-> is_Some (root !! (p ++ [c])).
Proof.
  unfold children. rewrite list_elem_of_omap. split.
  - intros ([k v] & Hin & Hc). apply elem_of_map_to_list in Hin.
    apply child_of_spec in Hc. simpl in Hc. subst k. eauto.
  - intros [v Hv]. exists (p ++ [c], v). split.
    + apply elem_of_map_to_list, Hv.
    + apply child_of_spec. reflexivity.
Qed.

(** ** Changes of the filesystem *)

Lemma lexists_false_exists root wd path :
  path_lexists root wd path = false -> path_exists root wd path = false.
Proof.
  unfold path_lexists, path_exists, stat.
  destruct (lresolve root wd path) as [e|p]; [reflexivity|].
  destruct (root !! p); [discriminate|reflexivity].
Qed.

Lemma unsafe_name_false name :
  unsafe_name name = false ->
  PyStr.contains ".." name = false /\ PyStr.contains "/" name = false
  /\ PyStr.contains "\" name = false /\ sep_free name = true.
Proof.
  unfold unsafe_name, sep_free. intros H.
  apply orb_false_iff in H as [H H3]. apply orb_false_iff in H as [H1 H2].
  rewrite H2. auto.
Qed.

Lemma writable_dir_inv root p :
  writable_dir root p = None -> exists r, root !! p = Some (Dir r true true).
Proof.
  unfold writable_dir. destruct (root !! p) as [[?|r w x| |]|]; try discriminate.
  destruct w, x; try discriminate. eauto.
Qed.

Lemma removelast_snoc {A} (l : list A) x : removelast (l ++ [x]) = l.
Proof. apply removelast_last. Qed.

Lemma last_snoc {A} (l : list A) x d : List.last (l ++ [x]) d = x.
Proof. apply last_last. Qed.

(** What [touch] does when it creates: the new file is the entry [name]
    of the directory the parent path resolves to, which had no such
    entry. *)
Lemma touch_creates (root : fsmap) wd path xs name root' :
  PyStr.split_on "/" path = xs ++ [name] ->
  path_exists root wd path = false ->
  touch root wd path = Ok root' ->
  exists pp r,
    namei root (start wd path) xs = inr pp
    /\ root !! pp = Some (Dir r true true)
    /\ proper_name name = true
    /\ root !! (pp ++ [name]) = None
    /\ root' = <[pp ++ [name] := File (Some "")]> root.
Proof.
  intros Hsplit Hex. unfold touch. unfold path_exists, stat in Hex.
  destruct (lresolve root wd path) as [e|p] eqn:El.
  - destruct e; try discriminate.
    destruct path as [|c path]; [discriminate|].
    unfold parent_comps, last_comp. rewrite Hsplit, removelast_snoc, last_snoc.
    destruct (namei root (start wd (String c path)) xs) as [e|pp] eqn:En;
      [discriminate|].
    destruct (writable_dir root pp) eqn:Ew; [discriminate|].
    destruct (proper_name name) eqn:Ep; [|discriminate].
    intros [= <-]. destruct (writable_dir_inv _ _ Ew) as [r Hr].
    exists pp, r. repeat split; try assumption.
    rewrite lresolve_nonempty in El by discriminate.
    rewrite Hsplit, namei_app, En, (namei_one _ _ _ Ep), Hr in El.
    cbn [negb] in El. destruct (root !! (pp ++ [name])); [discriminate|reflexivity].
  - destruct (root !! p) as [[?|? ? ?| |]|]; discriminate.
Qed.

Lemma snoc_neq {A} (l : list A) x : l <> l ++ [x].
Proof.
  intros H. apply (f_equal length) in H. rewrite length_app in H. simpl in H. lia.
Qed.

(** After [touch] has created the file, its path resolves to it. *)
Lemma resolve_created (root : fsmap) wd path xs name pp r v :
  path <> "" ->
  PyStr.split_on "/" path = xs ++ [name] ->
  namei root (start wd path) xs = inr pp ->
  root !! pp = Some (Dir r true true) ->
  proper_name name = true ->
  root !! (pp ++ [name]) = None ->
  lresolve (<[pp ++ [name] := v]> root) wd path = inr (pp ++ [name]).
Proof.
  intros Hne Hsplit Hn Hpp Hp Hnone.
  rewrite lresolve_nonempty by exact Hne.
  rewrite Hsplit, namei_app.
  rewrite (namei_mono root _ xs (insert_subseteq _ _ _ Hnone) _ _ Hn).
  rewrite (namei_one _ _ _ Hp), lookup_insert_ne by (symmetry; apply snoc_neq).
  rewrite Hpp, lookup_insert_eq. reflexivity.
Qed.

(** The parent of [join(cd, name)] is what [cd] resolves to. *)
Lemma resolve_parent root wd cd name p :
  lresolve root wd cd = inr p -> sep_free name = true ->
  PosixPath.join cd name <> ""
  /\ exists xs,
       PyStr.split_on "/" (PosixPath.join cd name) = xs ++ [name]
       /\ namei root (start wd (PosixPath.join cd name)) xs = inr p.
Proof.
  intros Hres Hs.
  assert (Hcd : cd <> "") by (intros ->; discriminate).
  destruct (join_split cd name Hcd Hs) as (Habs & Hne & xs & Hxs & Hsplit).
  split; [exact Hne|]. exists xs. split; [exact Hsplit|].
  rewrite (lresolve_nonempty _ _ _ Hcd) in Hres.
  unfold start in *. rewrite Habs.
  destruct Hxs as [Hxs|Hxs]; rewrite Hxs in Hres; [exact Hres|].
  rewrite namei_app in Hres.
  destruct (namei root _ xs) as [e|p1]; [discriminate|].
  revert Hres. cbn [namei].
  destruct (root !! p1) as [[?|r w x| |]|]; try discriminate.
  destruct (negb x); [discriminate|]. cbn. intros [= ->]. reflexivity.
Qed.


Lemma listdir_ok_inv root wd path l :
  listdir root wd path = Ok l ->
  exists p, lresolve root wd path = inr p /\ l = children root p.
Proof.
  unfold listdir, stat.
  destruct (lresolve root wd path) as [e|p]; [discriminate|].
  destruct (root !! p) as [[?|r w x| |]|]; try discriminate.
  destruct r; [|discriminate]. intros [= <-]. eauto.
Qed.

(** [makedirs] walks through what exists as resolution does. *)
Lemma mkdirs_walk (root : fsmap) path xs :
  forall cur p ys,
  namei root cur xs = inr p ->
  mkdirs root cur (xs ++ ys) path = mkdirs root p ys path.
Proof.
  induction xs as [|c xs IH]; intros cur p ys; cbn [namei app mkdirs].
  - intros [= ->]. reflexivity.
  - destruct (root !! cur) as [[?|r w x| |]|]; try discriminate.
    destruct (negb x); [discriminate|].
    destruct (String.eqb c "" || String.eqb c "."); [apply IH|].
    destruct (String.eqb c ".."); [apply IH|].
    destruct (root !! (cur ++ [c])); [apply IH|discriminate].
Qed.

(** [makedirs] of one more name creates that directory, which was not
    there, in a directory that can be written to. *)
Lemma mkdirs_one (root : fsmap) path p name root' :
  mkdirs root p [name] path = Ok root' ->
  proper_name name = true
  /\ root !! (p ++ [name]) = None
  /\ root' = <[p ++ [name] := Dir true true true]> root.
Proof.
  cbn [mkdirs]. unfold proper_name.
  destruct (root !! p) as [[?|r w x| |]|]; try discriminate.
  destruct (negb x); [discriminate|].
  destruct (String.eqb name "" || String.eqb name "."); [discriminate|].
  destruct (String.eqb name ".."); [discriminate|].
  destruct (root !! (p ++ [name])); [discriminate|].
  destruct w; [|discriminate]. intros [= <-]. auto.
Qed.



End FsFacts.

(* ===================================================================== *)
(** * Normalised paths *)
(* ===================================================================== *)

Module PathFacts.

Import OS Agent Spec StrFacts.

Lemma good_comp_inv c :
  good_comp c = true ->
  sep_free c = true /\ c <> "" /\ c <> "." /\ c <> "..".
Proof.
  unfold good_comp, proper_name. intros H. apply andb_true_iff in H as [H1 H2].
  split; [exact H1|]. apply negb_true_iff in H2.
  apply orb_false_iff in H2 as [H2 H3]. apply orb_false_iff in H2 as [H2 H4].
  repeat split; intros ->; discriminate.
Qed.

Lemma good_comp_intro c :
  sep_free c = true -> String.eqb c "" || String.eqb c "." = false ->
  String.eqb c ".." = false -> good_comp c = true.
Proof.
  intros H1 H2 H3. unfold good_comp, proper_name. rewrite H1, H2, H3. reflexivity.
Qed.

(** The loop of [normpath] on an absolute path keeps good components only. *)
Lemma norm_comps_good comps :
  forall acc,
  Forall (fun c => sep_free c = true) comps ->
  Forall (fun c => good_comp c = true) acc ->
  Forall (fun c => good_comp c = true) (PosixPath.norm_comps true comps acc).
Proof.
  induction comps as [|comp comps IH]; intros acc Hs Hacc; cbn [PosixPath.norm_comps].
  - apply Forall_rev, Hacc.
  - inversion Hs as [|? ? Hc Hrest]; subst.
    destruct (String.eqb comp "" || String.eqb comp ".") eqn:E1; [auto|].
    destruct (String.eqb comp "..") eqn:E2; cbn [negb andb orb].
    + destruct acc as [|last acc]; [auto|].
      inversion Hacc as [|? ? Hl Hacc']; subst.
      destruct (good_comp_inv _ Hl) as (_ & _ & _ & Hne).
      apply String.eqb_neq in Hne. rewrite Hne. auto.
    + apply IH; [assumption|]. constructor; [|assumption].
      apply good_comp_intro; assumption.
Qed.

Lemma slashes_S n : PosixPath.slashes (S n) = String "/" (PosixPath.slashes n).
Proof. reflexivity. Qed.

Lemma initial_slashes_abs t :
  PosixPath.isabs t = true ->
  PosixPath.initial_slashes t = 1 \/ PosixPath.initial_slashes t = 2.
Proof.
  unfold PosixPath.isabs, PosixPath.initial_slashes. intros ->.
  destruct (_ && _); auto.
Qed.

(** [normpath] of an absolute path is a normalised absolute path. *)
Lemma normpath_shape t : PosixPath.isabs t = true -> normal_abs (PosixPath.normpath t).
Proof.
  intros Habs. unfold PosixPath.normpath.
  destruct t as [|c t]; [discriminate|].
  destruct (initial_slashes_abs _ Habs) as [Hn|Hn]; rewrite Hn; cbn [Nat.ltb Nat.leb].
  - exists 1, (PosixPath.norm_comps true (PyStr.split_on "/" (String c t)) []).
    split; [auto|]. split; [|reflexivity].
    apply norm_comps_good; [apply split_on_sep_free_all|constructor].
  - exists 2, (PosixPath.norm_comps true (PyStr.split_on "/" (String c t)) []).
    split; [auto|]. split; [|reflexivity].
    apply norm_comps_good; [apply split_on_sep_free_all|constructor].
Qed.

(** On good components the loop of [normpath] changes nothing. *)
Lemma norm_comps_id comps :
  forall acc,
  Forall (fun c => good_comp c = true) comps ->
  PosixPath.norm_comps true comps acc = rev acc ++ comps.
Proof.
  induction comps as [|comp comps IH]; intros acc Hall; cbn [PosixPath.norm_comps].
  - rewrite List.app_nil_r. reflexivity.
  - inversion Hall as [|? ? Hc Hrest]; subst.
    destruct (good_comp_inv _ Hc) as (_ & H1 & H2 & H3).
    apply String.eqb_neq in H1, H2, H3. rewrite H1, H2, H3. cbn [negb orb].
    rewrite IH by assumption. cbn [rev]. rewrite <- List.app_assoc. reflexivity.
Qed.

Lemma norm_comps_skip_empty i n comps acc :
  PosixPath.norm_comps i (repeat "" n ++ comps) acc = PosixPath.norm_comps i comps acc.
Proof. induction n as [|n IH]; [reflexivity|]. exact IH. Qed.

Lemma split_on_slashes n s :
  PyStr.split_on "/" (PosixPath.slashes n +:+ s) = repeat "" n ++ PyStr.split_on "/" s.
Proof.
  induction n as [|n IH]; [reflexivity|].
  rewrite slashes_S, app_cons, split_on_cons_sep, IH. reflexivity.
Qed.

Lemma good_comps_sep_free comps :
  Forall (fun c => good_comp c = true) comps ->
  Forall (fun c => sep_free c = true) comps.
Proof.
  intros H. eapply List.Forall_impl; [|exact H].
  intros c Hc. apply (good_comp_inv _ Hc).
Qed.

(** The first character of a join of good components is no slash. *)
Lemma join_good_no_slash comps :
  Forall (fun c => good_comp c = true) comps ->
  PyStr.startswith "/" (PyStr.join "/" comps) = false.
Proof.
  intros H. destruct comps as [|c comps]; [reflexivity|].
  inversion H as [|? ? Hc _]; subst.
  destruct (good_comp_inv _ Hc) as (Hs & Hne & _).
  destruct c as [|x c]; [congruence|].
  rewrite sep_free_cons in Hs. apply andb_true_iff in Hs as [Hx _].
  apply negb_true_iff in Hx.
  destruct comps; [|rewrite join_cons2]; cbn [PyStr.join String.concat];
    rewrite ?app_cons; unfold PyStr.startswith; rewrite prefix_one; exact Hx.
Qed.

Lemma initial_slashes_shape n comps :
  n = 1 \/ n = 2 ->
  Forall (fun c => good_comp c = true) comps ->
  PosixPath.initial_slashes (PosixPath.slashes n +:+ PyStr.join "/" comps) = n.
Proof.
  intros Hn Hall. pose proof (join_good_no_slash _ Hall) as Hj.
  unfold PyStr.startswith in Hj. unfold PosixPath.initial_slashes, PyStr.startswith.
  destruct (PyStr.join "/" comps) as [|x s] eqn:E.
  - destruct Hn as [-> | ->]; reflexivity.
  - rewrite prefix_one in Hj.
    destruct Hn as [-> | ->]; cbn [PosixPath.slashes]; rewrite !app_cons, app_nil_l.
    + cbn [String.prefix]. destruct (ascii_dec "/" "/") as [_|Hc]; [|congruence].
      destruct (ascii_dec "/" x) as [<-|_]; [discriminate|]. reflexivity.
    + cbn [String.prefix]. destruct (ascii_dec "/" "/") as [_|Hc]; [|congruence].
      destruct (ascii_dec "/" x) as [<-|_]; [discriminate|].
      rewrite ?prefix_empty. reflexivity.
Qed.

Lemma norm_comps_split_join comps :
  Forall (fun c => good_comp c = true) comps ->
  PosixPath.norm_comps true (PyStr.split_on "/" (PyStr.join "/" comps)) [] = comps.
Proof.
  intros Hall. destruct comps as [|c comps]; [reflexivity|].
  rewrite split_on_join; [|discriminate|apply good_comps_sep_free, Hall].
  rewrite norm_comps_id by exact Hall. reflexivity.
Qed.

(** [normpath] leaves a normalised absolute path as it is. *)
Lemma normpath_of_shape p :
  normal_abs p -> PosixPath.normpath p = p /\ PosixPath.isabs p = true.
Proof.
  intros (n & comps & Hn & Hall & ->).
  assert (Habs : PosixPath.isabs (PosixPath.slashes n +:+ PyStr.join "/" comps) = true).
  { unfold PosixPath.isabs, PyStr.startswith.
    destruct Hn as [-> | ->]; rewrite slashes_S, app_cons, prefix_one; reflexivity. }
  split; [|exact Habs].
  assert (Hu : forall path, path <> "" ->
            PosixPath.normpath path =
            let q := PosixPath.slashes (PosixPath.initial_slashes path)
                     +:+ PyStr.join "/"
                           (PosixPath.norm_comps (0 <? PosixPath.initial_slashes path)
                              (PyStr.split_on "/" path) []) in
            match q with
            | "" => "."
            | _ => q
            end).
  { intros [|c0 s0] Hne; [congruence|reflexivity]. }
  rewrite Hu by (destruct Hn as [-> | ->]; discriminate). cbv zeta.
  rewrite (initial_slashes_shape n comps Hn Hall), split_on_slashes.
  replace (0 <? n) with true by (destruct Hn as [-> | ->]; reflexivity).
  rewrite norm_comps_skip_empty, (norm_comps_split_join _ Hall).
  destruct Hn as [-> | ->]; reflexivity.
Qed.

Lemma abs_normal_iff p : abs_normal p = true <-> normal_abs p.
Proof.
  unfold abs_normal. split.
  - intros H. apply andb_true_iff in H as [H1 H2]. apply String.eqb_eq in H2.
    rewrite <- H2. apply normpath_shape, H1.
  - intros H. destruct (normpath_of_shape _ H) as [-> ->]. rewrite String.eqb_refl.
    reflexivity.
Qed.


(** ** [dirname] and [basename] of a normalised path *)

Lemma rsplit_sep_free t : sep_free t = true -> PosixPath.rsplit_slash t = ("", t).
Proof.
  induction t as [|c t IH]; [reflexivity|].
  rewrite sep_free_cons. intros H. apply andb_true_iff in H as [H1 H2].
  apply negb_true_iff in H1. cbn [PosixPath.rsplit_slash].
  rewrite (IH H2), H1. reflexivity.
Qed.

Lemma endswith_char_cons c x s :
  s <> "" -> PyStr.endswith_char c (String x s) = PyStr.endswith_char c s.
Proof. destruct s; [congruence|reflexivity]. Qed.

(** The head is empty or ends with a slash, the tail has no slash. *)
Lemma rsplit_unique h t :
  sep_free t = true -> h = "" \/ PyStr.endswith_char "/" h = true ->
  PosixPath.rsplit_slash (h +:+ t) = (h, t).
Proof.
  intros Ht. induction h as [|c h IH]; intros Hh.
  - apply rsplit_sep_free, Ht.
  - destruct Hh as [Hh|Hh]; [discriminate|].
    rewrite app_cons. cbn [PosixPath.rsplit_slash].
    destruct h as [|c2 h].
    + rewrite app_nil_l, (rsplit_sep_free _ Ht). simpl in Hh. rewrite Hh.
      apply Ascii.eqb_eq in Hh as ->. reflexivity.
    + rewrite endswith_char_cons in Hh by discriminate.
      rewrite (IH (or_intror Hh)). reflexivity.
Qed.

Lemma rstrip_char_snoc x s :
  PyStr.rstrip_char x (s +:+ String x "") = PyStr.rstrip_char x s.
Proof.
  induction s as [|c s IH].
  - simpl. rewrite Ascii.eqb_refl. reflexivity.
  - rewrite app_cons. cbn [PyStr.rstrip_char]. rewrite IH. reflexivity.
Qed.

Lemma rstrip_char_noend x s :
  s <> "" -> PyStr.endswith_char x s = false -> PyStr.rstrip_char x s = s.
Proof.
  induction s as [|c s IH]; [congruence|]. intros _ He.
  destruct s as [|c2 s].
  - simpl in *. rewrite He. reflexivity.
  - rewrite endswith_char_cons in He by discriminate.
    cbn [PyStr.rstrip_char]. cbn [PyStr.rstrip_char] in IH.
    rewrite IH; [reflexivity|discriminate|exact He].
Qed.

Lemma endswith_char_app c a b :
  b <> "" -> PyStr.endswith_char c (a +:+ b) = PyStr.endswith_char c b.
Proof.
  intros Hb. induction a as [|x a IH]; [reflexivity|].
  rewrite app_cons, endswith_char_cons; [exact IH|].
  destruct a, b; try discriminate; congruence.
Qed.

Lemma endswith_sep_free b : sep_free b = true -> PyStr.endswith_char "/" b = false.
Proof.
  induction b as [|c b IH]; [reflexivity|].
  rewrite sep_free_cons. intros H. apply andb_true_iff in H as [H1 H2].
  apply negb_true_iff in H1.
  destruct b; [exact H1|]. rewrite endswith_char_cons by discriminate. apply IH, H2.
Qed.

Lemma all_slashes_app a b :
  PosixPath.all_slashes (a +:+ b) = PosixPath.all_slashes a && PosixPath.all_slashes b.
Proof.
  induction a as [|c a IH]; [reflexivity|].
  rewrite app_cons. cbn [PosixPath.all_slashes]. rewrite IH, andb_assoc. reflexivity.
Qed.

Lemma all_slashes_slashes n : PosixPath.all_slashes (PosixPath.slashes n) = true.
Proof. induction n as [|n IH]; [reflexivity|]. exact IH. Qed.

Lemma all_slashes_good c : good_comp c = true -> PosixPath.all_slashes c = false.
Proof.
  intros H. destruct (good_comp_inv _ H) as (Hs & Hne & _).
  destruct c as [|x c]; [congruence|].
  rewrite sep_free_cons in Hs. apply andb_true_iff in Hs as [Hx _].
  apply negb_true_iff in Hx. cbn [PosixPath.all_slashes]. rewrite Hx. reflexivity.
Qed.

(** A join of good components: what it ends with, and that it is not
    made of slashes. *)
Lemma join_good_end cs c :
  Forall (fun c => good_comp c = true) (cs ++ [c]) ->
  exists pre, PyStr.join "/" (cs ++ [c]) = pre +:+ c
              /\ (pre = "" \/ PyStr.endswith_char "/" pre = true)
              /\ (cs = [] -> pre = "")
              /\ (cs <> [] -> pre = PyStr.join "/" cs +:+ "/").
Proof.
  intros _. destruct cs as [|c0 cs].
  - exists "". repeat split; auto. congruence.
  - exists (PyStr.join "/" (c0 :: cs) +:+ "/"). rewrite join_snoc by discriminate.
    split; [rewrite app_assoc; reflexivity|]. split; [|split; [discriminate|reflexivity]].
    right. apply endswith_char_app_one.
Qed.

Lemma join_good_not_slashes cs :
  cs <> [] -> Forall (fun c => good_comp c = true) cs ->
  PosixPath.all_slashes (PyStr.join "/" cs) = false
  /\ PyStr.endswith_char "/" (PyStr.join "/" cs) = false
  /\ PyStr.join "/" cs <> "".
Proof.
  intros Hne Hall.
  destruct (exists_last Hne) as (cs' & c & ->).
  destruct (join_good_end cs' c Hall) as (pre & -> & _).
  apply Forall_app in Hall as [_ Hc]. inversion Hc as [|? ? Hg _]; subst.
  destruct (good_comp_inv _ Hg) as (Hs & Hn & _).
  split; [|split].
  - rewrite all_slashes_app, (all_slashes_good _ Hg), andb_false_r. reflexivity.
  - rewrite endswith_char_app by exact Hn. apply endswith_sep_free, Hs.
  - destruct pre, c; try discriminate; congruence.
Qed.

(** The parts of a normalised absolute path that is not a root. *)
Lemma shape_parts n cs c :
  n = 1 \/ n = 2 ->
  Forall (fun c => good_comp c = true) (cs ++ [c]) ->
  let p := PosixPath.slashes n +:+ PyStr.join "/" (cs ++ [c]) in
  PosixPath.basename p = c
  /\ PosixPath.dirname p = PosixPath.slashes n +:+ PyStr.join "/" cs
  /\ PosixPath.join (PosixPath.dirname p) c = p.
Proof.
  intros Hn Hall. cbv zeta.
  destruct (join_good_end cs c Hall) as (pre & Hj & Hpre & Hnil & Hcons).
  pose proof Hall as Hall'. apply Forall_app in Hall' as [Hcs Hc].
  inversion Hc as [|? ? Hg _]; subst.
  destruct (good_comp_inv _ Hg) as (Hs & Hne & _).
  assert (Hsl : PyStr.endswith_char "/" (PosixPath.slashes n) = true)
    by (destruct Hn as [-> | ->]; reflexivity).
  assert (Hsplit : PosixPath.rsplit_slash
                     (PosixPath.slashes n +:+ PyStr.join "/" (cs ++ [c]))
                   = (PosixPath.slashes n +:+ pre, c)).
  { rewrite Hj, <- app_assoc. apply rsplit_unique; [exact Hs|]. right.
    destruct Hpre as [-> | Hp]; [rewrite app_nil_r; exact Hsl|].
    rewrite endswith_char_app; [exact Hp|]. intros ->. discriminate. }
  unfold PosixPath.basename, PosixPath.dirname. rewrite Hsplit. cbn [fst snd].
  split; [reflexivity|].
  destruct cs as [|c0 cs].
  - rewrite (Hnil eq_refl), app_nil_r, all_slashes_slashes, andb_false_r.
    cbn [PyStr.join String.concat]. rewrite app_nil_r. split; [reflexivity|].
    unfold PosixPath.join. rewrite (sep_free_not_abs _ Hs), Hsl, orb_true_r.
    reflexivity.
  - rewrite (Hcons ltac:(discriminate)).
    destruct (join_good_not_slashes (c0 :: cs) ltac:(discriminate) Hcs)
      as (Ha & He & Hn0).
    assert (Hd : PosixPath.slashes n +:+ PyStr.join "/" (c0 :: cs) <> "")
      by (destruct Hn as [-> | ->]; discriminate).
    assert (He' : PyStr.endswith_char "/"
                    (PosixPath.slashes n +:+ PyStr.join "/" (c0 :: cs)) = false)
      by (rewrite endswith_char_app by exact Hn0; exact He).
    replace (PyStr.truthy (PosixPath.slashes n +:+ PyStr.join "/" (c0 :: cs) +:+ "/"))
      with true by (destruct Hn as [-> | ->]; reflexivity).
    rewrite !all_slashes_app, Ha, andb_false_r. cbn [negb andb].
    rewrite <- app_assoc, rstrip_char_snoc, (rstrip_char_noend _ _ Hd He').
    split; [reflexivity|].
    unfold PosixPath.join. rewrite (sep_free_not_abs _ Hs), He', orb_false_r.
    replace (PyStr.truthy (PosixPath.slashes n +:+ PyStr.join "/" (c0 :: cs)))
      with true by (destruct Hn as [-> | ->]; reflexivity).
    cbn [negb]. rewrite join_snoc by discriminate.
    rewrite !app_assoc. reflexivity.
Qed.

(** A normalised absolute path is a root, or has a parent that is
    normalised and a last component, and is their join. *)
Lemma normal_abs_parts p :
  normal_abs p ->
  (PosixPath.basename p = "" /\ PosixPath.dirname p = p)
  \/ (good_comp (PosixPath.basename p) = true
      /\ normal_abs (PosixPath.dirname p)
      /\ PosixPath.join (PosixPath.dirname p) (PosixPath.basename p) = p).
Proof.
  intros (n & comps & Hn & Hall & ->).
  destruct comps as [|c0 comps'] eqn:Ec.
  - left. cbn [PyStr.join String.concat]. rewrite app_nil_r.
    destruct Hn as [-> | ->]; split; reflexivity.
  - right. rewrite <- Ec in *.
    assert (Hne : comps <> []) by (rewrite Ec; discriminate).
    destruct (exists_last Hne) as (cs & c & Hcs). rewrite Hcs in *.
    destruct (shape_parts n cs c Hn Hall) as (Hb & Hd & Hj).
    rewrite Hb, Hd. split; [|split].
    + apply Forall_app in Hall as [_ Hc]. inversion Hc; assumption.
    + exists n, cs. split; [exact Hn|]. split; [|reflexivity].
      apply Forall_app in Hall as [Hall _]. exact Hall.
    + rewrite <- Hd. exact Hj.
Qed.


End PathFacts.

(* ===================================================================== *)
(** * Navigation up and back *)
(* ===================================================================== *)

Module NavigateFacts.

Import OS Agent Spec StrFacts FsFacts PathFacts HandlerFacts.

Lemma accessible_dir_abs st st' p :
  PosixPath.isabs p = true -> fs st' = fs st ->
  accessible_dir st' p = accessible_dir st p.
Proof.
  intros Habs Hfs. unfold accessible_dir, path_exists, path_isdir, access.
  rewrite Hfs, (stat_abs _ (cwd st') (cwd st) _ Habs). reflexivity.
Qed.

Lemma accessible_dir_checks st path :
  cd_checks st path = PyStr.truthy path && accessible_dir st (cd_target st path).
Proof. unfold cd_checks, accessible_dir. rewrite !andb_assoc. reflexivity. Qed.

(** C9 (amended): when [currentPath] is a normalised absolute path whose
    last component is not an alias of the home directory ([~], [$HOME]),
    and both its parent and itself are existing directories that can be
    read and searched, [navigate("..")] followed by [navigate] to that
    last component ends at the original [currentPath]. *)
Theorem cd_up_then_back st :
  abs_normal (current_dir st) = true ->
  home_alias (PosixPath.basename (current_dir st)) = false ->
  accessible_dir st (PosixPath.dirname (current_dir st)) = true ->
  accessible_dir st (current_dir st) = true ->
  current_dir
    (snd (_handle_cd (PosixPath.basename (current_dir st))
            (snd (_handle_cd ".." st))))
  = current_dir st.
Proof.
  intros Hnorm Halias Hparent Hself.
  apply abs_normal_iff in Hnorm.
  destruct (normpath_of_shape _ Hnorm) as [Hfix Habs].
  assert (Hup : cd_checks st ".." = true).
  { rewrite accessible_dir_checks. exact Hparent. }
  destruct (handle_cd_success _ _ Hup) as (wd & _ & ->). cbn [snd].
  change (cd_target st "..") with (PosixPath.dirname (current_dir st)).
  set (st1 := _update_file_cache _).
  assert (Hf : fs st1 = fs st /\ home st1 = home st
               /\ current_dir st1 = PosixPath.dirname (current_dir st)).
  { destruct (update_file_cache_fields
                (set_cwd wd (set_current_dir (PosixPath.dirname (current_dir st)) st)))
      as (H1 & _ & H3 & H4).
    fold st1 in H1, H3, H4. rewrite H1, H3, H4. repeat split. }
  destruct Hf as (Hfs & Hhome & Hcd).
  destruct (normal_abs_parts _ Hnorm) as [[Hb Hd]|(Hgood & _ & Hjoin)].
  - rewrite Hb. cbn. rewrite Hcd. exact Hd.
  - destruct (good_comp_inv _ Hgood) as (Hs & Hne & _ & Hdd).
    assert (Ht : cd_target st1 (PosixPath.basename (current_dir st)) = current_dir st).
    { unfold cd_target. apply String.eqb_neq in Hdd. rewrite Hdd.
      unfold home_alias in Halias. rewrite Halias.
      unfold PosixPath.isabs. rewrite (sep_free_not_abs _ Hs). cbn [negb].
      rewrite Hcd, Hjoin. exact Hfix. }
    assert (Hback : cd_checks st1 (PosixPath.basename (current_dir st)) = true).
    { rewrite accessible_dir_checks, Ht.
      rewrite (accessible_dir_abs st st1 _ Habs Hfs), Hself.
      apply truthy_nonempty in Hne. rewrite Hne. reflexivity. }
    destruct (handle_cd_success _ _ Hback) as (wd2 & _ & ->). cbn [snd].
    rewrite Ht.
    destruct (update_file_cache_fields
                (set_cwd wd2 (set_current_dir (current_dir st) st1)))
      as (_ & _ & _ & ->).
    reflexivity.
Qed.

Lemma cd_up_then_back_witness :
  current_dir
    (snd (_handle_cd (PosixPath.basename (current_dir Examples.st_proj))
            (snd (_handle_cd ".." Examples.st_proj))))
  = current_dir Examples.st_proj.
Proof.
  apply cd_up_then_back; vm_compute; reflexivity.
Defined.

(** C9 as stated fails.  From a directory named [~], whose parent is an
    accessible directory, going up and then to [~] ends in the home
    directory.  From a directory that can be searched but not read,
    going up succeeds and going back is refused. *)
Lemma cd_up_then_back_counterexample :
  (current_dir Examples.st_tilde = "/tmp/~"
   /\ accessible_dir Examples.st_tilde "/tmp" = true
   /\ current_dir
        (snd (_handle_cd "~" (snd (_handle_cd ".." Examples.st_tilde))))
      = "/home/u")
  /\ (current_dir Examples.st_dark = "/r/x"
      /\ accessible_dir Examples.st_dark "/r" = true
      /\ current_dir
           (snd (_handle_cd "x" (snd (_handle_cd ".." Examples.st_dark))))
         = "/r").
Proof. repeat split; vm_compute; reflexivity. Qed.

End NavigateFacts.

(* ===================================================================== *)
(** * Creating and removing an entry *)
(* ===================================================================== *)

Module CreateRemoveFacts.

Import OS Agent Spec StrFacts FsFacts PathFacts HandlerFacts.

(** [remove] of a name that is not there changes nothing. *)
Lemma rm_absent name st :
  path_lexists (fs st) (cwd st) (PosixPath.join (current_dir st) name) = false ->
  snd (_handle_rm name st) = st.
Proof.
  intros H. unfold _handle_rm.
  destruct (PyStr.truthy name); [|reflexivity].
  destruct (_ || _); [reflexivity|].
  rewrite (lexists_false_exists _ _ _ H), H. reflexivity.
Qed.

(** C8 (amended): for a non-empty name without path separator and
    without the parent-reference token, that names nothing in
    [currentPath] and is not a key of the snapshot, [createFile(name)]
    followed by [remove(name)] leaves the entries of the snapshot, and
    the filesystem, as they were. *)
Theorem create_then_remove_restores name st :
  PyStr.truthy name = true ->
  unsafe_name name = false ->
  path_lexists (fs st) (cwd st) (PosixPath.join (current_dir st) name) = false ->
  _file_cache st !! name = None ->
  _file_cache (snd (_handle_rm name (snd (_handle_create_file name st))))
  = _file_cache st
  /\ fs (snd (_handle_rm name (snd (_handle_create_file name st)))) = fs st.
Proof.
  intros Ht Hu Hlex Hcache.
  destruct (unsafe_name_false _ Hu) as (Hdd & Hsl & Hbs & Hs).
  assert (Hne : name <> "") by (apply truthy_nonempty, Ht).
  destruct (join_split_last (current_dir st) name Hne Hs) as (Hpne & xs & Hsplit).
  unfold _handle_create_file. rewrite Ht, Hu. cbn [negb].
  rewrite (lexists_false_exists _ _ _ Hlex).
  destruct (touch (fs st) (cwd st) (PosixPath.join (current_dir st) name))
    as [root'|e] eqn:Et; cbn [snd].
  2: { rewrite (rm_absent _ _ Hlex). split; reflexivity. }
  destruct (touch_creates _ _ _ _ _ _ Hsplit (lexists_false_exists _ _ _ Hlex) Et)
    as (pp & r & Hn & Hpp & Hp & Hnone & ->).
  pose proof (resolve_created _ (cwd st) _ xs name pp r (File (Some ""))
                Hpne Hsplit Hn Hpp Hp Hnone) as Hres.
  assert (Hdot : String.eqb name "." = false).
  { destruct (String.eqb_spec name ".") as [->|_]; [discriminate|reflexivity]. }
  unfold _handle_rm. rewrite Ht, Hdd, Hsl, Hbs, Hdot. cbn [negb orb].
  cbn [fs cwd current_dir set_fs set_file_cache _file_cache].
  unfold path_exists, path_isfile, stat, remove. rewrite Hres.
  rewrite lookup_insert_eq. cbn [negb orb].
  rewrite removelast_snoc. unfold writable_dir.
  rewrite lookup_insert_ne by (symmetry; apply snoc_neq). rewrite Hpp.
  cbn [andb snd forget set_fs set_file_cache _file_cache fs].
  split.
  - apply delete_insert_id, Hcache.
  - apply delete_insert_id, Hnone.
Qed.

Lemma create_then_remove_restores_witness :
  _file_cache
    (snd (_handle_rm "new.txt" (snd (_handle_create_file "new.txt" Examples.st_proj))))
  = _file_cache Examples.st_proj
  /\ fs (snd (_handle_rm "new.txt"
                (snd (_handle_create_file "new.txt" Examples.st_proj))))
     = fs Examples.st_proj.
Proof.
  apply create_then_remove_restores; vm_compute; reflexivity.
Defined.

(** C8 as stated fails.  In a directory that cannot be listed, the
    snapshot holds the sentinel entry [.error] and the directory has no
    entry of that name; [createFile(".error")] followed by
    [remove(".error")] leaves the snapshot without the sentinel. *)
Lemma create_then_remove_counterexample :
  let st := Examples.st_dark in
  let st2 := snd (_handle_rm ".error" (snd (_handle_create_file ".error" st))) in
  unsafe_name ".error" = false
  /\ path_lexists (fs st) (cwd st) (PosixPath.join (current_dir st) ".error") = false
  /\ fst (_handle_create_file ".error" st) = ("File created: .error", true)
  /\ fst (_handle_rm ".error" (snd (_handle_create_file ".error" st)))
     = ("Removed file: .error", true)
  /\ is_Some (_file_cache st !! ".error")
  /\ _file_cache st2 !! ".error" = None.
Proof.
  cbv zeta. repeat split; try (vm_compute; reflexivity).
  vm_compute. eexists. reflexivity.
Qed.

End CreateRemoveFacts.

(* ===================================================================== *)
(** * The snapshot and the directory *)
(* ===================================================================== *)

Module SnapshotFacts.

Import OS Agent Spec StrFacts FsFacts PathFacts HandlerFacts.


(** ** Refresh *)

Lemma fold_insert_keys (f : string -> entry) items :
  forall (c : gmap string entry) k,
  is_Some (fold_left (fun c item => <[item := f item]> c) items c !! k) ->
  k ∈ items \/ is_Some (c !! k).
Proof.
  induction items as [|x items IH]; intros c k; cbn [fold_left]; [auto|].
  intros H. destruct (IH _ _ H) as [Hin|Hs].
  - left. right. exact Hin.
  - destruct (decide (x = k)) as [->|Hne]; [left; left|].
    rewrite lookup_insert_ne in Hs by exact Hne. auto.
Qed.

(** After a refresh every key is the sentinel or an immediate child,
    whatever the entries were before. *)
Lemma refresh_keys st : keys_are_children (_update_file_cache st).
Proof.
  intros k Hk _. unfold _update_file_cache in *.
  destruct (listdir (fs st) (cwd st) (current_dir st)) as [items|e] eqn:El.
  - right. cbn [set_file_cache _file_cache] in Hk.
    apply fold_insert_keys in Hk as [Hin|Hs].
    + destruct (listdir_ok_inv _ _ _ _ El) as (p & Hp & ->).
      exists p. split; [exact Hp|]. apply elem_of_children, Hin.
    + rewrite lookup_empty in Hs. destruct Hs; discriminate.
  - left. cbn [set_file_cache _file_cache] in Hk.
    destruct (decide (sentinel = k)) as [<-|Hne]; [reflexivity|].
    unfold sentinel in Hne. rewrite lookup_insert_ne in Hk by exact Hne.
    rewrite lookup_empty in Hk. destruct Hk; discriminate.
Qed.

Lemma refresh_ignores_cache st c :
  _update_file_cache (set_file_cache c st) = _update_file_cache st.
Proof. reflexivity. Qed.

(** ** The shapes of the changes *)




(** ** What growing and shrinking keep *)

Lemma lresolve_mono (root root' : fsmap) wd path p :
  root ⊆ root' -> lresolve root wd path = inr p -> lresolve root' wd path = inr p.
Proof.
  intros Hsub. destruct path as [|c path]; [discriminate|].
  apply (namei_mono _ _ _ Hsub).
Qed.





(** ** Navigation keeps the anchor *)





(** ** Context assembly *)










(** ** The invariant *)




(** The state after [__init__] in a normalised working directory. *)
Lemma init_anchored root getcwd cwd0 home0 :
  abs_normal getcwd = true ->
  (exists p, lresolve root cwd0 getcwd = inr p) ->
  abs_normal (PosixPath.expanduser_tilde home0) = true ->
  anchored (init root getcwd cwd0 home0)
  /\ keys_are_children (init root getcwd cwd0 home0).
Proof.
  intros Hn Hp Hh. unfold init. split; [|apply refresh_keys].
  destruct (update_file_cache_fields (State root cwd0 home0 getcwd ∅ false))
    as (H1 & H2 & H3 & H4).
  unfold anchored. rewrite H1, H2, H3, H4. auto.
Qed.





End SnapshotFacts.

(* ===================================================================== *)
(** * The local handlers: listing, refresh, creation, removal *)
(* ===================================================================== *)

Module LocalFacts.

Import OS Agent Spec StrFacts FsFacts PathFacts HandlerFacts SnapshotFacts.

(** ** Replies are told apart by their first characters *)

Ltac differ n :=
  exfalso;
  match goal with
  | H : ?l = ?r |- _ =>
      apply (f_equal (PyStr.take n)) in H; vm_compute in H; discriminate H
  end.

(** ** [_handle_ls] *)

Lemma listdir_ok_access root wd path l :
  listdir root wd path = Ok l ->
  path_exists root wd path = true /\ access root wd path true false = true.
Proof.
  unfold listdir, path_exists, access.
  destruct (stat root wd path) as [e|[p [c|r w x| |]]]; try discriminate.
  destruct r; [|discriminate]. intros _. split; reflexivity.
Qed.

(** X1: [_handle_ls] changes nothing and always answers with a command
    result.  A current directory that cannot be listed (missing, not a
    directory, unreadable) is answered with the path and the single
    error-marker line of the tree; a directory whose listing shows no
    visible item is answered with [<path> (empty)]; otherwise the path
    is followed by the tree lines.  The two [Error: ...] replies of the
    source are never given. *)
Theorem handle_ls_outcome st :
  _handle_ls st =
  ((match listdir (fs st) (cwd st) (current_dir st) with
    | Err _ =>
        current_dir st +:+ "
" +:+ TREE_LAST +:+ "[Error reading directory]"
    | Ok l =>
        match visible_items l with
        | [] => current_dir st +:+ " (empty)"
        | _ :: _ =>
            current_dir st +:+ "
" +:+ PyStr.join "
" (_build_tree st (current_dir st) "" 0)
        end
    end, true), st).
Proof.
  unfold _handle_ls, _build_tree. cbn [build_tree_fuel Nat.sub].
  destruct (listdir (fs st) (cwd st) (current_dir st)) as [l|e] eqn:El.
  - destruct (listdir_ok_access _ _ _ _ El) as [Hex Hacc].
    destruct (visible_items l) as [|item items] eqn:Ev.
    + cbn [enumerate_from flat_map]. rewrite Hex, Hacc. reflexivity.
    + cbn [enumerate_from flat_map app]. reflexivity.
  - reflexivity.
Qed.

(** ** [_update_file_cache] *)

Lemma fold_insert_lookup (f : string -> entry) items :
  forall (c : gmap string entry) k,
  fold_left (fun c item => <[item := f item]> c) items c !! k
  = if bool_decide (k ∈ items) then Some (f k) else c !! k.
Proof.
  induction items as [|x items IH]; intros c k; cbn [fold_left].
  - rewrite bool_decide_eq_false_2 by (apply not_elem_of_nil). reflexivity.
  - rewrite IH. destruct (decide (k ∈ items)) as [Hin|Hnin].
    + rewrite !bool_decide_eq_true_2; [reflexivity|right; exact Hin|exact Hin].
    + rewrite (bool_decide_eq_false_2 _ Hnin).
      destruct (decide (x = k)) as [->|Hne].
      * rewrite lookup_insert_eq, bool_decide_eq_true_2 by left. reflexivity.
      * rewrite lookup_insert_ne by exact Hne.
        rewrite bool_decide_eq_false_2; [reflexivity|].
        intros Hin. apply elem_of_cons in Hin as [->|Hin]; [apply Hne|apply Hnin]; auto.
Qed.

(** X2: after [_update_file_cache] in a directory that can be listed,
    the entries are exactly the names of the listing: each name of the
    listing has an entry, whose [is_dir] says whether the path joined
    from the current directory and the name is a directory, with no
    content and no error; no other key is left, whatever the entries
    were before. *)
Theorem refresh_exact st l k :
  listdir (fs st) (cwd st) (current_dir st) = Ok l ->
  _file_cache (_update_file_cache st) !! k
  = if bool_decide (k ∈ l)
    then Some (Entry (path_isdir (fs st) (cwd st) (PosixPath.join (current_dir st) k))
                 None None)
    else None.
Proof.
  intros El. unfold _update_file_cache. rewrite El.
  cbn [set_file_cache _file_cache].
  rewrite (fold_insert_lookup (listed_entry st)), lookup_empty. reflexivity.
Qed.

Lemma refresh_exact_witness :
  _file_cache (_update_file_cache Examples.st_proj) !! "sub"
  = if bool_decide ("sub" ∈ children Examples.fs_home ["home"; "u"; "proj"])
    then Some (Entry (path_isdir (fs Examples.st_proj) (cwd Examples.st_proj)
                        (PosixPath.join (current_dir Examples.st_proj) "sub"))
                 None None)
    else None.
Proof.
  apply (refresh_exact Examples.st_proj
           (children Examples.fs_home ["home"; "u"; "proj"]) "sub").
  vm_compute. reflexivity.
Defined.

(** ** [_handle_create_file] *)

(** What a successful creation did. *)
Lemma create_file_success name st :
  fst (fst (_handle_create_file name st)) = "File created: " +:+ name ->
  PyStr.truthy name = true /\ unsafe_name name = false
  /\ path_exists (fs st) (cwd st) (PosixPath.join (current_dir st) name) = false
  /\ exists root',
       touch (fs st) (cwd st) (PosixPath.join (current_dir st) name) = Ok root'
       /\ snd (_handle_create_file name st)
          = set_file_cache (<[name := Entry false (Some "") None]> (_file_cache st))
              (set_fs root' st).
Proof.
  unfold _handle_create_file.
  destruct (PyStr.truthy name); cbn [negb]; [|intros H; differ 1].
  destruct (unsafe_name name); [intros H; differ 1|].
  destruct (path_exists _ _ _); [intros H; differ 6|].
  destruct (touch _ _ _) as [root'|e]; [|intros H; differ 1].
  intros _. repeat split. exists root'. split; reflexivity.
Qed.

Lemma created_exists (root : fsmap) wd cd name root' :
  PyStr.truthy name = true -> unsafe_name name = false ->
  path_exists root wd (PosixPath.join cd name) = false ->
  touch root wd (PosixPath.join cd name) = Ok root' ->
  path_exists root' wd (PosixPath.join cd name) = true.
Proof.
  intros Ht Hu Hex Et.
  destruct (unsafe_name_false _ Hu) as (_ & _ & _ & Hs).
  assert (Hne : name <> "") by (apply truthy_nonempty, Ht).
  destruct (join_split_last cd name Hne Hs) as (Hpne & xs & Hsplit).
  destruct (touch_creates _ _ _ _ _ _ Hsplit Hex Et)
    as (pp & r & Hn & Hpp & Hp & Hnone & ->).
  pose proof (resolve_created _ wd _ xs name pp r (File (Some ""))
                Hpne Hsplit Hn Hpp Hp Hnone) as Hres.
  unfold path_exists, stat. rewrite Hres, lookup_insert_eq. reflexivity.
Qed.

(** X3: creating the same file again is refused.  After a
    [_handle_create_file] that answered [File created: <name>], a
    second call with the same name answers [File or directory already
    exists: <name>] and changes nothing. *)
Theorem create_file_twice name st :
  fst (fst (_handle_create_file name st)) = "File created: " +:+ name ->
  _handle_create_file name (snd (_handle_create_file name st))
  = (("File or directory already exists: " +:+ name, true),
     snd (_handle_create_file name st)).
Proof.
  intros Hok.
  destruct (create_file_success _ _ Hok) as (Ht & Hu & Hex & root' & Et & ->).
  unfold _handle_create_file at 1. rewrite Ht, Hu. cbn [negb].
  cbn [set_file_cache set_fs fs cwd current_dir].
  rewrite (created_exists _ _ _ _ _ Ht Hu Hex Et). reflexivity.
Qed.

Lemma create_file_twice_witness :
  _handle_create_file "new.txt" (snd (_handle_create_file "new.txt" Examples.st_proj))
  = (("File or directory already exists: " +:+ "new.txt", true),
     snd (_handle_create_file "new.txt" Examples.st_proj)).
Proof.
  apply (create_file_twice "new.txt" Examples.st_proj).
  vm_compute. reflexivity.
Defined.

(** ** [_handle_mkdir], then [_handle_cd] *)

Lemma mkdir_success name st :
  fst (fst (_handle_mkdir name st)) = "Directory created: " +:+ name ->
  PyStr.truthy name = true /\ unsafe_name name = false
  /\ path_exists (fs st) (cwd st) (PosixPath.join (current_dir st) name) = false
  /\ exists root',
       makedirs (fs st) (cwd st) (PosixPath.join (current_dir st) name) = Ok root'
       /\ snd (_handle_mkdir name st)
          = set_file_cache (<[name := Entry true None None]> (_file_cache st))
              (set_fs root' st).
Proof.
  unfold _handle_mkdir.
  destruct (PyStr.truthy name); cbn [negb]; [|intros H; differ 1].
  destruct (unsafe_name name); [intros H; differ 1|].
  destruct (path_exists _ _ _); [intros H; differ 1|].
  destruct (makedirs _ _ _) as [root'|e].
  - intros _. repeat split. exists root'. split; reflexivity.
  - destruct (errno_code (err_no e) =? 17); intros H; differ 1.
Qed.

Lemma mkdirs_one_parent (root : fsmap) path p name root' :
  mkdirs root p [name] path = Ok root' ->
  exists r, root !! p = Some (Dir r true true).
Proof.
  cbn [mkdirs].
  destruct (root !! p) as [[?|r w x| |]|]; try discriminate.
  destruct x; cbn [negb]; [|discriminate].
  destruct (String.eqb name "" || String.eqb name "."); [discriminate|].
  destruct (String.eqb name ".."); [discriminate|].
  destruct (root !! (p ++ [name])); [discriminate|].
  destruct w; [|discriminate]. eauto.
Qed.

Lemma join_normal cd name :
  normal_abs cd -> good_comp name = true -> normal_abs (PosixPath.join cd name).
Proof.
  intros (n & comps & Hn & Hall & ->) Hg.
  assert (Hall' : Forall (fun c => good_comp c = true) (comps ++ [name])).
  { apply Forall_app. split; [exact Hall|]. constructor; [exact Hg|constructor]. }
  destruct (shape_parts n comps name Hn Hall') as (_ & Hd & Hj).
  cbv zeta in Hd, Hj. rewrite Hd in Hj. rewrite Hj.
  exists n, (comps ++ [name]). auto.
Qed.

(** X4: a directory just made can be entered.  In a session whose
    current directory is a normalised absolute path that resolves, after
    a [_handle_mkdir] that answered [Directory created: <name>], for a
    name that is not an alias of the home directory ([~], [$HOME]),
    [_handle_cd] with the same name succeeds and the current directory
    becomes the old one joined with the name. *)
Theorem mkdir_then_cd name st p :
  abs_normal (current_dir st) = true ->
  lresolve (fs st) (cwd st) (current_dir st) = inr p ->
  home_alias name = false ->
  fst (fst (_handle_mkdir name st)) = "Directory created: " +:+ name ->
  fst (_handle_cd name (snd (_handle_mkdir name st))) = ("", true)
  /\ current_dir (snd (_handle_cd name (snd (_handle_mkdir name st))))
     = PosixPath.join (current_dir st) name.
Proof.
  intros Hnorm Hres Halias Hok.
  destruct (mkdir_success _ _ Hok) as (Ht & Hu & Hex & root' & Em & Hst).
  destruct (unsafe_name_false _ Hu) as (Hdd & _ & _ & Hs).
  assert (Hcd : current_dir st <> "") by (intros E; rewrite E in Hres; discriminate).
  destruct (resolve_parent _ _ _ name _ Hres Hs) as (Hne & xs & Hsplit & Hn).
  unfold makedirs in Em.
  destruct (PosixPath.join (current_dir st) name) as [|c0 s0] eqn:Ej; [congruence|].
  rewrite Hsplit, (mkdirs_walk _ _ _ _ _ _ Hn) in Em.
  destruct (mkdirs_one _ _ _ _ _ Em) as (Hp & Hnone & ->).
  rewrite <- Ej in *. clear Ej c0 s0.
  set (st1 := snd (_handle_mkdir name st)) in *.
  assert (Hg : good_comp name = true) by (unfold good_comp; rewrite Hs, Hp; reflexivity).
  apply abs_normal_iff in Hnorm.
  pose proof (join_normal _ _ Hnorm Hg) as Hjn.
  destruct (normpath_of_shape _ Hjn) as [Hfix Habs].
  assert (Hdot : String.eqb name ".." = false).
  { destruct (good_comp_inv _ Hg) as (_ & _ & _ & H). apply String.eqb_neq, H. }
  assert (Hf : fs st1 = <[p ++ [name] := Dir true true true]> (fs st)
               /\ cwd st1 = cwd st /\ current_dir st1 = current_dir st).
  { rewrite Hst. repeat split. }
  destruct Hf as (Hfs & Hwd & Hcur).
  assert (Htarget : cd_target st1 name = PosixPath.join (current_dir st) name).
  { unfold cd_target. rewrite Hdot. unfold home_alias in Halias. rewrite Halias.
    unfold PosixPath.isabs. rewrite (sep_free_not_abs _ Hs). cbn [negb].
    rewrite Hcur. exact Hfix. }
  destruct (mkdirs_one_parent _ _ _ _ _ Em) as (r & Hpp).
  assert (Hstat : stat (fs st1) (cwd st1) (PosixPath.join (current_dir st) name)
                  = inr (p ++ [name], Dir true true true)).
  { unfold stat. rewrite Hfs, Hwd.
    rewrite (lresolve_join _ _ _ _ Hcd Hs).
    rewrite (lresolve_mono _ _ _ _ _ (insert_subseteq _ _ _ Hnone) Hres).
    rewrite (namei_one _ _ _ Hp).
    rewrite lookup_insert_ne by (symmetry; apply snoc_neq).
    rewrite Hpp. cbn [negb]. rewrite !lookup_insert_eq. reflexivity. }
  assert (Hchecks : cd_checks st1 name = true).
  { unfold cd_checks, path_exists, path_isdir, access.
    rewrite Htarget, Hstat, Ht. reflexivity. }
  destruct (handle_cd_success _ _ Hchecks) as (wd & _ & ->). cbn [fst snd].
  split; [reflexivity|].
  destruct (update_file_cache_fields
              (set_cwd wd (set_current_dir (cd_target st1 name) st1)))
    as (_ & _ & _ & ->).
  exact Htarget.
Qed.

Lemma mkdir_then_cd_witness :
  fst (_handle_cd "new" (snd (_handle_mkdir "new" Examples.st_proj))) = ("", true)
  /\ current_dir (snd (_handle_cd "new" (snd (_handle_mkdir "new" Examples.st_proj))))
     = PosixPath.join (current_dir Examples.st_proj) "new".
Proof.
  apply (mkdir_then_cd "new" Examples.st_proj ["home"; "u"; "proj"]);
    vm_compute; reflexivity.
Defined.

(** ** [_handle_rm] *)

Lemma remove_ok_node (root : fsmap) wd path root' :
  remove root wd path = Ok root' ->
  exists q, root' = delete q root /\ forall r w x, root !! q <> Some (Dir r w x).
Proof.
  unfold remove.
  destruct (lresolve root wd path) as [e|q]; [discriminate|].
  destruct (root !! q) as [[c|r w x| |]|] eqn:E; try discriminate;
    (destruct (writable_dir root (removelast q)); [discriminate|]);
    intros [= <-]; exists q; (split; [reflexivity|]); intros r w x; congruence.
Qed.

Lemma rmdir_ok_node (root : fsmap) wd path root' :
  rmdir root wd path = Ok root' ->
  exists q, root' = delete q root /\ children root q = [].
Proof.
  unfold rmdir.
  destruct (stat root wd path) as [e|[q [c|r w x| |]]]; try discriminate.
  destruct q as [|a q]; [discriminate|].
  destruct (children root (a :: q)) eqn:E; [|discriminate].
  destruct (writable_dir root (removelast (a :: q))); [discriminate|].
  intros [= <-]. exists (a :: q). split; [reflexivity|exact E].
Qed.

(** X5: [_handle_rm] never removes more than one node, and never a
    directory that has entries.  Whatever the name and the state, the
    working directory and the current directory are unchanged, and the
    filesystem afterwards is either the one before or the one before
    without a single path; when that path was a directory, it had no
    entry. *)
Theorem rm_removes_one_node name st :
  cwd (snd (_handle_rm name st)) = cwd st
  /\ current_dir (snd (_handle_rm name st)) = current_dir st
  /\ (fs (snd (_handle_rm name st)) = fs st
      \/ exists q,
           fs (snd (_handle_rm name st)) = delete q (fs st)
           /\ forall r w x, fs st !! q = Some (Dir r w x) -> children (fs st) q = []).
Proof.
  assert (Hsame : cwd st = cwd st /\ current_dir st = current_dir st
                  /\ (fs st = fs st
                      \/ exists q, fs st = delete q (fs st)
                           /\ forall r w x, fs st !! q = Some (Dir r w x) ->
                                children (fs st) q = [])) by auto.
  assert (Hrem : forall root',
            remove (fs st) (cwd st) (PosixPath.join (current_dir st) name) = Ok root' ->
            cwd (forget name (set_fs root' st)) = cwd st
            /\ current_dir (forget name (set_fs root' st)) = current_dir st
            /\ (fs (forget name (set_fs root' st)) = fs st
                \/ exists q,
                     fs (forget name (set_fs root' st)) = delete q (fs st)
                     /\ forall r w x, fs st !! q = Some (Dir r w x) ->
                          children (fs st) q = [])).
  { intros root' Er. destruct (remove_ok_node _ _ _ _ Er) as (q & -> & Hq).
    split; [reflexivity|]. split; [reflexivity|]. right. exists q.
    split; [reflexivity|]. intros r w x E. destruct (Hq r w x E). }
  unfold _handle_rm.
  destruct (PyStr.truthy name); cbn [negb]; [|exact Hsame].
  destruct (_ || _); [exact Hsame|].
  destruct (path_exists _ _ _); cbn [negb].
  - destruct (path_isfile _ _ _ || path_islink _ _ _).
    + destruct (remove _ _ _) as [root'|e] eqn:Er; [|exact Hsame].
      apply Hrem. reflexivity.
    + destruct (path_isdir _ _ _); [|exact Hsame].
      destruct (listdir _ _ _) as [[|? ?]|e]; [|exact Hsame|exact Hsame].
      destruct (rmdir _ _ _) as [root'|e] eqn:Er; [|exact Hsame].
      destruct (rmdir_ok_node _ _ _ _ Er) as (q & -> & Hq).
      split; [reflexivity|]. split; [reflexivity|]. right. exists q.
      split; [reflexivity|]. intros _ _ _ _. exact Hq.
  - destruct (path_lexists _ _ _); [|exact Hsame].
    destruct (remove _ _ _) as [root'|e] eqn:Er; [|exact Hsame].
    apply Hrem. reflexivity.
Qed.

(** ** [_get_file_content] *)

(** X6: content once read is served from the entries.  When
    [_get_file_content] has returned a text, the same call in the state
    it left returns the same text and changes nothing, whatever has
    become of the filesystem and of the working directory since: the
    file is not read again. *)
Theorem get_file_content_cached filename text st root' wd' :
  fst (_get_file_content filename st) = Some text ->
  _get_file_content filename
    (set_cwd wd' (set_fs root' (snd (_get_file_content filename st))))
  = (Some text, set_cwd wd' (set_fs root' (snd (_get_file_content filename st)))).
Proof.
  destruct (_get_file_content filename st) as [c0 st1] eqn:Eg. cbn [fst snd].
  intros ->. unfold _get_file_content in Eg.
  destruct (_file_cache st !! filename) as [e|] eqn:E; [|discriminate].
  destruct (is_dir e || opt_truthy (error e)) eqn:Hd; [discriminate|].
  destruct (content e) as [c|] eqn:Ec.
  - injection Eg as -> <-. unfold _get_file_content.
    cbn [set_cwd set_fs _file_cache]. rewrite E, Hd, Ec. reflexivity.
  - destruct (path_exists _ _ _ && path_isfile _ _ _); [|discriminate].
    destruct (read_text _ _ _) as [t|]; [|discriminate].
    injection Eg as -> <-. unfold _get_file_content.
    cbn [set_cwd set_fs set_file_cache _file_cache].
    rewrite lookup_insert_eq. cbn [is_dir error content]. rewrite Hd. reflexivity.
Qed.

Lemma get_file_content_cached_witness :
  _get_file_content "a.py"
    (set_cwd [] (set_fs ∅ (snd (_get_file_content "a.py" Examples.st_proj))))
  = (Some "print(1)",
     set_cwd [] (set_fs ∅ (snd (_get_file_content "a.py" Examples.st_proj)))).
Proof.
  apply (get_file_content_cached "a.py" "print(1)" Examples.st_proj ∅ []).
  vm_compute. reflexivity.
Defined.

End LocalFacts.

(* ===================================================================== *)
(** * Context assembly: references, file blocks, the listing *)
(* ===================================================================== *)

Module AssemblyFacts.

Import OS Agent Spec StrFacts FsFacts PathFacts HandlerFacts SnapshotFacts
  SortFacts TreeFacts LocalFacts.

(** ** The matcher on a text without a dot *)

Lemma m_cat {A} ic r1 r2 s g (k : string -> option string -> option A) :
  Re.m ic (Re.Cat r1 r2) s g k = Re.m ic r1 s g (fun s1 g1 => Re.m ic r2 s1 g1 k).
Proof. reflexivity. Qed.

Lemma m_grp {A} ic r s g (k : string -> option string -> option A) :
  Re.m ic (Re.Grp r) s g k
  = Re.m ic r s g (fun s1 _ =>
      k s1 (Some (PyStr.take (String.length s - String.length s1) s))).
Proof. reflexivity. Qed.

(** A repetition of a character class fails when what follows it fails
    on every text that has a property kept by the tails of a text. *)
Lemma plus_cls_none {A} ic p (K : string -> option string -> option A)
    (P : string -> Prop) :
  (forall c s, P (String c s) -> P s) ->
  (forall s g, P s -> K s g = None) ->
  forall s g, P s -> Re.m ic (Re.Plus (Re.Cls p)) s g K = None.
Proof.
  intros Htail HK s g HP. cbn [Re.m].
  destruct s as [|x s']; [reflexivity|].
  destruct (p x); [|reflexivity].
  pose proof (Htail _ _ HP) as HP'. rewrite (HK _ _ HP').
  match goal with
  | |- context [if _ then ?f (String.length _) s' g else None] =>
      assert (Hloop : forall fuel t h, P t -> f fuel t h = None)
  end.
  { induction fuel as [|fuel IH]; intros t h Ht; [reflexivity|].
    destruct t as [|y t']; [reflexivity|].
    destruct (p y); [|reflexivity].
    pose proof (Htail _ _ Ht) as Ht'.
    rewrite (HK _ _ Ht'), (IH _ _ Ht').
    destruct (_ <? _); reflexivity. }
  rewrite (Hloop _ _ _ HP'). destruct (_ <? _); reflexivity.
Qed.

Lemma no_dot_tail c s :
  PyStr.contains "." (String c s) = false -> PyStr.contains "." s = false.
Proof.
  cbn [PyStr.contains]. intros H. apply orb_false_iff in H as [_ H]. exact H.
Qed.

Lemma no_dot_head c s :
  PyStr.contains "." (String c s) = false -> Ascii.eqb c "." = false.
Proof.
  cbn [PyStr.contains]. intros H. apply orb_false_iff in H as [H _].
  rewrite prefix_one in H. exact H.
Qed.

Lemma match_here_no_dot s :
  PyStr.contains "." s = false -> Re.match_here false file_pattern s = None.
Proof.
  intros H. unfold Re.match_here, file_pattern. cbn [Re.seq].
  rewrite m_grp, m_cat.
  apply (plus_cls_none false Re.name_char _ (fun t => PyStr.contains "." t = false));
    [apply no_dot_tail| |exact H].
  intros t g Ht. rewrite m_cat. cbn [Re.m].
  destruct t as [|x t']; [reflexivity|].
  rewrite (no_dot_head _ _ Ht). reflexivity.
Qed.

Lemma findall_from_no_dot fuel :
  forall s, PyStr.contains "." s = false ->
  Re.findall_from fuel false file_pattern s = [].
Proof.
  induction fuel as [|fuel IH]; intros s H; [reflexivity|].
  cbn [Re.findall_from]. rewrite (match_here_no_dot _ H).
  destruct s as [|c s']; [reflexivity|]. apply IH, (no_dot_tail _ _ H).
Qed.

(** A text without a dot holds no file reference. *)
Lemma findall_no_dot s :
  PyStr.contains "." s = false -> Re.findall file_pattern s = [].
Proof. apply findall_from_no_dot. Qed.

Lemma set_order_nil set_order : set_order_ok set_order -> set_order [] = [].
Proof.
  intros Hok. destruct (Hok []) as [_ Hin].
  destruct (set_order []) as [|x l]; [reflexivity|].
  exfalso. apply (not_elem_of_nil x), Hin. left.
Qed.

(** X7: a query without a dot names no file.  For such a query
    [_get_context] leaves the state as it is (no entry is added, no
    file is read) and the context is made of the line of the current
    directory, the line that heads the listing and the item lines of the
    entries, with no file-content section. *)
Theorem plain_query_context set_order query st :
  set_order_ok set_order ->
  PyStr.contains "." query = false ->
  _get_context set_order query st
  = ((model_name,
      PyStr.join "
" (["Current Directory: " +:+ current_dir st;
    "Available files/dirs in current directory (excluding hidden):"]
     ++ context_items (_file_cache st))), st).
Proof.
  intros Hok Hq.
  unfold _get_context, _find_file_references, found_files.
  rewrite (findall_no_dot _ Hq). cbn [fold_left].
  rewrite (set_order_nil _ Hok). reflexivity.
Qed.

Lemma plain_query_context_witness :
  _get_context Examples.first_seen "what does this project do" Examples.st_proj
  = ((model_name,
      PyStr.join "
" (["Current Directory: " +:+ current_dir Examples.st_proj;
    "Available files/dirs in current directory (excluding hidden):"]
     ++ context_items (_file_cache Examples.st_proj))), Examples.st_proj).
Proof.
  apply (plain_query_context Examples.first_seen "what does this project do"
           Examples.st_proj).
  - exact ContextFacts.first_seen_ok.
  - vm_compute. reflexivity.
Defined.

(** ** The block of an included file *)

Lemma length_app a b : String.length (a +:+ b) = String.length a + String.length b.
Proof.
  induction a as [|c a IH]; [reflexivity|].
  rewrite app_cons. cbn [String.length]. rewrite IH. reflexivity.
Qed.


Lemma take_all n : forall s, String.length s <= n -> PyStr.take n s = s.
Proof.
  induction n as [|n IH]; intros [|c s]; cbn [PyStr.take String.length];
    try reflexivity; intros H; [lia|].
  rewrite IH by lia. reflexivity.
Qed.



(** X9: a file that has just been created is announced as unreadable.
    After a [_handle_create_file] that answered [File created: <name>],
    the entry of the name holds the empty text; the block that context
    assembly appends for the name is the line [(Could not read content
    of <name>)], and the state is unchanged by it. *)
Theorem created_file_block name parts st :
  fst (fst (_handle_create_file name st)) = "File created: " +:+ name ->
  file_block name (parts, snd (_handle_create_file name st))
  = (parts ++ ["
(Could not read content of " +:+ name +:+ ")"], snd (_handle_create_file name st)).
Proof.
  intros Hok.
  destruct (create_file_success _ _ Hok) as (_ & _ & _ & root' & _ & ->).
  unfold file_block, _get_file_content.
  cbn [set_file_cache set_fs _file_cache]. rewrite lookup_insert_eq. reflexivity.
Qed.

Lemma created_file_block_witness :
  file_block "new.txt" (["head"], snd (_handle_create_file "new.txt" Examples.st_proj))
  = (["head"] ++ ["
(Could not read content of " +:+ "new.txt" +:+ ")"],
     snd (_handle_create_file "new.txt" Examples.st_proj)).
Proof.
  apply (created_file_block "new.txt" ["head"] Examples.st_proj).
  vm_compute. reflexivity.
Defined.

(** ** The listing of the context *)

(** X10: in a directory that cannot be listed, the context carries the
    error.  After [_update_file_cache] when [os.listdir] of the current
    directory raises, the item lines of the context are the single line
    [- Error accessing directory: Cannot list directory: <the error>]. *)
Theorem unlistable_context st e :
  listdir (fs st) (cwd st) (current_dir st) = Err e ->
  context_items (_file_cache (_update_file_cache st))
  = ["- Error accessing directory: Cannot list directory: " +:+ str_oserror e].
Proof.
  intros El. unfold _update_file_cache. rewrite El.
  unfold context_items. cbn [set_file_cache _file_cache].
  rewrite lookup_insert_eq. reflexivity.
Qed.

Lemma unlistable_context_witness :
  context_items (_file_cache (_update_file_cache Examples.st_dark))
  = ["- Error accessing directory: Cannot list directory: "
     +:+ str_oserror (OSError EACCES "/r/x")].
Proof.
  apply (unlistable_context Examples.st_dark (OSError EACCES "/r/x")).
  vm_compute. reflexivity.
Defined.

(** [sorted] does not depend on the order of its argument. *)
Lemma str_le_antisym a b : str_le a b -> str_le b a -> a = b.
Proof.
  unfold str_le, String.leb. intros H1 H2.
  rewrite String.compare_antisym in H1.
  destruct (String.compare b a) eqn:E; try discriminate.
  symmetry. apply String.compare_eq_iff, E.
Qed.

Lemma sorted_unique l1 :
  forall l2,
  StronglySorted str_le l1 -> StronglySorted str_le l2 -> l1 ≡ₚ l2 -> l1 = l2.
Proof.
  induction l1 as [|a l1 IH]; intros l2 S1 S2 Hp.
  - apply Permutation_nil in Hp. congruence.
  - destruct l2 as [|b l2]; [symmetry in Hp; apply Permutation_nil in Hp; discriminate|].
    apply StronglySorted_inv in S1 as [S1 F1].
    apply StronglySorted_inv in S2 as [S2 F2].
    assert (Hab : a = b).
    { assert (Ha : a ∈ b :: l2) by (rewrite <- Hp; left).
      assert (Hb : b ∈ a :: l1) by (rewrite Hp; left).
      apply elem_of_cons in Ha as [Ha|Ha]; [exact Ha|].
      apply elem_of_cons in Hb as [Hb|Hb]; [congruence|].
      rewrite List.Forall_forall in F1, F2.
      apply str_le_antisym.
      - apply F1, list_elem_of_In, Hb.
      - apply F2, list_elem_of_In, Ha. }
    subst b. f_equal. apply IH; [exact S1|exact S2|].
    eapply Permutation_cons_inv, Hp.
Qed.

Lemma sorted_perm_eq l1 l2 : l1 ≡ₚ l2 -> PyStr.sorted l1 = PyStr.sorted l2.
Proof.
  intros Hp. apply sorted_unique; [apply sorted_sorted|apply sorted_sorted|].
  rewrite !sorted_perm. exact Hp.
Qed.

Lemma filter_strongly_sorted (P : string -> Prop) `{!forall x, Decision (P x)} l :
  StronglySorted str_le l -> StronglySorted str_le (filter P l).
Proof.
  induction 1 as [|y l Hs IH Hall]; [constructor|].
  rewrite filter_cons. destruct (decide (P y)); [|exact IH].
  constructor; [exact IH|].
  rewrite List.Forall_forall in *. intros z Hz.
  apply list_elem_of_In, list_elem_of_filter in Hz as [_ Hz].
  apply Hall, list_elem_of_In, Hz.
Qed.

Lemma children_NoDup (root : fsmap) p : NoDup (children root p).
Proof.
  unfold children.
  pose proof (NoDup_fst_map_to_list root) as Hnd.
  induction (map_to_list root) as [|[k v] l IH]; cbn [omap list_omap]; [constructor|].
  cbn [fmap list_fmap fst] in Hnd. apply NoDup_cons in Hnd as [Hk Hnd].
  cbn [fst]. destruct (child_of p k) as [c|] eqn:Ec; [|apply IH, Hnd].
  apply NoDup_cons. split; [|apply IH, Hnd].
  intros Hin. apply list_elem_of_omap in Hin as ([k' v'] & Hin' & Hc').
  cbn [fst] in Hc'. apply child_of_spec in Ec, Hc'. subst k k'.
  apply Hk. apply list_elem_of_fmap. exists (p ++ [c], v'). split; [reflexivity|exact Hin'].
Qed.

(** The keys of the entries after a refresh, up to their order. *)
Lemma refreshed_keys (f : string -> entry) l :
  NoDup l ->
  map fst (map_to_list
             (fold_left (fun c item => <[item := f item]> c) l (∅ : gmap string entry)))
  ≡ₚ l.
Proof.
  intros Hnd. apply NoDup_Permutation; [apply NoDup_fst_map_to_list|exact Hnd|].
  intros k. rewrite list_elem_of_fmap. split.
  - intros ([k' e] & -> & Hin). apply elem_of_map_to_list in Hin. cbn [fst].
    rewrite fold_insert_lookup, lookup_empty in Hin.
    destruct (decide (k' ∈ l)) as [H|H]; [exact H|].
    rewrite (bool_decide_eq_false_2 _ H) in Hin. discriminate.
  - intros Hin. exists (k, f k). split; [reflexivity|].
    apply elem_of_map_to_list.
    rewrite fold_insert_lookup, (bool_decide_eq_true_2 _ Hin). reflexivity.
Qed.

(** X11: after a refresh the context lists what [ls] shows at the top
    level.  After [_update_file_cache] in a directory whose listing is
    not empty and has no entry named [.error], the item lines of the
    context are, in order, one line for each visible item of the tree
    listing (the names that do not start with a dot, sorted by code
    points), each made of [- ], the name, and a slash when the name is a
    directory. *)
Theorem refreshed_context_listing st l :
  listdir (fs st) (cwd st) (current_dir st) = Ok l ->
  l <> [] ->
  ".error" ∉ l ->
  context_items (_file_cache (_update_file_cache st))
  = map (fun f =>
           "- " +:+ f
           +:+ (if path_isdir (fs st) (cwd st) (PosixPath.join (current_dir st) f)
                then "/" else ""))
      (visible_items l).
Proof.
  intros El Hne Herr.
  assert (Hnd : NoDup l).
  { destruct (listdir_ok_inv _ _ _ _ El) as (p & _ & ->). apply children_NoDup. }
  unfold _update_file_cache. rewrite El. cbn [set_file_cache _file_cache].
  set (c := fold_left _ l ∅).
  assert (Hlook : forall k, c !! k
                  = if bool_decide (k ∈ l) then Some (listed_entry st k) else None).
  { intros k. unfold c. rewrite fold_insert_lookup, lookup_empty. reflexivity. }
  unfold context_items.
  rewrite Hlook, (bool_decide_eq_false_2 _ Herr).
  destruct (decide (c = ∅)) as [Hc|_].
  { exfalso. destruct l as [|x l']; [apply Hne; reflexivity|].
    pose proof (Hlook x) as Hx. rewrite Hc, lookup_empty in Hx.
    rewrite bool_decide_eq_true_2 in Hx by left. discriminate. }
  unfold sorted_keys.
  rewrite (sorted_perm_eq _ l) by (apply refreshed_keys, Hnd).
  assert (Hf : filter (fun f => negb (String.eqb f ".error") && negb (hidden f))
                 (PyStr.sorted l)
               = visible_items l).
  { unfold visible_items. apply sorted_unique.
    - apply filter_strongly_sorted, sorted_sorted.
    - apply sorted_sorted.
    - rewrite sorted_perm.
      rewrite (list_filter_iff _ (fun item => negb (hidden item))).
      + symmetry. apply sorted_perm.
      + intros x. destruct (String.eqb_spec x ".error") as [->|_]; [|reflexivity].
        cbn. tauto. }
  rewrite Hf. apply map_ext_in. intros f Hin.
  apply list_elem_of_In, visible_items_elem in Hin as [_ Hin].
  unfold cached_is_dir. rewrite Hlook, (bool_decide_eq_true_2 _ Hin). reflexivity.
Qed.

Lemma refreshed_context_listing_witness :
  context_items (_file_cache (_update_file_cache Examples.st_proj))
  = map (fun f =>
           "- " +:+ f
           +:+ (if path_isdir (fs Examples.st_proj) (cwd Examples.st_proj)
                     (PosixPath.join (current_dir Examples.st_proj) f)
                then "/" else ""))
      (visible_items (children Examples.fs_home ["home"; "u"; "proj"])).
Proof.
  apply (refreshed_context_listing Examples.st_proj
           (children Examples.fs_home ["home"; "u"; "proj"])).
  - vm_compute. reflexivity.
  - vm_compute. discriminate.
  - apply (proj1 (bool_decide_eq_false _)). vm_compute. reflexivity.
Defined.

End AssemblyFacts.

(* ===================================================================== *)
(** * The router: flags, letter case, missing arguments, phrases *)
(* ===================================================================== *)

Module DispatchFacts.

Import OS Agent Spec StrFacts FsFacts PathFacts HandlerFacts SnapshotFacts
  RouterFacts LocalFacts AssemblyFacts.

(** ** Every local handler answers with a command result *)

Ltac split_ifs :=
  repeat match goal with
         | |- context [if ?b then _ else _] => destruct b
         | |- context [match ?x with _ => _ end] => destruct x
         end.

Lemma handle_ls_flag st : snd (fst (_handle_ls st)) = true /\ snd (_handle_ls st) = st.
Proof.
  unfold _handle_ls. destruct (_build_tree _ _ _ _); [|split; reflexivity].
  destruct (negb _); [split; reflexivity|]. destruct (negb _); split; reflexivity.
Qed.

Lemma handle_cd_flag path st : snd (fst (_handle_cd path st)) = true.
Proof. unfold _handle_cd. split_ifs; reflexivity. Qed.

Lemma handle_create_file_flag name st : snd (fst (_handle_create_file name st)) = true.
Proof. unfold _handle_create_file. split_ifs; reflexivity. Qed.

Lemma handle_mkdir_flag name st : snd (fst (_handle_mkdir name st)) = true.
Proof. unfold _handle_mkdir. split_ifs; reflexivity. Qed.

Lemma handle_rm_flag name st : snd (fst (_handle_rm name st)) = true.
Proof. unfold _handle_rm. split_ifs; reflexivity. Qed.

Lemma call0_flag h st text b st' :
  call0 h st = (Return (text, b), st') -> b = true.
Proof.
  destruct h; cbn [call0 _handle_help _handle_exit _handle_pwd];
    try discriminate; try (intros [= _ <- _]; reflexivity).
  pose proof (handle_ls_flag st) as [H _].
  destruct (_handle_ls st) as [[t f] s]. cbn in H. intros [= _ <- _]. exact H.
Qed.

Lemma call1_flag h arg st text b st' :
  call1 h arg st = (Return (text, b), st') -> b = true.
Proof.
  destruct h; cbn [call1]; try discriminate.
  - pose proof (handle_cd_flag arg st) as H.
    destruct (_handle_cd arg st) as [[t f] s]. cbn in H. intros [= _ <- _]. exact H.
  - pose proof (handle_create_file_flag arg st) as H.
    destruct (_handle_create_file arg st) as [[t f] s]. cbn in H. intros [= _ <- _]. exact H.
  - pose proof (handle_mkdir_flag arg st) as H.
    destruct (_handle_mkdir arg st) as [[t f] s]. cbn in H. intros [= _ <- _]. exact H.
  - pose proof (handle_rm_flag arg st) as H.
    destruct (_handle_rm arg st) as [[t f] s]. cbn in H. intros [= _ <- _]. exact H.
Qed.

(** X12: a reply whose flag is [False] comes from the model.  When
    [process_query] returns a pair whose second component is [False],
    the line was no local command (neither an exact command nor a
    phrase): it went to the model as it was typed, and the exchange
    ended with a 2xx response.  Every local command, and every failure
    of the exchange, is returned with [True]. *)
Theorem unflagged_reply_is_remote set_order http query st text :
  fst (process_query set_order http query st) = Return (text, false) ->
  classify query = Return (RemoteQuery query)
  /\ exists choices, http (request_of set_order query st) = Responded choices.
Proof.
  rewrite process_query_classify.
  destruct (classify query) as [[h [arg|]|t]|e] eqn:Ec; cbn [dispatch].
  - destruct (call1 h arg st) as [r st'] eqn:E. cbn [fst]. intros ->.
    discriminate (call1_flag _ _ _ _ _ _ E).
  - destruct (call0 h st) as [r st'] eqn:E. cbn [fst]. intros ->.
    discriminate (call0_flag _ _ _ _ _ E).
  - pose proof (classify_remote_raw _ _ Ec) as ->. intros H.
    split; [reflexivity|].
    pose proof (ask_model_flag set_order http query st) as Hf.
    destruct (http (request_of set_order query st)) as [ch| | | |];
      [eauto| | | |]; destruct Hf as [t' Ht']; rewrite Ht' in H; discriminate.
  - discriminate.
Qed.

Lemma unflagged_reply_is_remote_witness :
  classify "what is a monad" = Return (RemoteQuery "what is a monad")
  /\ exists choices,
       (fun _ => Responded (Some ["A monoid."]))
         (request_of Examples.first_seen "what is a monad" Examples.st_proj)
       = Responded choices.
Proof.
  apply (unflagged_reply_is_remote Examples.first_seen
           (fun _ => Responded (Some ["A monoid."])) "what is a monad"
           Examples.st_proj "A monoid.").
  vm_compute. reflexivity.
Defined.



(** ** Letter case of the command word *)

Lemma lower_char_idem c : PyStr.lower_char (PyStr.lower_char c) = PyStr.lower_char c.
Proof. destruct c as [[] [] [] [] [] [] [] []]; reflexivity. Qed.

Lemma lower_idem s : PyStr.lower (PyStr.lower s) = PyStr.lower s.
Proof.
  induction s as [|c s IH]; [reflexivity|].
  cbn [PyStr.lower]. rewrite lower_char_idem, IH. reflexivity.
Qed.

(** X14: the command word is read without regard to letter case.  Two
    lines that split into the same parts, except that the first word of
    the second is the first word of the first in lower case, are
    processed alike when that word is an exact command: same reply, same
    state. *)
Theorem exact_command_any_case set_order http query query' tok rest st :
  PyStr.split1 query = tok :: rest ->
  PyStr.split1 query' = PyStr.lower tok :: rest ->
  is_Some (dict_get (PyStr.lower tok) commands) ->
  process_query set_order http query st
  = process_query set_order http query' st.
Proof.
  intros H1 H2 [h Hh]. unfold process_query.
  rewrite H1, H2, lower_idem, Hh. reflexivity.
Qed.

Lemma exact_command_any_case_witness :
  process_query Examples.first_seen Examples.http_timeout "CD sub" Examples.st_proj
  = process_query Examples.first_seen Examples.http_timeout "cd sub" Examples.st_proj.
Proof.
  apply (exact_command_any_case _ _ "CD sub" "cd sub" "CD" ["sub"]).
  - reflexivity.
  - reflexivity.
  - vm_compute. eauto.
Defined.

(** ** A command that wants an argument and gets none *)

(** X15: a command word that wants an argument, typed alone, is
    answered with a usage line.  When the line is one word that is, in
    lower case, [cd], [create], [touch], [mkdir], [rm], [delete] or
    [remove], [process_query] returns a text that starts with
    [Usage: ], flagged as a command result, and the state is unchanged:
    the missing [cmd_parts[1]] raises nothing. *)
Theorem missing_argument_usage set_order http query tok st :
  PyStr.split1 query = [tok] ->
  In (PyStr.lower tok) ["cd"; "create"; "touch"; "mkdir"; "rm"; "delete"; "remove"] ->
  exists usage,
    process_query set_order http query st = (Return (usage, true), st)
    /\ PyStr.startswith "Usage: " usage = true.
Proof.
  intros Hs Hin. unfold process_query. rewrite Hs.
  cbn [In] in Hin.
  destruct Hin as [<-|[<-|[<-|[<-|[<-|[<-|[<-|[]]]]]]]];
    eexists; (split; [reflexivity|reflexivity]).
Qed.

Lemma missing_argument_usage_witness :
  exists usage,
    process_query Examples.first_seen Examples.http_timeout "  Mkdir " Examples.st_proj
    = (Return (usage, true), Examples.st_proj)
    /\ PyStr.startswith "Usage: " usage = true.
Proof.
  apply (missing_argument_usage _ _ "  Mkdir " "Mkdir").
  - reflexivity.
  - cbn. auto.
Defined.

(** ** The phrase [go to <path>] *)

(** A lazy repetition of [.] that is followed by something that fails
    on every non-empty text takes the whole text. *)
Lemma star_lazy_dot_all {A} ic (K : string -> option string -> option A) :
  (forall c s g, K (String c s) g = None) ->
  forall s g, Re.m ic (Re.StarLazy Re.Dot) s g K = K "" g.
Proof.
  intros HK s g. cbn [Re.m].
  match goal with
  | |- ?f (String.length s) s g = _ =>
      assert (Hloop : forall t fuel h, String.length t <= fuel -> f fuel t h = K "" h)
  end.
  { induction t as [|c t IH]; intros fuel h Hlen.
    - destruct fuel; cbn; destruct (K "" h); reflexivity.
    - destruct fuel as [|fuel]; [cbn in Hlen; lia|].
      cbn [String.length] in Hlen.
      cbn beta iota. rewrite HK. cbn [Re.orelse].
      assert (Hlt : (String.length t <? String.length (String c t)) = true).
      { apply Nat.ltb_lt. cbn. lia. }
      rewrite Hlt. apply IH. lia. }
  apply Hloop. lia.
Qed.

Lemma go_to_match x :
  Re.fullmatch true (Re.seq [Re.lit "go to "; rest_group; Re.Eos]) ("go to " +:+ x)
  = Some (Some x).
Proof.
  change (Re.m true (Re.Cat rest_group (Re.Cat Re.Eos Re.Eps)) x None
            (fun rest g => match rest with "" => Some g | _ => None end)
          = Some (Some x)).
  unfold rest_group. rewrite m_cat, m_grp, star_lazy_dot_all.
  - cbn. rewrite Nat.sub_0_r, take_all by lia. reflexivity.
  - intros c s g. cbn. destruct s; [|reflexivity].
    destruct (Ascii.eqb c "010"); reflexivity.
Qed.

(** X16: [go to <path>] is [cd <path>].  For every text [x], the line
    made of [go to ] and [x] is processed as [_handle_cd] called with
    [x] stripped of the white space around it: same reply, same
    state. *)
Theorem go_to_is_cd set_order http x st :
  process_query set_order http ("go to " +:+ x) st
  = (Return (fst (_handle_cd (PyStr.strip x) st)),
     snd (_handle_cd (PyStr.strip x) st)).
Proof.
  unfold process_query.
  change (PyStr.split1 ("go to " +:+ x)) with ["go"; "to " +:+ x].
  change (dict_get (PyStr.lower "go") commands) with (@None handler).
  cbv beta iota.
  unfold natural_commands.
  do 3 (cbn [natural_loop];
        match goal with
        | |- context [Re.fullmatch true ?r ?s] =>
            change (Re.fullmatch true r s) with (@None (option string))
        end; cbv beta iota).
  cbn [natural_loop]. rewrite go_to_match.
  change (dict_get "cd" commands) with (Some H_cd).
  change (str_in "cd" ["cd"; "create"; "mkdir"; "rm"]) with true.
  cbv beta iota. cbn [call1].
  destruct (_handle_cd (PyStr.strip x) st) as [r st']. reflexivity.
Qed.

(** ** The commands that take no argument *)

(** X17: [ls], [tree], [pwd], [help], [exit] and [quit] change nothing.
    When the first word of the line is one of them, in any letter case,
    [process_query] returns a command result and leaves the whole state
    (filesystem, directories, entries) as it was. *)
Theorem bare_command_keeps_state set_order http query st tok rest :
  PyStr.split1 query = tok :: rest ->
  In (PyStr.lower tok) bare_aliases ->
  snd (process_query set_order http query st) = st
  /\ exists text, fst (process_query set_order http query st) = Return (text, true).
Proof.
  intros Hs Hin. unfold process_query. rewrite Hs.
  pose proof (handle_ls_flag st) as [Hf Hst].
  unfold bare_aliases in Hin. cbn [In] in Hin.
  destruct Hin as [<-|[<-|[<-|[<-|[<-|[<-|[]]]]]]]; cbn;
    try (split; [reflexivity|eexists; reflexivity]);
    destruct (_handle_ls st) as [[t f] s]; cbn in *; subst; eauto.
Qed.

Lemma bare_command_keeps_state_witness :
  snd (process_query Examples.first_seen Examples.http_timeout "PWD now"
         Examples.st_proj) = Examples.st_proj
  /\ exists text,
       fst (process_query Examples.first_seen Examples.http_timeout "PWD now"
              Examples.st_proj) = Return (text, true).
Proof.
  apply (bare_command_keeps_state _ _ "PWD now" _ "PWD" ["now"]).
  - reflexivity.
  - cbn. auto.
Defined.

End DispatchFacts.

(* ===================================================================== *)
(** * The interaction loop *)
(* ===================================================================== *)

Module LoopFacts.

Import OS Agent Spec Terminal StrFacts RouterFacts DispatchFacts.

(** ** Stripping, lower case and the first word *)

Lemma isspace_lower_char c : PyStr.isspace (PyStr.lower_char c) = PyStr.isspace c.
Proof. destruct c as [[] [] [] [] [] [] [] []]; reflexivity. Qed.

Lemma lstrip_lower s : PyStr.lstrip (PyStr.lower s) = PyStr.lower (PyStr.lstrip s).
Proof.
  induction s as [|c s IH]; [reflexivity|].
  cbn [PyStr.lower PyStr.lstrip]. rewrite isspace_lower_char.
  destruct (PyStr.isspace c); [exact IH|reflexivity].
Qed.

Lemma lstrip_head s c s' : PyStr.lstrip s = String c s' -> PyStr.isspace c = false.
Proof.
  induction s as [|x s IH]; [discriminate|]. cbn [PyStr.lstrip].
  destruct (PyStr.isspace x) eqn:E; [exact IH|]. intros [= <- _]. exact E.
Qed.

Lemma lstrip_nospace c s : PyStr.isspace c = false -> PyStr.lstrip (String c s) = String c s.
Proof. intros H. cbn [PyStr.lstrip]. rewrite H. reflexivity. Qed.

Lemma token_split s : s = fst (PyStr.token s) +:+ snd (PyStr.token s).
Proof.
  induction s as [|c s IH]; [reflexivity|]. cbn [PyStr.token].
  destruct (PyStr.isspace c); [reflexivity|].
  destruct (PyStr.token s) as [t r]. cbn [fst snd] in *.
  rewrite app_cons, <- IH. reflexivity.
Qed.

Lemma token_word s : PyStr.token (fst (PyStr.token s)) = (fst (PyStr.token s), "").
Proof.
  induction s as [|c s IH]; [reflexivity|]. cbn [PyStr.token].
  destruct (PyStr.isspace c) eqn:E; [reflexivity|].
  destruct (PyStr.token s) as [t r]. cbn [fst snd] in *.
  cbn [PyStr.token]. rewrite E, IH. reflexivity.
Qed.

Lemma token_rest s : PyStr.token (snd (PyStr.token s)) = ("", snd (PyStr.token s)).
Proof.
  induction s as [|c s IH]; [reflexivity|]. cbn [PyStr.token].
  destruct (PyStr.isspace c) eqn:E.
  - cbn [snd PyStr.token]. rewrite E. reflexivity.
  - destruct (PyStr.token s) as [t r]. exact IH.
Qed.

Lemma token_app t r :
  PyStr.token t = (t, "") -> PyStr.token r = ("", r) -> PyStr.token (t +:+ r) = (t, r).
Proof.
  revert r. induction t as [|c t IH]; intros r Ht Hr; [exact Hr|].
  rewrite app_cons. cbn [PyStr.token] in *.
  destruct (PyStr.isspace c); [discriminate|].
  destruct (PyStr.token t) as [t' r'] eqn:E. injection Ht as -> ->.
  rewrite (IH r eq_refl Hr). reflexivity.
Qed.

Lemma token_lower s :
  PyStr.token (PyStr.lower s)
  = (PyStr.lower (fst (PyStr.token s)), PyStr.lower (snd (PyStr.token s))).
Proof.
  induction s as [|c s IH]; [reflexivity|].
  cbn [PyStr.lower PyStr.token]. rewrite isspace_lower_char.
  destruct (PyStr.isspace c); [reflexivity|].
  rewrite IH. destruct (PyStr.token s) as [t r]. reflexivity.
Qed.

Lemma token_head c s : PyStr.isspace c = false -> fst (PyStr.token (String c s)) <> "".
Proof.
  intros H. cbn [PyStr.token]. rewrite H.
  destruct (PyStr.token s). discriminate.
Qed.

Lemma rstrip_head c s : PyStr.isspace c = false -> PyStr.rstrip (String c s) <> "".
Proof.
  intros H. cbn [PyStr.rstrip]. destruct (PyStr.rstrip s); [rewrite H|]; discriminate.
Qed.

Lemma rstrip_word t r :
  PyStr.token t = (t, "") -> t <> "" -> PyStr.rstrip (t +:+ r) = t +:+ PyStr.rstrip r.
Proof.
  revert r. induction t as [|c t IH]; intros r Ht Hne; [congruence|].
  rewrite !app_cons. cbn [PyStr.token] in Ht.
  destruct (PyStr.isspace c) eqn:E; [discriminate|].
  destruct (PyStr.token t) as [t' r'] eqn:Et. injection Ht as -> ->.
  cbn [PyStr.rstrip]. destruct t as [|d t].
  - rewrite !app_nil_l. destruct (PyStr.rstrip r); [rewrite E|]; reflexivity.
  - rewrite (IH r eq_refl) by discriminate. rewrite app_cons. reflexivity.
Qed.

Lemma token_rstrip r : PyStr.token r = ("", r) -> PyStr.token (PyStr.rstrip r) = ("", PyStr.rstrip r).
Proof.
  destruct r as [|c r]; [reflexivity|]. cbn [PyStr.token].
  destruct (PyStr.isspace c) eqn:E.
  - intros _. cbn [PyStr.rstrip].
    destruct (PyStr.rstrip r); [rewrite E; reflexivity|].
    cbn [PyStr.token]. rewrite E. reflexivity.
  - destruct (PyStr.token r). discriminate.
Qed.

Lemma lstrip_rstrip z : PyStr.lstrip (PyStr.rstrip z) = PyStr.rstrip (PyStr.lstrip z).
Proof.
  induction z as [|c z IH]; [reflexivity|].
  cbn [PyStr.lstrip PyStr.rstrip]. destruct (PyStr.isspace c) eqn:E.
  - rewrite <- IH. destruct (PyStr.rstrip z); [reflexivity|].
    cbn [PyStr.lstrip]. rewrite E. reflexivity.
  - cbn [PyStr.rstrip]. destruct (PyStr.rstrip z); rewrite ?E;
      cbn [PyStr.lstrip]; rewrite E; reflexivity.
Qed.

Lemma lower_nonempty s : s <> "" -> PyStr.lower s <> "".
Proof. destruct s; [congruence|discriminate]. Qed.

(** The parts of a line after [lower()] and [strip()]. *)
Lemma split1_strip_lower s :
  PyStr.split1 (PyStr.strip (PyStr.lower s))
  = match PyStr.split1 s with
    | [] => []
    | [t] => [PyStr.lower t]
    | t :: r1 :: _ => [PyStr.lower t; PyStr.rstrip (PyStr.lower r1)]
    end.
Proof.
  unfold PyStr.strip. rewrite lstrip_lower. unfold PyStr.split1 at 2.
  destruct (PyStr.lstrip s) as [|c s1] eqn:Es; [reflexivity|].
  pose proof (lstrip_head _ _ _ Es) as Hc.
  pose proof (token_split (String c s1)) as Hsplit.
  pose proof (token_word (String c s1)) as Hword.
  pose proof (token_rest (String c s1)) as Hrest.
  pose proof (token_head c s1 Hc) as Hne.
  destruct (PyStr.token (String c s1)) as [t r]. cbn [fst snd] in *.
  rewrite Hsplit.
  assert (Hlw : PyStr.token (PyStr.lower t) = (PyStr.lower t, "")).
  { rewrite token_lower, Hword. reflexivity. }
  assert (Hlr : PyStr.token (PyStr.lower r) = ("", PyStr.lower r)).
  { rewrite token_lower, Hrest. reflexivity. }
  assert (Hlow : PyStr.lower (t +:+ r) = PyStr.lower t +:+ PyStr.lower r).
  { clear. induction t as [|x t IH]; [reflexivity|].
    rewrite app_cons. cbn [PyStr.lower]. rewrite app_cons, IH. reflexivity. }
  rewrite Hlow, (rstrip_word _ _ Hlw (lower_nonempty _ Hne)).
  unfold PyStr.split1.
  assert (Hl : PyStr.lstrip (PyStr.lower t +:+ PyStr.rstrip (PyStr.lower r))
               = PyStr.lower t +:+ PyStr.rstrip (PyStr.lower r)).
  { destruct t as [|x t]; [congruence|].
    cbn [PyStr.lower]. rewrite app_cons. apply lstrip_nospace.
    rewrite isspace_lower_char.
    cbn [PyStr.token] in Hword. destruct (PyStr.isspace x); [discriminate|reflexivity]. }
  rewrite Hl.
  destruct (PyStr.lower t +:+ PyStr.rstrip (PyStr.lower r)) as [|y u] eqn:Eu.
  { exfalso. destruct t; [congruence|]. cbn [PyStr.lower] in Eu.
    rewrite app_cons in Eu. discriminate. }
  rewrite <- Eu, (token_app _ _ Hlw (token_rstrip _ Hlr)).
  rewrite lstrip_rstrip, lstrip_lower.
  destruct (PyStr.lstrip r) as [|d r1] eqn:Er; [reflexivity|].
  pose proof (lstrip_head _ _ _ Er) as Hd.
  destruct (PyStr.rstrip (PyStr.lower (String d r1))) eqn:E2; [|reflexivity].
  exfalso. cbn [PyStr.lower] in E2. revert E2. apply rstrip_head.
  rewrite isspace_lower_char. exact Hd.
Qed.

(** ** Lines without a word *)

Lemma blank_strip_lower command :
  PyStr.lstrip command = "" -> PyStr.strip (PyStr.lower command) = "".
Proof. intros H. unfold PyStr.strip. rewrite lstrip_lower, H. reflexivity. Qed.

(** X18: a line without a word never reaches [process_query].  On the
    empty line the loop goes back to the prompt without showing
    anything; on a line of white space only, the first-word check of
    the loop itself raises [IndexError], which the loop catches and
    shows as an error.  In both cases the loop goes on and nothing has
    changed. *)
Theorem blank_line_stays_in_loop set_order http command a :
  PyStr.lstrip command = "" ->
  turn set_order http command a
  = (Continue, if PyStr.truthy command then [ShowError IndexError] else [], a).
Proof.
  intros H. unfold turn. destruct (PyStr.truthy command); [|reflexivity].
  rewrite (blank_strip_lower _ H). reflexivity.
Qed.

Lemma blank_line_stays_in_loop_witness :
  turn Examples.first_seen Examples.http_timeout "   "
    (start_app Examples.fs_home "/home/u/proj" ["home"; "u"; "proj"] (Some "/home/u"))
  = (Continue, if PyStr.truthy "   " then [ShowError IndexError] else [],
     start_app Examples.fs_home "/home/u/proj" ["home"; "u"; "proj"] (Some "/home/u")).
Proof.
  apply (blank_line_stays_in_loop Examples.first_seen Examples.http_timeout "   ").
  reflexivity.
Defined.

(** ** The directory shown at the prompt *)

Lemma call0_raise h st e st' : call0 h st = (Raise e, st') -> st' = st.
Proof.
  destruct h; cbn [call0 _handle_help _handle_exit _handle_pwd];
    try (intros [= _ <-]; reflexivity); try discriminate.
  destruct (_handle_ls st). discriminate.
Qed.

Lemma call1_raise h arg st e st' : call1 h arg st = (Raise e, st') -> st' = st.
Proof.
  destruct h; cbn [call1]; try (intros [= _ <-]; reflexivity).
  - destruct (_handle_cd arg st). discriminate.
  - destruct (_handle_create_file arg st). discriminate.
  - destruct (_handle_mkdir arg st). discriminate.
  - destruct (_handle_rm arg st). discriminate.
Qed.

(** When [process_query] raises, it has changed nothing. *)
Lemma process_query_raise set_order http query st e :
  fst (process_query set_order http query st) = Raise e ->
  snd (process_query set_order http query st) = st.
Proof.
  rewrite process_query_classify.
  destruct (classify query) as [[h [arg|]|t]|e'] eqn:Ec; cbn [dispatch].
  - destruct (call1 h arg st) as [r st'] eqn:E. cbn [fst snd]. intros ->.
    apply (call1_raise _ _ _ _ _ E).
  - destruct (call0 h st) as [r st'] eqn:E. cbn [fst snd]. intros ->.
    apply (call0_raise _ _ _ _ E).
  - unfold ask_model.
    destruct (_get_context set_order t (set_is_processing_api true st)) as [[m c] st1].
    discriminate.
  - reflexivity.
Qed.

Lemma handle_query_in_step set_order http query a :
  in_step a -> in_step (snd (handle_query set_order http query a)).
Proof.
  intros Ha. unfold handle_query.
  pose proof (process_query_raise set_order http query (api a)) as Hr.
  destruct (process_query set_order http query (api a)) as [[rep|e] st'].
  - reflexivity.
  - cbn [fst snd] in *. rewrite (Hr e eq_refl). exact Ha.
Qed.

Lemma turn_in_step set_order http command a :
  in_step a -> in_step (snd (turn set_order http command a)).
Proof.
  intros Ha. unfold turn.
  destruct (negb (PyStr.truthy command)); [exact Ha|].
  destruct (str_in _ _); [exact Ha|].
  destruct (PyStr.split1 _) as [|cmd_check more]; [exact Ha|].
  pose proof (handle_query_in_step set_order http command a Ha) as H.
  destruct (handle_query set_order http command a) as [[[response is_command]|e] a'].
  - destruct (str_in cmd_check local_prefixes); exact H.
  - exact H.
Qed.

(** X19: the directory of the prompt follows the assistant.  When
    [ui.current_dir] is [api.current_dir] before the loop, as it is at
    start-up, it is so when the loop is left or its inputs are used up,
    whatever the lines were and whatever the exchanges came to. *)
Theorem prompt_follows_api set_order http inputs :
  forall a, in_step a -> in_step (snd (interactive_prompt set_order http inputs a)).
Proof.
  induction inputs as [|ev inputs IH]; intros a Ha; [exact Ha|].
  cbn [interactive_prompt].
  destruct (get_input ev) as [command shown0].
  pose proof (turn_in_step set_order http command a Ha) as Ht.
  destruct (turn set_order http command a) as [[[] shown] a']; cbn [snd] in *.
  - pose proof (IH a' Ht) as H.
    destruct (interactive_prompt set_order http inputs a') as [shown' a''].
    exact H.
  - exact Ht.
Qed.

Lemma prompt_follows_api_witness :
  in_step
    (snd (interactive_prompt Examples.first_seen Examples.http_timeout
            [Line "cd sub"; Interrupt; Line "hello"; EOF; Line "ls"]
            (start_app Examples.fs_home "/home/u/proj" ["home"; "u"; "proj"]
               (Some "/home/u")))).
Proof.
  apply (prompt_follows_api Examples.first_seen Examples.http_timeout
           [Line "cd sub"; Interrupt; Line "hello"; EOF; Line "ls"]).
  reflexivity.
Defined.

(** ** The first-word check of the loop *)

Lemma str_in_inv key l : str_in key l = true -> In key l.
Proof.
  unfold str_in. intros H. apply existsb_exists in H as (x & Hin & Hx).
  apply String.eqb_eq in Hx. subst x. exact Hin.
Qed.

(** X20: a line the loop takes for a local command is one.  When the
    first word of the line, lower-cased and stripped as the loop does,
    is one of its [local_prefixes], [process_query] raises nothing and
    returns a command result: the [True] that the loop passes to
    [show_output] on that branch is the flag that was returned. *)
Theorem likely_local_is_command set_order http command st c more :
  PyStr.split1 (PyStr.strip (PyStr.lower command)) = c :: more ->
  str_in c local_prefixes = true ->
  exists text, fst (process_query set_order http command st) = Return (text, true).
Proof.
  rewrite split1_strip_lower. intros Hs Hc.
  assert (Ht : exists t rest, PyStr.split1 command = t :: rest /\ c = PyStr.lower t).
  { destruct (PyStr.split1 command) as [|t [|r1 rest]]; [discriminate| |];
      injection Hs as <- _; eauto. }
  destruct Ht as (t & rest & Hsplit & ->).
  apply str_in_inv in Hc. unfold local_prefixes in Hc. cbn [In] in Hc.
  unfold process_query. rewrite Hsplit.
  assert (H0 : forall h, (exists r s, call0 h st = (Return r, s)) ->
               exists text, fst (call0 h st) = Return (text, true)).
  { intros h (r & s & E). destruct r as [text b].
    rewrite (call0_flag _ _ _ _ _ E) in E. rewrite E. eauto. }
  assert (H1 : forall h arg, (exists r s, call1 h arg st = (Return r, s)) ->
               exists text, fst (call1 h arg st) = Return (text, true)).
  { intros h arg (r & s & E). destruct r as [text b].
    rewrite (call1_flag _ _ _ _ _ _ E) in E. rewrite E. eauto. }
  repeat (destruct Hc as [<-|Hc];
          [cbn [dict_get commands String.eqb Ascii.eqb Bool.eqb str_in existsb orb];
           first [apply H0|apply H1]; cbn [call0 call1];
           match goal with
           | |- context [let '(_, _) := ?x in _] => destruct x; eauto
           end|]).
  destruct Hc.
Qed.

Lemma likely_local_is_command_witness :
  exists text,
    fst (process_query Examples.first_seen Examples.http_timeout "  RM  a.py "
           Examples.st_proj) = Return (text, true).
Proof.
  apply (likely_local_is_command _ _ "  RM  a.py " _ "rm" ["a.py"]); reflexivity.
Defined.

(** ** Leaving the loop *)

Lemma nonblank_truthy command t rest :
  PyStr.split1 command = t :: rest -> PyStr.truthy command = true.
Proof. destruct command; [discriminate|reflexivity]. Qed.

(** X21: [exit] or [quit] followed by more words does not leave the
    loop.  The loop is left only when the whole line, lower-cased and
    stripped, is [exit] or [quit]; when the line has a second word, it
    is processed: [_handle_exit] answers [exit], which the loop shows
    as a command result on its timed branch, without a duration, and
    the loop goes on. *)
Theorem exit_with_words_continues set_order http command tok rest more a :
  PyStr.split1 command = tok :: rest :: more ->
  In (PyStr.lower tok) ["exit"; "quit"] ->
  turn set_order http command a
  = (Continue, [ShowOutput "exit" true false], App (api a) (current_dir (api a))).
Proof.
  intros Hs Hin. unfold turn.
  rewrite (nonblank_truthy _ _ _ Hs). cbn [negb].
  pose proof (split1_strip_lower command) as Hsl. rewrite Hs in Hsl.
  destruct (str_in (PyStr.strip (PyStr.lower command)) ["exit"; "quit"]) eqn:E.
  { exfalso. apply str_in_inv in E. cbn [In] in E.
    destruct E as [E|[E|[]]]; rewrite <- E in Hsl; discriminate Hsl. }
  rewrite Hsl. unfold handle_query, process_query. rewrite Hs.
  cbn [In] in Hin. destruct Hin as [<-|[<-|[]]]; reflexivity.
Qed.

Lemma exit_with_words_continues_witness :
  turn Examples.first_seen Examples.http_timeout "exit now"
    (start_app Examples.fs_home "/home/u/proj" ["home"; "u"; "proj"] (Some "/home/u"))
  = (Continue, [ShowOutput "exit" true false],
     App (api (start_app Examples.fs_home "/home/u/proj" ["home"; "u"; "proj"]
                 (Some "/home/u")))
       (current_dir
          (api (start_app Examples.fs_home "/home/u/proj" ["home"; "u"; "proj"]
                  (Some "/home/u"))))).
Proof.
  apply (exit_with_words_continues _ _ "exit now" "exit" "now" []).
  - reflexivity.
  - cbn. auto.
Defined.

End LoopFacts.

